(** * HexMem: a shallow embedding of the memory service and its contract

    The development follows the TypeScript sources of the service:
    - [routes/agents.ts]   core-memory merge patch,
    - [routes/memory.ts]   direct writes of facts, decisions, tasks, events, projects,
    - [routes/edges.ts]    the relationship graph,
    - [routes/sessions.ts] message ingestion and storage of extracted items,
    - [routes/recall.ts]   hybrid recall,
    - [services/dedup.ts]  two-stage duplicate detection,
    - [services/decay.ts]  the decay sweep.

    Conventions of the model.
    - The relational store is a record of tables, each a list of rows in
      insertion order; a handler is a state transformer over it that either
      answers or throws (an uncaught exception is a 5xx of the framework).
      Statements run one after the other, each committed on its own, as the
      handlers issue them.
    - JavaScript numbers and SQL [real]/[numeric] values are exact rationals
      ([Q]); timestamps are integers, in milliseconds since the epoch.
    - UUIDs are their canonical text, compared as text; the store's rejection
      of text that is not a UUID is outside the model. A request field that
      the code tests for truthiness is an [option string].
    - The store functions the service calls but does not define (trigram
      [similarity], the vector distance [<=>]) and the two external
      capabilities (embedding provider, extractor) are parameters. *)

From Stdlib Require Import QArith Qminmax ZArith String Ascii List Bool Lia Sorted.
From stdpp Require Import gmap strings list fin_maps.

#[local] Set Warnings "-register-all".
#[local] Open Scope string_scope.

(** ** JSON values, as the store's [jsonb] *)

Module Json.

Inductive json : Type :=
| JNull
| JBool (b : bool)
| JNum (q : Q)
| JStr (s : string)
| JArr (l : list json)
| JObj (m : gmap string json).

Definition is_null (j : json) : bool :=
  match j with JNull => true | _ => false end.

(** [typeof j === 'object'] on a parsed JSON body: null, arrays and objects. *)
Definition typeof_object (j : json) : bool :=
  match j with JNull | JArr _ | JObj _ => true | _ => false end.

(** JavaScript truthiness of a parsed JSON value. *)
Definition truthy (j : json) : bool :=
  match j with
  | JNull => false
  | JBool b => b
  | JNum q => negb (Qeq_bool q 0)
  | JStr s => negb (String.eqb s "")
  | JArr _ | JObj _ => true
  end.

(** [a || b] of PostgreSQL on [jsonb]: two objects are merged, the right
    operand winning on common keys; two arrays are appended; in every other
    case a non-array operand is first wrapped into a one-element array. *)
Definition as_array (j : json) : list json :=
  match j with JArr l => l | _ => [j] end.

Definition jsonb_concat (a b : json) : json :=
  match a, b with
  | JObj ma, JObj mb => JObj (mb ∪ ma)
  | _, _ => JArr (as_array a ++ as_array b)
  end.

(** [jsonb_strip_nulls]: deletes every object field whose value is null, at
    every depth; nulls that are array elements stay. *)
Fixpoint jsonb_strip_nulls (j : json) : json :=
  match j with
  | JArr l => JArr (map jsonb_strip_nulls l)
  | JObj m =>
      JObj (omap (fun v => if is_null v then None else Some (jsonb_strip_nulls v)) m)
  | _ => j
  end.

End Json.
Import Json.

(** ** Rows of the store *)

Definition Id := string.
Definition Vec := list Q.

Inductive DecayStatus := active | cooling | archived.

Definition DecayStatus_eqb (a b : DecayStatus) : bool :=
  match a, b with
  | active, active | cooling, cooling | archived, archived => true
  | _, _ => false
  end.

(** The five memory tables that carry decay columns and an embedding. *)
Inductive Table := facts | decisions | tasks | events | session_messages.

Definition Table_eqb (a b : Table) : bool :=
  match a, b with
  | facts, facts | decisions, decisions | tasks, tasks
  | events, events | session_messages, session_messages => true
  | _, _ => false
  end.

(** Text and timestamp columns the queries name. *)
Inductive TextCol := col_content | col_title.
Inductive TimeCol := col_created_at | col_updated_at | col_occurred_at.

(** The type-specific columns of a memory row. A column a table does not
    have keeps its default in that table's rows. *)
Record Payload := mkPayload {
  p_content : string;            (* facts, session_messages *)
  p_title : string;              (* decisions, tasks, events *)
  p_decision : string;           (* decisions *)
  p_description : option string; (* tasks, events *)
  p_session_id : option Id;      (* decisions, session_messages *)
  p_project_id : option Id;      (* tasks *)
  p_confidence : Q;              (* facts *)
  p_priority : Z;                (* tasks *)
  p_status : string;             (* tasks *)
  p_event_type : string;         (* events *)
  p_severity : string;           (* events *)
  p_role : string                (* session_messages *)
}.

Definition empty_payload : Payload :=
  mkPayload "" "" "" None None None 1 50 "not_started" "" "info" "".

(** One row of a memory table: the columns all five tables share, and the
    payload. [row_updated_at] is maintained by a trigger on facts and tasks
    only; [row_occurred_at] is the time column of events. *)
Record Row := mkRow {
  row_id : Id;
  row_agent_id : Id;
  row_payload : Payload;
  row_embedding : option Vec;
  row_created_at : Z;
  row_updated_at : Z;
  row_occurred_at : Z;
  row_access_count : Z;
  row_last_accessed_at : option Z;
  row_decay_status : DecayStatus
}.

Definition text_col (c : TextCol) (r : Row) : string :=
  match c with
  | col_content => p_content (row_payload r)
  | col_title => p_title (row_payload r)
  end.

Definition time_col (c : TimeCol) (r : Row) : Z :=
  match c with
  | col_created_at => row_created_at r
  | col_updated_at => row_updated_at r
  | col_occurred_at => row_occurred_at r
  end.

Definition set_decay_status (s : DecayStatus) (r : Row) : Row :=
  mkRow (row_id r) (row_agent_id r) (row_payload r) (row_embedding r)
        (row_created_at r) (row_updated_at r) (row_occurred_at r)
        (row_access_count r) (row_last_accessed_at r) s.

Definition set_updated_at (t : Z) (r : Row) : Row :=
  mkRow (row_id r) (row_agent_id r) (row_payload r) (row_embedding r)
        (row_created_at r) t (row_occurred_at r)
        (row_access_count r) (row_last_accessed_at r) (row_decay_status r).

(** [SET access_count = access_count + 1, last_accessed_at = NOW()] *)
Definition bump_access (now : Z) (r : Row) : Row :=
  mkRow (row_id r) (row_agent_id r) (row_payload r) (row_embedding r)
        (row_created_at r) (row_updated_at r) (row_occurred_at r)
        (row_access_count r + 1) (Some now) (row_decay_status r).

Record Agent := mkAgent {
  agent_id : Id;
  agent_slug : string;
  agent_display_name : string;
  agent_core_memory : json;
  agent_updated_at : Z
}.

Record Session := mkSession {
  session_id : Id;
  session_agent_id : Id;
  session_ended_at : option Z
}.

Record Project := mkProject {
  project_id : Id;
  project_agent_id : Id;
  project_slug : string;
  project_name : string;
  project_description : option string;
  project_status : string;
  project_embedding : option Vec
}.

Record Edge := mkEdge {
  edge_id : Id;
  edge_agent_id : Id;
  edge_source_type : string;
  edge_source_id : Id;
  edge_target_type : string;
  edge_target_id : Id;
  edge_relation : string;
  edge_weight : Q;
  edge_metadata : json;
  edge_created_at : Z
}.

Record DecayPolicy := mkPolicy {
  policy_agent_id : option Id;   (* NULL = global default *)
  policy_memory_type : string;
  policy_ttl_days : option Z;
  policy_access_boost : bool;
  policy_min_accesses : Z
}.

(** The store. [db_uuids] counts the identifiers drawn so far from
    [gen_random_uuid()]. *)
Record DB := mkDB {
  db_agents : list Agent;
  db_sessions : list Session;
  db_projects : list Project;
  db_rows : Table -> list Row;
  db_memory_edges : list Edge;
  db_decay_policies : list DecayPolicy;
  db_uuids : nat
}.

Definition set_rows (t : Table) (rows : list Row) (db : DB) : DB :=
  mkDB (db_agents db) (db_sessions db) (db_projects db)
       (fun t' => if Table_eqb t' t then rows else db_rows db t')
       (db_memory_edges db) (db_decay_policies db) (db_uuids db).

Definition set_agents (l : list Agent) (db : DB) : DB :=
  mkDB l (db_sessions db) (db_projects db) (db_rows db)
       (db_memory_edges db) (db_decay_policies db) (db_uuids db).

Definition set_projects (l : list Project) (db : DB) : DB :=
  mkDB (db_agents db) (db_sessions db) l (db_rows db)
       (db_memory_edges db) (db_decay_policies db) (db_uuids db).

Definition set_memory_edges (l : list Edge) (db : DB) : DB :=
  mkDB (db_agents db) (db_sessions db) (db_projects db) (db_rows db)
       l (db_decay_policies db) (db_uuids db).

Definition set_uuids (n : nat) (db : DB) : DB :=
  mkDB (db_agents db) (db_sessions db) (db_projects db) (db_rows db)
       (db_memory_edges db) (db_decay_policies db) n.

(** *** Identifiers

    [gen_random_uuid()] is modelled as a deterministic supply: the n-th
    identifier drawn is the version-4 shaped text whose last group spells n
    in hexadecimal. *)

Definition hex_digit (n : nat) : ascii :=
  nth n ["0";"1";"2";"3";"4";"5";"6";"7";"8";"9";"a";"b";"c";"d";"e";"f"]%char "0"%char.

Fixpoint hex_padded (width n : nat) (acc : string) : string :=
  match width with
  | O => acc
  | S w => hex_padded w (n / 16) (String (hex_digit (n mod 16)) acc)
  end.

Definition uuid_of_nat (n : nat) : Id :=
  "00000000-0000-4000-8000-" ++ hex_padded 12 n "".

(** ** Effects: store state and exceptions

    A store statement either returns or raises; a raise leaves the effects
    of the statements before it in place. *)

Inductive PgError :=
| check_violation (constraint : string)
| foreign_key_violation (constraint : string)
| unique_violation (constraint : string)
| invalid_row_count (msg : string).

Inductive Outcome (A : Type) :=
| Ok (a : A)
| Throw (e : PgError).
Arguments Ok {A} a.
Arguments Throw {A} e.

Definition Eff (A : Type) : Type := DB -> Outcome A * DB.

Definition ret {A} (a : A) : Eff A := fun db => (Ok a, db).

Definition throw {A} (e : PgError) : Eff A := fun db => (Throw e, db).

Definition bind {A B} (c : Eff A) (k : A -> Eff B) : Eff B :=
  fun db =>
    match c db with
    | (Ok a, db') => k a db'
    | (Throw e, db') => (Throw e, db')
    end.

(** [try { c } catch { h }] *)
Definition try_catch {A} (c : Eff A) (h : PgError -> Eff A) : Eff A :=
  fun db =>
    match c db with
    | (Ok a, db') => (Ok a, db')
    | (Throw e, db') => h e db'
    end.

(** A read of the store, and a write to it, that cannot fail. *)
Definition gets {A} (f : DB -> A) : Eff A := fun db => (Ok (f db), db).
Definition modify_db (f : DB -> DB) : Eff unit := fun db => (Ok tt, f db).

Notation "x <- c ;; k" := (bind c (fun x => k))
  (at level 100, c at next level, right associativity).
Notation "c ;;; k" := (bind c (fun _ => k))
  (at level 100, right associativity).

(** [for (const x of xs) { acc = body(acc, x) }] with effects. *)
Fixpoint for_each {A S} (xs : list A) (acc : S) (body : S -> A -> Eff S) : Eff S :=
  match xs with
  | [] => ret acc
  | x :: xs' => acc' <- body acc x ;; for_each xs' acc' body
  end.

(** ** Query helpers *)

(** [ORDER BY] and [Array.prototype.sort]: a stable insertion sort; [before a b]
    says that [a] may stay in front of [b]. *)
Fixpoint insert_sorted {A} (before : A -> A -> bool) (x : A) (l : list A) : list A :=
  match l with
  | [] => [x]
  | y :: l' => if before x y then x :: y :: l' else y :: insert_sorted before x l'
  end.

Definition sort_by {A} (before : A -> A -> bool) (l : list A) : list A :=
  foldr (insert_sorted before) [] l.

(** Descending order on a rational key. *)
Definition desc {A} (key : A -> Q) (a b : A) : bool := Qle_bool (key b) (key a).
(** Ascending order on a rational key. *)
Definition asc {A} (key : A -> Q) (a b : A) : bool := Qle_bool (key a) (key b).

(** [x > y] on rationals. *)
Definition Qgtb (x y : Q) : bool := negb (Qle_bool x y).

(** [LIMIT n]: PostgreSQL rejects a negative row count. *)
Definition sql_limit {A} (n : Z) (rows : list A) : Eff (list A) :=
  if (n <? 0)%Z then throw (invalid_row_count "LIMIT must not be negative")
  else ret (take (Z.to_nat n) rows).

(** [arr.slice(0, n)] for an integer [n]: a negative end counts from the back. *)
Definition slice0 {A} (n : Z) (l : list A) : list A :=
  if (n <? 0)%Z then take (Z.to_nat (Z.of_nat (length l) + n)) l
  else take (Z.to_nat n) l.

(** JavaScript truthiness of an optional string. *)
Definition truthy_str (o : option string) : bool :=
  match o with Some s => negb (String.eqb s "") | None => false end.

(** [x || dflt] on an optional string. *)
Definition or_str (o : option string) (dflt : string) : string :=
  match o with Some s => if String.eqb s "" then dflt else s | None => dflt end.

(** [x || null] on an optional string. *)
Definition or_null (o : option string) : option string :=
  match o with Some s => if String.eqb s "" then None else Some s | None => None end.

Definition in_strs (s : string) (l : list string) : bool :=
  existsb (String.eqb s) l.

(** ** Constraints of the schema (migrations 003-005, 008, 009) *)

Definition agent_exists (a : Id) (db : DB) : bool :=
  existsb (fun x => String.eqb (agent_id x) a) (db_agents db).

Definition session_exists (s : Id) (db : DB) : bool :=
  existsb (fun x => String.eqb (session_id x) s) (db_sessions db).

Definition project_exists (p : Id) (db : DB) : bool :=
  existsb (fun x => String.eqb (project_id x) p) (db_projects db).

Definition opt_ref (exists_in : Id -> DB -> bool) (o : option Id) (db : DB) : bool :=
  match o with Some x => exists_in x db | None => true end.

Definition between (lo hi x : Q) : bool := Qle_bool lo x && Qle_bool x hi.

Definition TASK_STATUSES : list string :=
  ["not_started"; "in_progress"; "blocked"; "complete"; "cancelled"].
Definition EVENT_TYPES : list string :=
  ["incident"; "milestone"; "release"; "discovery"; "blocker"; "resolution"].
Definition SEVERITIES : list string := ["info"; "warning"; "critical"].
Definition ROLES : list string := ["user"; "assistant"; "system"; "tool"].
Definition PROJECT_STATUSES : list string := ["active"; "paused"; "completed"; "archived"].
Definition NODE_TYPES : list string :=
  ["task"; "fact"; "decision"; "event"; "session"; "project"].
Definition RELATIONS : list string :=
  ["caused_by"; "decided_in"; "blocks"; "relates_to"; "supersedes"; "part_of";
   "led_to"; "references"; "depends_on"; "derived_from"].

(** The CHECK constraints of each memory table. *)
Definition row_checks (t : Table) (p : Payload) : bool :=
  match t with
  | facts => between 0 1 (p_confidence p)
  | decisions => true
  | tasks => in_strs (p_status p) TASK_STATUSES
             && between 1 100 (inject_Z (p_priority p))
  | events => in_strs (p_event_type p) EVENT_TYPES && in_strs (p_severity p) SEVERITIES
  | session_messages => in_strs (p_role p) ROLES
  end.

(** [INSERT INTO <table> (...) VALUES (...) RETURNING *]: the new row gets a
    fresh id, zero accesses and status active (column defaults); [occurred]
    is the explicit [occurred_at] of an event, when one is given. *)
Definition insert_row (t : Table) (now : Z) (agent : Id) (p : Payload)
    (emb : option Vec) (occurred : option Z) : Eff Row :=
  fun db =>
    if negb (row_checks t p) then (Throw (check_violation "row check"), db)
    else if negb (agent_exists agent db)
    then (Throw (foreign_key_violation "agent_id"), db)
    else if negb (opt_ref session_exists (p_session_id p) db)
    then (Throw (foreign_key_violation "session_id"), db)
    else if negb (opt_ref project_exists (p_project_id p) db)
    then (Throw (foreign_key_violation "project_id"), db)
    else
      let r := mkRow (uuid_of_nat (db_uuids db)) agent p emb now now
                     (match occurred with Some o => o | None => now end)
                     0 None active in
      (Ok r, set_uuids (S (db_uuids db)) (set_rows t (db_rows db t ++ [r]) db)).

(** The UNIQUE key of [memory_edges]. *)
Definition edge_key (e : Edge) : string * Id * string * Id * string :=
  (edge_source_type e, edge_source_id e, edge_target_type e, edge_target_id e,
   edge_relation e).

Definition key_eqb (k1 k2 : string * Id * string * Id * string) : bool :=
  match k1, k2 with
  | (a1, b1, c1, d1, e1), (a2, b2, c2, d2, e2) =>
      String.eqb a1 a2 && String.eqb b1 b2 && String.eqb c1 c2
      && String.eqb d1 d2 && String.eqb e1 e2
  end.

Definition edge_checks (k : string * Id * string * Id * string) : bool :=
  match k with
  | (src, _, tgt, _, rel) =>
      in_strs src NODE_TYPES && in_strs tgt NODE_TYPES && in_strs rel RELATIONS
  end.

Definition mk_edge (id agent : Id) (k : string * Id * string * Id * string)
    (w : Q) (md : json) (now : Z) : Edge :=
  match k with
  | (src, sid, tgt, tid, rel) => mkEdge id agent src sid tgt tid rel w md now
  end.

(** [INSERT INTO memory_edges (agent_id, source_type, source_id, target_type,
    target_id, relation) VALUES (...) ON CONFLICT DO NOTHING]; weight and
    metadata take their defaults [1.0] and [{}]. *)
Definition insert_edge_do_nothing (now : Z) (agent : Id)
    (k : string * Id * string * Id * string) : Eff unit :=
  fun db =>
    if negb (edge_checks k) then (Throw (check_violation "memory_edges"), db)
    else if existsb (fun e => key_eqb (edge_key e) k) (db_memory_edges db)
    then (Ok tt, db)
    else if negb (agent_exists agent db)
    then (Throw (foreign_key_violation "agent_id"), db)
    else
      let e := mk_edge (uuid_of_nat (db_uuids db)) agent k 1 (JObj ∅) now in
      (Ok tt, set_uuids (S (db_uuids db))
                (set_memory_edges (db_memory_edges db ++ [e]) db)).

(** [INSERT ... ON CONFLICT (source_type, source_id, target_type, target_id,
    relation) DO UPDATE SET weight = EXCLUDED.weight, metadata =
    EXCLUDED.metadata RETURNING *] *)
Definition set_weight_metadata (w : Q) (md : json) (e : Edge) : Edge :=
  mkEdge (edge_id e) (edge_agent_id e) (edge_source_type e) (edge_source_id e)
         (edge_target_type e) (edge_target_id e) (edge_relation e) w md
         (edge_created_at e).

Definition upsert_edge (now : Z) (agent : Id)
    (k : string * Id * string * Id * string) (w : Q) (md : json) : Eff Edge :=
  fun db =>
    if negb (edge_checks k) then (Throw (check_violation "memory_edges"), db)
    else
      match List.find (fun e => key_eqb (edge_key e) k) (db_memory_edges db) with
      | Some old =>
          let new := set_weight_metadata w md old in
          (Ok new,
           set_memory_edges
             (map (fun e => if key_eqb (edge_key e) k
                            then set_weight_metadata w md e else e)
                  (db_memory_edges db)) db)
      | None =>
          if negb (agent_exists agent db)
          then (Throw (foreign_key_violation "agent_id"), db)
          else
            let e := mk_edge (uuid_of_nat (db_uuids db)) agent k w md now in
            (Ok e, set_uuids (S (db_uuids db))
                     (set_memory_edges (db_memory_edges db ++ [e]) db))
      end.

(** ** Requests and responses *)

Record Signals := mkSignals {
  semantic : option Q;
  keyword : option Q;
  recency : option Q;
  graph_boost : option Q
}.

Inductive RecallResult := mkResult {
  res_id : Id;
  res_type : string;
  res_content : string;
  res_score : Q;
  res_signals : Signals;
  res_metadata : list (string * string);
  res_created_at : Z;
  res_related : option (list RecallResult)
}.

Record Weights := mkWeights { w_semantic : Q; w_keyword : Q; w_recency : Q }.

Record RecallResponse := mkRecallResponse {
  results : list RecallResult;
  total : nat;
  query : string;
  weights : Weights
}.

Inductive Body :=
| body_error (error : string)
| body_duplicate (error : string) (existing_id : Id) (similarity : Q)
| body_row (r : Row)
| body_project (p : Project)
| body_edge (e : Edge)
| body_core_memory (core_memory : json)
| body_recall (r : RecallResponse)
| body_ingest (message : Row) (n_facts n_decisions n_tasks n_events : nat).

Record Response := reply { status_code : nat; body : Body }.

(** *** [services/dedup.ts] *)

Inductive MatchType := syntactic | semantic_match.

Record DuplicateMatch := mkMatch {
  dm_id : Id;
  dm_similarity : Q;
  dm_type : MatchType
}.

Definition CONTENT_COLUMN (t : Table) : TextCol :=
  match t with
  | facts => col_content
  | decisions => col_title
  | tasks => col_title
  | events => col_title
  | session_messages => col_content
  end.

Definition TRIGRAM_THRESHOLD : Q := 6 # 10.
Definition SEMANTIC_THRESHOLD : Q := 92 # 100.

Definition is_active (r : Row) : bool := DecayStatus_eqb (row_decay_status r) active.

Section Service.

(** [similarity(text, text)] of pg_trgm and [vector <=> vector] of pgvector. *)
Variable similarity : string -> string -> Q.
Variable cosine_distance : Vec -> Vec -> Q.

(** [getEmbeddingProvider()]: [None] when no provider is configured; a
    provider's [embed] answers [None] where the real call rejects. *)
Variable provider : option (string -> option Vec).

(** [extractStructuredItems] of [services/extraction.ts], the LLM call. *)
Record ExtractedFact := mkExtractedFact {
  ef_content : string; ef_subject : option string; ef_confidence : Q
}.
Record ExtractedDecision := mkExtractedDecision {
  ed_title : string; ed_decision : string; ed_rationale : option string
}.
Record ExtractedTask := mkExtractedTask {
  et_title : string; et_description : option string; et_priority : Z
}.
Record ExtractedEvent := mkExtractedEvent {
  ee_title : string; ee_event_type : string; ee_description : option string;
  ee_severity : string
}.
Record ExtractionResult := mkExtraction {
  x_facts : list ExtractedFact;
  x_decisions : list ExtractedDecision;
  x_tasks : list ExtractedTask;
  x_events : list ExtractedEvent
}.
Variable extractStructuredItems : list (string * string) -> ExtractionResult.

(** Stage 1: [SELECT id, similarity(col, $1) AS similarity FROM table WHERE
    agent_id = $2 AND decay_status = 'active' AND similarity(col, $1) > $3
    ORDER BY similarity DESC LIMIT 1] *)
Definition trigram_candidates (table : Table) (agentId : Id) (content : string)
    (db : DB) : list (Id * Q) :=
  map (fun r => (row_id r, similarity (text_col (CONTENT_COLUMN table) r) content))
      (List.filter
         (fun r => String.eqb (row_agent_id r) agentId
                   && is_active r
                   && Qgtb (similarity (text_col (CONTENT_COLUMN table) r) content)
                           TRIGRAM_THRESHOLD)
         (db_rows db table)).

(** Stage 2: [SELECT id, 1 - (embedding <=> $1) AS similarity FROM table WHERE
    agent_id = $2 AND embedding IS NOT NULL AND decay_status = 'active' AND
    1 - (embedding <=> $1) > $3 ORDER BY similarity DESC LIMIT 1] *)
Definition semantic_candidates (table : Table) (agentId : Id) (embedding : Vec)
    (db : DB) : list (Id * Q) :=
  omap (fun r =>
          match row_embedding r with
          | Some e =>
              let s := (1 - cosine_distance e embedding)%Q in
              if String.eqb (row_agent_id r) agentId && is_active r
                 && Qgtb s SEMANTIC_THRESHOLD
              then Some (row_id r, s) else None
          | None => None
          end)
       (db_rows db table).

Definition top1 (rows : list (Id * Q)) : option (Id * Q) :=
  head (sort_by (desc snd) rows).

Definition checkDuplicate (table : Table) (agentId : Id) (content : string)
    (db : DB) : option DuplicateMatch :=
  match top1 (trigram_candidates table agentId content db) with
  | Some (id, s) => Some (mkMatch id s syntactic)
  | None =>
      match provider with
      | None => None
      | Some p =>
          match p content with
          | None => None   (* embedding failed; skip semantic check *)
          | Some embedding =>
              match top1 (semantic_candidates table agentId embedding db) with
              | Some (id, s) => Some (mkMatch id s semantic_match)
              | None => None
              end
          end
      end
  end.

(** *** [routes/memory.ts]: direct writes *)

(** [embedText]: embed if a provider is available; a failure yields null. *)
Definition embedText (text : string) : option Vec :=
  match provider with
  | None => None
  | Some p => p text
  end.

(** [title + (description ? `: ${description}` : '')] *)
Definition with_description (title : string) (description : option string) : string :=
  title ++ (if truthy_str description then ": " ++ or_str description "" else "").

Record FactRequest := mkFactRequest {
  fq_agent_id : option string;
  fq_content : option string;
  fq_confidence : option Q
}.

Definition post_fact (now : Z) (req : FactRequest) : Eff Response :=
  if negb (truthy_str (fq_agent_id req)) || negb (truthy_str (fq_content req))
  then ret (reply 400 (body_error "agent_id and content are required"))
  else
    let agent := or_str (fq_agent_id req) "" in
    let content := or_str (fq_content req) "" in
    dup <- gets (checkDuplicate facts agent content) ;;
    match dup with
    | Some d =>
        ret (reply 409 (body_duplicate "Duplicate fact detected"
                                       (dm_id d) (dm_similarity d)))
    | None =>
        let embedding := embedText content in
        let p := mkPayload content "" "" None None None
                           (match fq_confidence req with Some c => c | None => 8 # 10 end)
                           50 "not_started" "" "info" "" in
        row <- insert_row facts now agent p embedding None ;;
        ret (reply 201 (body_row row))
    end.

Record DecisionRequest := mkDecisionRequest {
  dq_agent_id : option string;
  dq_title : option string;
  dq_decision : option string;
  dq_session_id : option string
}.

Definition post_decision (now : Z) (req : DecisionRequest) : Eff Response :=
  if negb (truthy_str (dq_agent_id req)) || negb (truthy_str (dq_title req))
     || negb (truthy_str (dq_decision req))
  then ret (reply 400 (body_error "agent_id, title, and decision are required"))
  else
    let agent := or_str (dq_agent_id req) "" in
    let title := or_str (dq_title req) "" in
    let decision := or_str (dq_decision req) "" in
    dup <- gets (checkDuplicate decisions agent (title ++ ": " ++ decision)) ;;
    match dup with
    | Some d =>
        ret (reply 409 (body_duplicate "Duplicate decision detected"
                                       (dm_id d) (dm_similarity d)))
    | None =>
        let embeddingText := title ++ ": " ++ decision in
        let embedding := embedText embeddingText in
        let p := mkPayload "" title decision None (or_null (dq_session_id req)) None
                           1 50 "not_started" "" "info" "" in
        row <- insert_row decisions now agent p embedding None ;;
        ret (reply 201 (body_row row))
    end.

Record TaskRequest := mkTaskRequest {
  tq_agent_id : option string;
  tq_title : option string;
  tq_description : option string;
  tq_status : option string;
  tq_priority : option Z;
  tq_project_id : option string
}.

Definition post_task (now : Z) (req : TaskRequest) : Eff Response :=
  if negb (truthy_str (tq_agent_id req)) || negb (truthy_str (tq_title req))
  then ret (reply 400 (body_error "agent_id and title are required"))
  else
    let agent := or_str (tq_agent_id req) "" in
    let title := or_str (tq_title req) "" in
    dup <- gets (checkDuplicate tasks agent title) ;;
    match dup with
    | Some d =>
        ret (reply 409 (body_duplicate "Duplicate task detected"
                                       (dm_id d) (dm_similarity d)))
    | None =>
        let embeddingText := with_description title (tq_description req) in
        let embedding := embedText embeddingText in
        let p := mkPayload "" title "" (or_null (tq_description req)) None
                           (or_null (tq_project_id req)) 1
                           (match tq_priority req with Some n => n | None => 50%Z end)
                           (or_str (tq_status req) "not_started") "" "info" "" in
        row <- insert_row tasks now agent p embedding None ;;
        ret (reply 201 (body_row row))
    end.

Record EventRequest := mkEventRequest {
  eq_agent_id : option string;
  eq_title : option string;
  eq_event_type : option string;
  eq_description : option string;
  eq_severity : option string;
  eq_occurred_at : option Z
}.

Definition post_event (now : Z) (req : EventRequest) : Eff Response :=
  if negb (truthy_str (eq_agent_id req)) || negb (truthy_str (eq_title req))
     || negb (truthy_str (eq_event_type req))
  then ret (reply 400 (body_error "agent_id, title, and event_type are required"))
  else
    let agent := or_str (eq_agent_id req) "" in
    let title := or_str (eq_title req) "" in
    let embeddingText := with_description title (eq_description req) in
    let embedding := embedText embeddingText in
    let p := mkPayload "" title "" (or_null (eq_description req)) None None 1 50
                       "not_started" (or_str (eq_event_type req) "")
                       (or_str (eq_severity req) "info") "" in
    row <- insert_row events now agent p embedding (eq_occurred_at req) ;;
    ret (reply 201 (body_row row)).

(** [name.toLowerCase().replace(/[^a-z0-9]+/g, '-').replace(/(^-|-$)/g, '')]
    on ASCII text. *)
Definition to_lower (c : ascii) : ascii :=
  let n := nat_of_ascii c in
  if (65 <=? n)%nat && (n <=? 90)%nat then ascii_of_nat (n + 32) else c.

Definition is_slug_char (c : ascii) : bool :=
  let n := nat_of_ascii c in
  ((97 <=? n)%nat && (n <=? 122)%nat) || ((48 <=? n)%nat && (n <=? 57)%nat).

Fixpoint dash_runs (in_run : bool) (s : string) : string :=
  match s with
  | EmptyString => EmptyString
  | String c s' =>
      if is_slug_char c then String c (dash_runs false s')
      else if in_run then dash_runs true s'
      else String "-"%char (dash_runs true s')
  end.

Definition drop_leading_dash (s : string) : string :=
  match s with
  | String "-"%char s' => s'
  | _ => s
  end.

Fixpoint drop_trailing_dash (s : string) : string :=
  match s with
  | EmptyString => EmptyString
  | String c EmptyString => if Ascii.eqb c "-"%char then EmptyString else s
  | String c s' => String c (drop_trailing_dash s')
  end.

Fixpoint map_string (f : ascii -> ascii) (s : string) : string :=
  match s with
  | EmptyString => EmptyString
  | String c s' => String (f c) (map_string f s')
  end.

Definition slugify (name : string) : string :=
  drop_trailing_dash (drop_leading_dash (dash_runs false (map_string to_lower name))).

Record ProjectRequest := mkProjectRequest {
  pq_agent_id : option string;
  pq_name : option string;
  pq_description : option string;
  pq_status : option string
}.

(** [INSERT INTO projects ... RETURNING *], under CHECK (status), the
    agent foreign key and UNIQUE (agent_id, slug). *)
Definition insert_project (agent : Id) (slug name : string)
    (description : option string) (status : string) (emb : option Vec) : Eff Project :=
  fun db =>
    if negb (in_strs status PROJECT_STATUSES)
    then (Throw (check_violation "projects_status_check"), db)
    else if existsb (fun p => String.eqb (project_agent_id p) agent
                              && String.eqb (project_slug p) slug) (db_projects db)
    then (Throw (unique_violation "projects_agent_id_slug_key"), db)
    else if negb (agent_exists agent db)
    then (Throw (foreign_key_violation "agent_id"), db)
    else
      let p := mkProject (uuid_of_nat (db_uuids db)) agent slug name description
                         status emb in
      (Ok p, set_uuids (S (db_uuids db)) (set_projects (db_projects db ++ [p]) db)).

Definition post_project (req : ProjectRequest) : Eff Response :=
  if negb (truthy_str (pq_agent_id req)) || negb (truthy_str (pq_name req))
  then ret (reply 400 (body_error "agent_id and name are required"))
  else
    let agent := or_str (pq_agent_id req) "" in
    let name := or_str (pq_name req) "" in
    let slug := slugify name in
    let embeddingText := with_description name (pq_description req) in
    let embedding := embedText embeddingText in
    p <- insert_project agent slug name (or_null (pq_description req))
                        (or_str (pq_status req) "active") embedding ;;
    ret (reply 201 (body_project p)).

(** *** [routes/sessions.ts]: ingestion *)

(** [extractFromMessage]: the last four context messages, then the
    current one. *)
Definition extractFromMessage (currentMessage : string * string)
    (recentContext : list (string * string)) : ExtractionResult :=
  extractStructuredItems
    (drop (length recentContext - 4) recentContext ++ [currentMessage]).

Record StoredItems := mkStored {
  factIds : list Id;
  decisionIds : list Id;
  taskIds : list Id;
  eventIds : list Id
}.

Definition embed_with (embeddingProvider : option (string -> option Vec))
    (text : string) : option Vec :=
  match embeddingProvider with
  | None => None
  | Some p => p text
  end.

Definition store_fact (now : Z) (agentId sessionId : Id)
    (embeddingProvider : option (string -> option Vec))
    (result : StoredItems) (fact : ExtractedFact) : Eff StoredItems :=
  let embedding := embed_with embeddingProvider (ef_content fact) in
  row <- insert_row facts now agentId
           (mkPayload (ef_content fact) "" "" None None None (ef_confidence fact)
                      50 "not_started" "" "info" "")
           embedding None ;;
  insert_edge_do_nothing now agentId
    ("fact", row_id row, "session", sessionId, "derived_from") ;;;
  ret (mkStored (factIds result ++ [row_id row]) (decisionIds result)
                (taskIds result) (eventIds result)).

Definition store_decision (now : Z) (agentId sessionId : Id)
    (embeddingProvider : option (string -> option Vec))
    (result : StoredItems) (dec : ExtractedDecision) : Eff StoredItems :=
  let embedding :=
    embed_with embeddingProvider (ed_title dec ++ ": " ++ ed_decision dec) in
  row <- insert_row decisions now agentId
           (mkPayload "" (ed_title dec) (ed_decision dec) None (Some sessionId) None
                      1 50 "not_started" "" "info" "")
           embedding None ;;
  insert_edge_do_nothing now agentId
    ("decision", row_id row, "session", sessionId, "decided_in") ;;;
  ret (mkStored (factIds result) (decisionIds result ++ [row_id row])
                (taskIds result) (eventIds result)).

Definition store_task (now : Z) (agentId sessionId : Id)
    (embeddingProvider : option (string -> option Vec))
    (result : StoredItems) (task : ExtractedTask) : Eff StoredItems :=
  let embedding :=
    embed_with embeddingProvider
               (with_description (et_title task) (et_description task)) in
  row <- insert_row tasks now agentId
           (mkPayload "" (et_title task) "" (et_description task) None None
                      1 (et_priority task) "not_started" "" "info" "")
           embedding None ;;
  insert_edge_do_nothing now agentId
    ("task", row_id row, "session", sessionId, "derived_from") ;;;
  ret (mkStored (factIds result) (decisionIds result)
                (taskIds result ++ [row_id row]) (eventIds result)).

Definition store_event (now : Z) (agentId sessionId : Id)
    (embeddingProvider : option (string -> option Vec))
    (result : StoredItems) (evt : ExtractedEvent) : Eff StoredItems :=
  let embedding :=
    embed_with embeddingProvider
               (with_description (ee_title evt) (ee_description evt)) in
  row <- insert_row events now agentId
           (mkPayload "" (ee_title evt) "" (ee_description evt) None None
                      1 50 "not_started" (ee_event_type evt) (ee_severity evt) "")
           embedding None ;;
  insert_edge_do_nothing now agentId
    ("event", row_id row, "session", sessionId, "derived_from") ;;;
  ret (mkStored (factIds result) (decisionIds result)
                (taskIds result) (eventIds result ++ [row_id row])).

Definition storeExtractedItems (now : Z) (agentId sessionId : Id)
    (extracted : ExtractionResult)
    (embeddingProvider : option (string -> option Vec)) : Eff StoredItems :=
  r1 <- for_each (x_facts extracted) (mkStored [] [] [] [])
                 (store_fact now agentId sessionId embeddingProvider) ;;
  r2 <- for_each (x_decisions extracted) r1
                 (store_decision now agentId sessionId embeddingProvider) ;;
  r3 <- for_each (x_tasks extracted) r2
                 (store_task now agentId sessionId embeddingProvider) ;;
  for_each (x_events extracted) r3
           (store_event now agentId sessionId embeddingProvider).

(** [SELECT role, content FROM session_messages WHERE session_id = $1 AND
    id != $2 ORDER BY created_at DESC LIMIT 4] *)
Definition recent_messages (sessionId messageId : Id) (db : DB)
    : list (string * string) :=
  map (fun r => (p_role (row_payload r), p_content (row_payload r)))
      (take 4
         (sort_by (desc (fun r => inject_Z (row_created_at r)))
            (List.filter
               (fun r => match p_session_id (row_payload r) with
                         | Some s => String.eqb s sessionId
                         | None => false
                         end && negb (String.eqb (row_id r) messageId))
               (db_rows db session_messages)))).

Record MessageRequest := mkMessageRequest {
  mq_role : option string;
  mq_content : option string
}.

(** [POST /api/v1/sessions/:id/messages] *)
Definition addMessage (now : Z) (sessionId : Id) (req : MessageRequest)
    : Eff Response :=
  if negb (truthy_str (mq_role req)) || negb (truthy_str (mq_content req))
  then ret (reply 400 (body_error "role and content are required"))
  else
    let role := or_str (mq_role req) "" in
    let content := or_str (mq_content req) "" in
    sessions <- gets (fun db =>
                  List.filter (fun s => String.eqb (session_id s) sessionId)
                              (db_sessions db)) ;;
    match sessions with
    | [] => ret (reply 404 (body_error "Session not found"))
    | s :: _ =>
        let agentId := session_agent_id s in
        let embedding := embed_with provider content in
        message <- insert_row session_messages now agentId
                     (mkPayload content "" "" None (Some sessionId) None 1 50
                                "not_started" "" "info" role)
                     embedding None ;;
        recentMsgs <- gets (recent_messages sessionId (row_id message)) ;;
        let extracted := extractFromMessage (role, content) (rev recentMsgs) in
        storedItems <- storeExtractedItems now agentId sessionId extracted provider ;;
        ret (reply 201 (body_ingest message
                          (length (factIds storedItems))
                          (length (decisionIds storedItems))
                          (length (taskIds storedItems))
                          (length (eventIds storedItems))))
    end.

(** *** [routes/edges.ts] *)

Record EdgeRequest := mkEdgeRequest {
  gq_agent_id : option string;
  gq_source_type : option string;
  gq_source_id : option string;
  gq_target_type : option string;
  gq_target_id : option string;
  gq_relation : option string;
  gq_weight : option Q;
  gq_metadata : option json
}.

(** [metadata || {}] *)
Definition or_empty_object (o : option json) : json :=
  match o with
  | Some j => if truthy j then j else JObj ∅
  | None => JObj ∅
  end.

Definition request_key (req : EdgeRequest) : string * Id * string * Id * string :=
  (or_str (gq_source_type req) "", or_str (gq_source_id req) "",
   or_str (gq_target_type req) "", or_str (gq_target_id req) "",
   or_str (gq_relation req) "").

(** [POST /api/v1/edges]: a store error is caught and answered with 400. *)
Definition post_edge (now : Z) (req : EdgeRequest) : Eff Response :=
  if negb (truthy_str (gq_agent_id req)) || negb (truthy_str (gq_source_type req))
     || negb (truthy_str (gq_source_id req)) || negb (truthy_str (gq_target_type req))
     || negb (truthy_str (gq_target_id req)) || negb (truthy_str (gq_relation req))
  then ret (reply 400 (body_error
         "agent_id, source_type, source_id, target_type, target_id, and relation are required"))
  else
    try_catch
      (e <- upsert_edge now (or_str (gq_agent_id req) "") (request_key req)
                        (match gq_weight req with Some w => w | None => 1 end)
                        (or_empty_object (gq_metadata req)) ;;
       ret (reply 201 (body_edge e)))
      (fun err => ret (reply 400 (body_error "store error"))).

(** *** [routes/recall.ts]: hybrid recall *)

Record RecallTable := mkRecallTable {
  rt_table : Table;
  rt_type : string;
  rt_contentCol : TextCol;
  rt_timeCol : TimeCol
}.

Definition RECALL_TABLES : list RecallTable :=
  [ mkRecallTable session_messages "session_message" col_content col_created_at;
    mkRecallTable facts "fact" col_content col_created_at;
    mkRecallTable decisions "decision" col_title col_created_at;
    mkRecallTable tasks "task" col_title col_created_at;
    mkRecallTable events "event" col_title col_occurred_at ].

Record RecallRequest := mkRecallRequest {
  rq_query : option string;
  rq_agent_id : option string;
  rq_types : option (list string);
  rq_limit : option Z;
  rq_include_related : option bool;
  rq_recency_weight : option Q;
  rq_semantic_weight : option Q;
  rq_keyword_weight : option Q
}.

(** [x = dflt] in a destructuring pattern. *)
Definition with_default {A} (o : option A) (dflt : A) : A :=
  match o with Some a => a | None => dflt end.

(** [RECALL_TABLES.filter(t => !types || types.length === 0 ||
    types.includes(t.type))] *)
Definition tablesToSearch (types : option (list string)) : list RecallTable :=
  List.filter
    (fun t => match types with
              | None => true
              | Some ts => (length ts =? 0)%nat || in_strs (rt_type t) ts
              end)
    RECALL_TABLES.

(** A row as the two arms select it: id, content, signal, created_at. *)
Record ArmRow := mkArmRow {
  ar_id : Id;
  ar_content : string;
  ar_signal : Q;
  ar_created_at : Z
}.

(** [SELECT id, contentCol AS content, 1 - (embedding <=> $1) AS similarity,
    timeCol AS created_at FROM table WHERE agent_id = $2 AND embedding IS NOT
    NULL AND decay_status = 'active' ORDER BY embedding <=> $1 LIMIT $3] *)
Definition semantic_rows (t : RecallTable) (queryEmbedding : Vec) (agent : Id)
    (limit : Z) : Eff (list ArmRow) :=
  rows <- gets (fun db =>
            omap (fun r =>
                    match row_embedding r with
                    | Some e =>
                        if String.eqb (row_agent_id r) agent && is_active r
                        then Some (cosine_distance e queryEmbedding,
                                   mkArmRow (row_id r) (text_col (rt_contentCol t) r)
                                            (1 - cosine_distance e queryEmbedding)%Q
                                            (time_col (rt_timeCol t) r))
                        else None
                    | None => None
                    end)
                 (db_rows db (rt_table t))) ;;
  top <- sql_limit limit (sort_by (asc fst) rows) ;;
  ret (map snd top).

(** [SELECT id, contentCol AS content, similarity(contentCol, $1) AS sim,
    timeCol AS created_at FROM table WHERE agent_id = $2 AND decay_status =
    'active' AND similarity(contentCol, $1) > 0.1 ORDER BY sim DESC LIMIT $3] *)
Definition keyword_rows (t : RecallTable) (queryText : string) (agent : Id)
    (limit : Z) : Eff (list ArmRow) :=
  rows <- gets (fun db =>
            map (fun r => mkArmRow (row_id r) (text_col (rt_contentCol t) r)
                                   (similarity (text_col (rt_contentCol t) r) queryText)
                                   (time_col (rt_timeCol t) r))
                (List.filter
                   (fun r => String.eqb (row_agent_id r) agent && is_active r
                             && Qgtb (similarity (text_col (rt_contentCol t) r) queryText)
                                     (1 # 10))
                   (db_rows db (rt_table t)))) ;;
  sql_limit limit (sort_by (desc ar_signal) rows).

Definition set_signals (s : Signals) (r : RecallResult) : RecallResult :=
  mkResult (res_id r) (res_type r) (res_content r) (res_score r) s
           (res_metadata r) (res_created_at r) (res_related r).

Definition set_score (q : Q) (r : RecallResult) : RecallResult :=
  mkResult (res_id r) (res_type r) (res_content r) q (res_signals r)
           (res_metadata r) (res_created_at r) (res_related r).

Definition set_related (l : list RecallResult) (r : RecallResult) : RecallResult :=
  mkResult (res_id r) (res_type r) (res_content r) (res_score r) (res_signals r)
           (res_metadata r) (res_created_at r) (Some l).

Definition set_semantic (q : Q) (s : Signals) : Signals :=
  mkSignals (Some q) (keyword s) (recency s) (graph_boost s).
Definition set_keyword (q : Q) (s : Signals) : Signals :=
  mkSignals (semantic s) (Some q) (recency s) (graph_boost s).
Definition set_recency (q : Q) (s : Signals) : Signals :=
  mkSignals (semantic s) (keyword s) (Some q) (graph_boost s).

(** [const existing = allResults.find(r => r.id === id); if (existing) f(existing)]:
    the first entry with that id is updated in place. *)
Fixpoint update_existing (id : Id) (f : RecallResult -> RecallResult)
    (allResults : list RecallResult) : option (list RecallResult) :=
  match allResults with
  | [] => None
  | r :: rest =>
      if String.eqb (res_id r) id then Some (f r :: rest)
      else match update_existing id f rest with
           | Some rest' => Some (r :: rest')
           | None => None
           end
  end.

Definition merge_row (type : string) (set : Q -> Signals -> Signals)
    (allResults : list RecallResult) (row : ArmRow) : list RecallResult :=
  match update_existing (ar_id row)
          (fun existing => set_signals (set (ar_signal row) (res_signals existing))
                                       existing)
          allResults with
  | Some updated => updated
  | None =>
      allResults ++
      [mkResult (ar_id row) type (ar_content row) 0
                (set (ar_signal row) (mkSignals None None None None))
                [] (ar_created_at row) None]
  end.

(** The body of the loop over the selected tables. *)
Definition search_table (queryEmbedding : option Vec) (queryText : string)
    (agent : Id) (limit : Z) (allResults : list RecallResult) (t : RecallTable)
    : Eff (list RecallResult) :=
  afterSemantic <-
    match queryEmbedding with
    | Some q =>
        semanticRows <- semantic_rows t q agent limit ;;
        ret (fold_left (merge_row (rt_type t) set_semantic) semanticRows allResults)
    | None => ret allResults
    end ;;
  try_catch
    (keywordRows <- keyword_rows t queryText agent limit ;;
     ret (fold_left (merge_row (rt_type t) set_keyword) keywordRows afterSemantic))
    (fun _ => ret afterSemantic).

Definition maxAge : Z := 90 * 24 * 60 * 60 * 1000.

(** [Math.max(0, 1 - age / maxAge)] with [age = now - created_at]. *)
Definition recency_signal (now created_at : Z) : Q :=
  Qmax 0 (1 - inject_Z (now - created_at) / inject_Z maxAge).

(** [x || 0] on an optional number. *)
Definition or0 (o : option Q) : Q :=
  match o with
  | Some q => if Qeq_bool q 0 then 0 else q
  | None => 0
  end.

Definition rerank_score (s : Signals) (semantic_weight keyword_weight recency_weight : Q)
    : Q :=
  or0 (semantic s) * semantic_weight +
  or0 (keyword s) * keyword_weight +
  or0 (recency s) * recency_weight +
  or0 (graph_boost s) * (1 # 10).

(** [getRelatedItems]: one hop along the edges of an item. *)
Definition incident_edges (itemId : Id) (itemType : string) (agentId : Id) (db : DB)
    : list (string * string * Id * string * Q) :=
  (map (fun e => ("outgoing", edge_target_type e, edge_target_id e,
                  edge_relation e, edge_weight e))
       (List.filter (fun e => String.eqb (edge_source_type e) itemType
                              && String.eqb (edge_source_id e) itemId
                              && String.eqb (edge_agent_id e) agentId)
                    (db_memory_edges db))
   ++
   map (fun e => ("incoming", edge_source_type e, edge_source_id e,
                  edge_relation e, edge_weight e))
       (List.filter (fun e => String.eqb (edge_target_type e) itemType
                              && String.eqb (edge_target_id e) itemId
                              && String.eqb (edge_agent_id e) agentId)
                    (db_memory_edges db)))%list.

Definition getRelatedItems (itemId : Id) (itemType : string) (agentId : Id) (db : DB)
    : list RecallResult :=
  omap (fun edge =>
          match edge with
          | (direction, related_type, related_id, relation, weight) =>
              match List.find (fun t => String.eqb (rt_type t) related_type)
                              RECALL_TABLES with
              | None => None
              | Some tableConfig =>
                  match List.filter (fun r => String.eqb (row_id r) related_id)
                                    (db_rows db (rt_table tableConfig)) with
                  | [] => None
                  | row :: _ =>
                      Some (mkResult (row_id row) related_type
                              (text_col (rt_contentCol tableConfig) row)
                              weight
                              (mkSignals None None None (Some weight))
                              [("relation", relation); ("direction", direction)]
                              (time_col (rt_timeCol tableConfig) row)
                              None)
                  end
              end
          end)
       (incident_edges itemId itemType agentId db).

(** The [updated_at] trigger exists on facts and tasks (migration 004). *)
Definition has_updated_at_trigger (t : Table) : bool :=
  match t with facts | tasks => true | _ => false end.

Definition touch (t : Table) (now : Z) (r : Row) : Row :=
  if has_updated_at_trigger t then set_updated_at now r else r.

(** [UPDATE table SET access_count = access_count + 1, last_accessed_at =
    NOW() WHERE id = $1] *)
Definition bump_row (t : Table) (now : Z) (id : Id) (db : DB) : DB :=
  set_rows t
    (map (fun r => if String.eqb (row_id r) id
                   then touch t now (bump_access now r) else r)
         (db_rows db t))
    db.

Definition bump_result (now : Z) (db : DB) (result : RecallResult) : DB :=
  match List.find (fun t => String.eqb (rt_type t) (res_type result)) RECALL_TABLES with
  | Some tableConfig => bump_row (rt_table tableConfig) now (res_id result) db
  | None => db
  end.

(** [POST /api/v1/recall] *)
Definition recall (now : Z) (req : RecallRequest) : Eff Response :=
  let limit := with_default (rq_limit req) 20%Z in
  let include_related := with_default (rq_include_related req) true in
  let recency_weight := with_default (rq_recency_weight req) (1 # 10) in
  let semantic_weight := with_default (rq_semantic_weight req) (7 # 10) in
  let keyword_weight := with_default (rq_keyword_weight req) (2 # 10) in
  if negb (truthy_str (rq_query req)) || negb (truthy_str (rq_agent_id req))
  then ret (reply 400 (body_error "query and agent_id are required"))
  else
    let queryText := or_str (rq_query req) "" in
    let agent := or_str (rq_agent_id req) "" in
    (* Step 1: embed the query *)
    let queryEmbedding := embed_with provider queryText in
    (* Step 2: hybrid retrieval across the selected tables *)
    allResults <- for_each (tablesToSearch (rq_types req)) []
                    (search_table queryEmbedding queryText agent limit) ;;
    (* Step 3: recency signal *)
    let withRecency :=
      map (fun result =>
             set_signals (set_recency (recency_signal now (res_created_at result))
                                      (res_signals result)) result)
          allResults in
    (* Step 4: rerank *)
    let scored :=
      map (fun result =>
             set_score (rerank_score (res_signals result)
                                     semantic_weight keyword_weight recency_weight)
                       result)
          withRecency in
    let sorted := sort_by (desc res_score) scored in
    let topResults := slice0 limit sorted in
    (* Step 5: one-hop graph traversal for the first five *)
    withRelated <- gets (fun db =>
      if include_related && (0 <? length topResults)%nat
      then (map (fun result =>
                   set_related (getRelatedItems (res_id result) (res_type result)
                                                agent db) result)
                (take 5 topResults)
            ++ drop 5 topResults)%list
      else topResults) ;;
    (* Step 6: bump access counts *)
    modify_db (fun db => fold_left (bump_result now) withRelated db) ;;;
    ret (reply 200 (body_recall
           (mkRecallResponse withRelated (length withRelated) queryText
              (mkWeights semantic_weight keyword_weight recency_weight)))).

(** *** [services/decay.ts]: the decay sweep *)

Definition MEMORY_TABLES : list Table :=
  [facts; decisions; tasks; events; session_messages].

Definition TABLE_TO_TYPE (t : Table) : string :=
  match t with
  | facts => "fact"
  | decisions => "decision"
  | tasks => "task"
  | events => "event"
  | session_messages => "session_message"
  end.

Record Timestamps := mkTimestamps { ts_created : TimeCol; ts_updated : TimeCol }.

Definition TABLE_TIMESTAMPS (t : Table) : Timestamps :=
  match t with
  | facts => mkTimestamps col_created_at col_updated_at
  | decisions => mkTimestamps col_created_at col_created_at   (* no updated_at *)
  | tasks => mkTimestamps col_created_at col_updated_at
  | events => mkTimestamps col_occurred_at col_occurred_at    (* uses occurred_at *)
  | session_messages => mkTimestamps col_created_at col_created_at
  end.

Record DecayStats := mkStats {
  transitioned_to_cooling : nat;
  transitioned_to_archived : nat;
  immune_items : nat
}.

Definition day_ms : Z := 24 * 60 * 60 * 1000.

Definition opt_id_eqb (a b : option Id) : bool :=
  match a, b with
  | Some x, Some y => String.eqb x y
  | _, _ => false   (* a comparison with NULL is never true *)
  end.

Definition is_null_id (a : option Id) : bool :=
  match a with None => true | Some _ => false end.

(** [SELECT ttl_days, min_accesses, access_boost FROM decay_policies WHERE
    memory_type = $1 AND (agent_id = $2 OR agent_id IS NULL) ORDER BY agent_id
    NULLS LAST LIMIT 1] *)
Definition applicable_policy (memType : string) (agentId : option Id) (db : DB)
    : option DecayPolicy :=
  let matching :=
    List.filter (fun p => String.eqb (policy_memory_type p) memType
                          && (opt_id_eqb (policy_agent_id p) agentId
                              || is_null_id (policy_agent_id p)))
                (db_decay_policies db) in
  head (List.filter (fun p => negb (is_null_id (policy_agent_id p))) matching
        ++ List.filter (fun p => is_null_id (policy_agent_id p)) matching)%list.

(** The optional [AND agent_id = $n] of the three statements. *)
Definition in_scope (agentId : option Id) (r : Row) : bool :=
  if truthy_str agentId then String.eqb (row_agent_id r) (or_str agentId "") else true.

(** The WHERE clause of the first UPDATE. *)
Definition stale (now : Z) (created : TimeCol) (agentId : option Id)
    (min_accesses ttl_days : Z) (r : Row) : bool :=
  is_active r
  && in_scope agentId r
  && (row_access_count r <? min_accesses)%Z
  && (match row_last_accessed_at r with
      | None => (time_col created r <? now - day_ms * ttl_days)%Z
      | Some t => (t <? now - day_ms * ttl_days)%Z
      end).

(** The WHERE clause of the second UPDATE. *)
Definition cooled_long (now : Z) (updated : TimeCol) (agentId : option Id) (r : Row)
    : bool :=
  DecayStatus_eqb (row_decay_status r) cooling
  && in_scope agentId r
  && (time_col updated r <? now - 30 * day_ms)%Z.

(** [UPDATE table SET decay_status = s WHERE cond]; returns the row count. *)
Definition update_status (t : Table) (now : Z) (cond : Row -> bool) (s : DecayStatus)
    (db : DB) : nat * DB :=
  (length (List.filter cond (db_rows db t)),
   set_rows t
     (map (fun r => if cond r then touch t now (set_decay_status s r) else r)
          (db_rows db t))
     db).

(** The body of the loop of [runDecaySweep] for one table. *)
Definition sweep_table (now : Z) (agentId : option Id) (st : DecayStats * DB)
    (table : Table) : DecayStats * DB :=
  let (stats, db) := st in
  let memType := TABLE_TO_TYPE table in
  match applicable_policy memType agentId db with
  | None => st
  | Some policy =>
      match policy_ttl_days policy with
      | None => st
      | Some ttl_days =>
          let ts := TABLE_TIMESTAMPS table in
          let (toCooling, db1) :=
            update_status table now
              (stale now (ts_created ts) agentId (policy_min_accesses policy) ttl_days)
              cooling db in
          let (toArchived, db2) :=
            update_status table now (cooled_long now (ts_updated ts) agentId)
              archived db1 in
          let immune :=
            length (List.filter
                      (fun r => is_active r && in_scope agentId r
                                && (policy_min_accesses policy <=? row_access_count r)%Z)
                      (db_rows db2 table)) in
          (mkStats (transitioned_to_cooling stats + toCooling)
                   (transitioned_to_archived stats + toArchived)
                   (immune_items stats + immune),
           db2)
      end
  end.

Definition runDecaySweep (now : Z) (agentId : option Id) (db : DB) : DecayStats * DB :=
  fold_left (sweep_table now agentId) MEMORY_TABLES (mkStats 0 0 0, db).

(** *** [routes/agents.ts]: core memory *)

Definition is_hex (c : ascii) : bool :=
  let n := nat_of_ascii c in
  ((48 <=? n)%nat && (n <=? 57)%nat) || ((97 <=? n)%nat && (n <=? 102)%nat)
  || ((65 <=? n)%nat && (n <=? 70)%nat).

Fixpoint all_hex (n : nat) (s : string) : option string :=
  match n with
  | O => Some s
  | S n' => match s with
            | String c s' => if is_hex c then all_hex n' s' else None
            | EmptyString => None
            end
  end.

(** [/^[0-9a-f]{8}-/i.test(id)] *)
Definition isUuid (id : string) : bool :=
  match all_hex 8 id with
  | Some (String "-"%char _) => true
  | _ => false
  end.

Definition set_core_memory (now : Z) (j : json) (a : Agent) : Agent :=
  mkAgent (agent_id a) (agent_slug a) (agent_display_name a) j now.

(** [PATCH /api/v1/agents/:id/core-memory] with the statement
    [UPDATE agents SET core_memory = jsonb_strip_nulls(core_memory || $1::jsonb)
    WHERE whereField = $2 RETURNING *]. *)
Definition patch_core_memory (now : Z) (id : string) (body : option json)
    : Eff Response :=
  match body with
  | Some patch =>
      if negb (Json.truthy patch) || negb (typeof_object patch)
      then ret (reply 400 (body_error "Request body must be a JSON object"))
      else
        let matches (a : Agent) :=
          if isUuid id then String.eqb (agent_id a) id
          else String.eqb (agent_slug a) id in
        let update (a : Agent) :=
          set_core_memory now
            (jsonb_strip_nulls (jsonb_concat (agent_core_memory a) patch)) a in
        rows <- gets (fun db => map update (List.filter matches (db_agents db))) ;;
        modify_db (fun db =>
          set_agents (map (fun a => if matches a then update a else a) (db_agents db))
                     db) ;;;
        match rows with
        | [] => ret (reply 404 (body_error "Agent not found"))
        | row :: _ => ret (reply 200 (body_core_memory (agent_core_memory row)))
        end
  | None => ret (reply 400 (body_error "Request body must be a JSON object"))
  end.

(** *** Replies of the remaining handlers *)

(** A reply with a payload, with an error message, or with no body. *)
Inductive Answer (A : Type) :=
| send (code : nat) (payload : A)
| send_error (code : nat) (error : string)
| send_empty (code : nat).
#[global] Arguments send {A} code payload.
#[global] Arguments send_error {A} code error.
#[global] Arguments send_empty {A} code.

Definition answer_code {A} (a : Answer A) : nat :=
  match a with
  | send code _ | send_error code _ | send_empty code => code
  end.

(** *** [services/decay.ts]: revival; [services/jobs.ts]: the scheduled sweep *)

Definition TABLE_NAME (t : Table) : string :=
  match t with
  | facts => "facts"
  | decisions => "decisions"
  | tasks => "tasks"
  | events => "events"
  | session_messages => "session_messages"
  end.

(** [MEMORY_TABLES.includes(table)], on the table's name. *)
Definition memory_table (table : string) : option Table :=
  List.find (fun t => String.eqb (TABLE_NAME t) table) MEMORY_TABLES.

(** [WHERE id = $1 AND decay_status IN ('cooling', 'archived')] *)
Definition can_revive (itemId : Id) (r : Row) : bool :=
  String.eqb (row_id r) itemId
  && (DecayStatus_eqb (row_decay_status r) cooling
      || DecayStatus_eqb (row_decay_status r) archived).

(** [SET decay_status = 'active', access_count = access_count + 1,
    last_accessed_at = NOW()] *)
Definition revive_row (t : Table) (now : Z) (r : Row) : Row :=
  touch t now (set_decay_status active (bump_access now r)).

(** [reviveItem]; [inl msg] is the thrown [Error(msg)]. *)
Definition reviveItem (now : Z) (table : string) (itemId : Id) (db : DB)
    : (string + bool) * DB :=
  match memory_table table with
  | None => (inl ("Invalid table: " ++ table), db)
  | Some t =>
      let rowCount := length (List.filter (can_revive itemId) (db_rows db t)) in
      (inr (0 <? rowCount)%nat,
       set_rows t
         (map (fun r => if can_revive itemId r then revive_row t now r else r)
              (db_rows db t))
         db)
  end.

(** The decay job of [startBackgroundJobs]: a sweep without an agent id,
    whose statistics are only logged. *)
Definition decay_job (now : Z) (db : DB) : DB := snd (runDecaySweep now None db).

(** *** [routes/memory.ts]: reading and deleting one item, listing, decay status *)

Definition has_id (id : Id) (r : Row) : bool := String.eqb (row_id r) id.

(** [GET /api/v1/facts/:id] and its siblings for decisions, tasks and events:
    [SELECT * FROM table WHERE id = $1]; when a row is found, [UPDATE table SET
    access_count = access_count + 1, last_accessed_at = NOW() WHERE id = $1],
    and the row as selected is sent. *)
Definition get_item (t : Table) (not_found : string) (now : Z) (id : Id)
    : Eff (Answer Row) :=
  rows <- gets (fun db => List.filter (has_id id) (db_rows db t)) ;;
  match rows with
  | [] => ret (send_error 404 not_found)
  | row :: _ =>
      modify_db (bump_row t now id) ;;;
      ret (send 200 row)
  end.

Definition get_fact := get_item facts "Fact not found".
Definition get_decision := get_item decisions "Decision not found".
Definition get_task := get_item tasks "Task not found".
Definition get_event := get_item events "Event not found".

(** [DELETE FROM table WHERE id = $1 RETURNING id] *)
Definition delete_returning_id (t : Table) (id : Id) : Eff (list Id) :=
  fun db =>
    (Ok (map row_id (List.filter (has_id id) (db_rows db t))),
     set_rows t (List.filter (fun r => negb (has_id id r)) (db_rows db t)) db).

(** [DELETE /api/v1/facts/:id] and its siblings for decisions, tasks and
    events. *)
Definition delete_item (t : Table) (not_found : string) (id : Id)
    : Eff (Answer unit) :=
  rows <- delete_returning_id t id ;;
  match rows with
  | [] => ret (send_error 404 not_found)
  | _ :: _ => ret (send_empty 204)
  end.

Definition delete_fact := delete_item facts "Fact not found".
Definition delete_decision := delete_item decisions "Decision not found".
Definition delete_task := delete_item tasks "Task not found".
Definition delete_event := delete_item events "Event not found".

(** *** Paging of the list routes *)

(** [parseInt(s, 10)] on ASCII text: leading white space is skipped, a sign
    may follow, then the longest run of decimal digits is read; [None] is
    NaN. *)
Definition is_js_space (c : ascii) : bool :=
  let n := nat_of_ascii c in
  ((9 <=? n)%nat && (n <=? 13)%nat) || (n =? 32)%nat.

Fixpoint skip_js_space (s : string) : string :=
  match s with
  | String c s' => if is_js_space c then skip_js_space s' else s
  | EmptyString => EmptyString
  end.

Definition digit_value (c : ascii) : option Z :=
  let n := nat_of_ascii c in
  if (48 <=? n)%nat && (n <=? 57)%nat then Some (Z.of_nat (n - 48)) else None.

Fixpoint read_digits (s : string) (acc : option Z) : option Z :=
  match s with
  | String c s' =>
      match digit_value c with
      | Some d => read_digits s' (Some (match acc with
                                        | Some a => 10 * a + d
                                        | None => d
                                        end)%Z)
      | None => acc
      end
  | EmptyString => acc
  end.

Definition parseInt (s : string) : option Z :=
  match skip_js_space s with
  | String "-"%char s' => option_map Z.opp (read_digits s' None)
  | String "+"%char s' => read_digits s' None
  | s' => read_digits s' None
  end.

(** [Math.min(parseInt(limit || dflt, 10), cap)]: NaN stays NaN. *)
Definition page_limit (limit : option string) (dflt : string) (cap : Z) : option Z :=
  option_map (fun n => Z.min n cap) (parseInt (or_str limit dflt)).

(** [parseInt(offset || '0', 10)] *)
Definition page_offset (offset : option string) : option Z :=
  parseInt (or_str offset "0").

Definition max_bigint : Z := 9223372036854775807.

(** [LIMIT $n OFFSET $m] with the two parameters as the handlers pass them:
    the store rejects NaN, a negative count and an offset outside [bigint].
    (JavaScript's rounding of an integer beyond 2^53 is not modelled.) *)
Definition sql_page {A} (lim off : option Z) (rows : list A) : Eff (list A) :=
  match lim, off with
  | Some l, Some o =>
      if (l <? 0)%Z then throw (invalid_row_count "LIMIT must not be negative")
      else if (o <? 0)%Z then throw (invalid_row_count "OFFSET must not be negative")
      else if (max_bigint <? o)%Z
      then throw (invalid_row_count "value out of range for type bigint")
      else ret (take (Z.to_nat l) (drop (Z.to_nat o) rows))
  | _, _ => throw (invalid_row_count "invalid input syntax for type bigint: NaN")
  end.

Record ListQuery := mkListQuery {
  lq_agent_id : option string;
  lq_status : option string;
  lq_project_id : option string;
  lq_limit : option string;
  lq_offset : option string
}.

Record Listing := mkListing { listed : list Row; listed_total : nat }.

(** The optional [AND col = $n] of a list query. *)
Definition filter_opt (param : option string) (value : Row -> string) (r : Row) : bool :=
  if truthy_str param then String.eqb (value r) (or_str param "") else true.

(** [GET /api/v1/decisions]: [SELECT * FROM decisions WHERE decay_status =
    'active' [AND agent_id = $1] ORDER BY created_at DESC LIMIT $n OFFSET $m] *)
Definition list_decisions (q : ListQuery) : Eff (Answer Listing) :=
  let lim := page_limit (lq_limit q) "50" 100 in
  let off := page_offset (lq_offset q) in
  selected <- gets (fun db =>
    sort_by (desc (fun r => inject_Z (row_created_at r)))
      (List.filter (fun r => is_active r && filter_opt (lq_agent_id q) row_agent_id r)
                   (db_rows db decisions))) ;;
  rows <- sql_page lim off selected ;;
  ret (send 200 (mkListing rows (length rows))).

(** [ORDER BY priority DESC, created_at DESC] *)
Definition by_priority_then_newest (a b : Row) : bool :=
  let pa := p_priority (row_payload a) in
  let pb := p_priority (row_payload b) in
  (pb <? pa)%Z || ((pb =? pa)%Z && (row_created_at b <=? row_created_at a)%Z).

(** [GET /api/v1/tasks]: [SELECT * FROM tasks WHERE decay_status = 'active'
    [AND agent_id = $i] [AND status = $j] [AND project_id = $k] ORDER BY
    priority DESC, created_at DESC LIMIT $n OFFSET $m] *)
Definition list_tasks (q : ListQuery) : Eff (Answer Listing) :=
  let lim := page_limit (lq_limit q) "50" 100 in
  let off := page_offset (lq_offset q) in
  selected <- gets (fun db =>
    sort_by by_priority_then_newest
      (List.filter
         (fun r => is_active r
                   && filter_opt (lq_agent_id q) row_agent_id r
                   && filter_opt (lq_status q) (fun r => p_status (row_payload r)) r
                   && (if truthy_str (lq_project_id q)
                       then opt_id_eqb (p_project_id (row_payload r))
                                       (Some (or_str (lq_project_id q) ""))
                       else true))
         (db_rows db tasks))) ;;
  rows <- sql_page lim off selected ;;
  ret (send 200 (mkListing rows (length rows))).

(** [GET /api/v1/sessions/:id/messages]: [SELECT ... FROM session_messages
    WHERE session_id = $1 ORDER BY created_at ASC LIMIT $2 OFFSET $3], with the
    limit capped at 500. *)
Definition list_messages (sessionId : Id) (q : ListQuery) : Eff (Answer Listing) :=
  let lim := page_limit (lq_limit q) "100" 500 in
  let off := page_offset (lq_offset q) in
  selected <- gets (fun db =>
    sort_by (asc (fun r => inject_Z (row_created_at r)))
      (List.filter (fun r => opt_id_eqb (p_session_id (row_payload r)) (Some sessionId))
                   (db_rows db session_messages))) ;;
  rows <- sql_page lim off selected ;;
  ret (send 200 (mkListing rows (length rows))).

(** *** [GET /api/v1/decay/status] *)

Record StatusCounts := mkCounts {
  n_active : nat;
  n_cooling : nat;
  n_archived : nat
}.

(** [SELECT decay_status, COUNT( * ) FROM table WHERE agent_id = $1 GROUP BY
    decay_status]: one row for each status that occurs. *)
Definition count_by_status (t : Table) (agent : Id) (db : DB)
    : list (DecayStatus * nat) :=
  omap (fun s =>
          let n := length (List.filter
                             (fun r => String.eqb (row_agent_id r) agent
                                       && DecayStatus_eqb (row_decay_status r) s)
                             (db_rows db t)) in
          if (n =? 0)%nat then None else Some (s, n))
       [active; cooling; archived].

(** [status[table][r.decay_status] = parseInt(r.count, 10)] *)
Definition set_count (c : StatusCounts) (r : DecayStatus * nat) : StatusCounts :=
  match r with
  | (active, n) => mkCounts n (n_cooling c) (n_archived c)
  | (cooling, n) => mkCounts (n_active c) n (n_archived c)
  | (archived, n) => mkCounts (n_active c) (n_cooling c) n
  end.

Record DecayOverview := mkOverview {
  ov_status : list (string * StatusCounts);
  ov_policies : list DecayPolicy
}.

(** [SELECT * FROM decay_policies WHERE agent_id = $1 OR agent_id IS NULL ORDER
    BY agent_id NULLS LAST] *)
Definition policies_of (agent : Id) (db : DB) : list DecayPolicy :=
  let matching :=
    List.filter (fun p => opt_id_eqb (policy_agent_id p) (Some agent)
                          || is_null_id (policy_agent_id p))
                (db_decay_policies db) in
  (List.filter (fun p => negb (is_null_id (policy_agent_id p))) matching
   ++ List.filter (fun p => is_null_id (policy_agent_id p)) matching)%list.

Definition decay_status (agent_id : option string) : Eff (Answer DecayOverview) :=
  if negb (truthy_str agent_id)
  then ret (send_error 400 "agent_id is required")
  else
    let agent := or_str agent_id "" in
    status <- gets (fun db =>
      map (fun t => (TABLE_NAME t,
                     fold_left set_count (count_by_status t agent db) (mkCounts 0 0 0)))
          [facts; decisions; tasks; events; session_messages]) ;;
    policies <- gets (policies_of agent) ;;
    ret (send 200 (mkOverview status policies)).

(** *** [routes/memory.ts]: one project *)

Record TaskSummary := mkTaskSummary {
  ts_id : Id;
  ts_title : string;
  ts_status : string;
  ts_priority : Z
}.

(** [GET /api/v1/projects/:id]: the project with the tasks that reference it,
    [SELECT id, title, status, priority FROM tasks WHERE project_id = $1 ORDER
    BY priority DESC]. *)
Definition get_project (id : Id) : Eff (Answer (Project * list TaskSummary)) :=
  rows <- gets (fun db =>
            List.filter (fun p => String.eqb (project_id p) id) (db_projects db)) ;;
  match rows with
  | [] => ret (send_error 404 "Project not found")
  | p :: _ =>
      tasks_of <- gets (fun db =>
        map (fun r => mkTaskSummary (row_id r) (p_title (row_payload r))
                                    (p_status (row_payload r))
                                    (p_priority (row_payload r)))
            (sort_by (desc (fun r => inject_Z (p_priority (row_payload r))))
               (List.filter
                  (fun r => opt_id_eqb (p_project_id (row_payload r)) (Some id))
                  (db_rows db tasks)))) ;;
      ret (send 200 (p, tasks_of))
  end.

Definition set_project_id (o : option Id) (p : Payload) : Payload :=
  mkPayload (p_content p) (p_title p) (p_decision p) (p_description p)
            (p_session_id p) o (p_confidence p) (p_priority p) (p_status p)
            (p_event_type p) (p_severity p) (p_role p).

Definition set_payload (p : Payload) (r : Row) : Row :=
  mkRow (row_id r) (row_agent_id r) p (row_embedding r)
        (row_created_at r) (row_updated_at r) (row_occurred_at r)
        (row_access_count r) (row_last_accessed_at r) (row_decay_status r).

(** [tasks.project_id REFERENCES projects(id) ON DELETE SET NULL]: the update
    of a referencing task runs the task's [updated_at] trigger. *)
Definition detach_task (now : Z) (id : Id) (r : Row) : Row :=
  if opt_id_eqb (p_project_id (row_payload r)) (Some id)
  then touch tasks now (set_payload (set_project_id None (row_payload r)) r)
  else r.

(** [DELETE /api/v1/projects/:id] *)
Definition delete_project (now : Z) (id : Id) : Eff (Answer unit) :=
  rows <- gets (fun db =>
            List.filter (fun p => String.eqb (project_id p) id) (db_projects db)) ;;
  match rows with
  | [] => ret (send_error 404 "Project not found")
  | _ :: _ =>
      modify_db (fun db =>
        set_rows tasks (map (detach_task now id) (db_rows db tasks))
          (set_projects
             (List.filter (fun p => negb (String.eqb (project_id p) id))
                          (db_projects db))
             db)) ;;;
      ret (send_empty 204)
  end.

(** *** [routes/search.ts]: semantic search *)

(** The [name] of the configured embedding provider. *)
Variable provider_name : string.

Record SearchRequest := mkSearchRequest {
  sq_query : option string;
  sq_agent_id : option string;
  sq_types : option (list string);
  sq_limit : option Z;
  sq_threshold : option Q
}.

Record SearchResult := mkSearchResult {
  sr_id : Id;
  sr_type : string;
  sr_content : string;
  sr_similarity : Q;
  sr_metadata : list (string * json);
  sr_created_at : Z
}.

Record SearchResponse := mkSearchResponse {
  se_results : list SearchResult;
  se_total : nat;
  se_query : string;
  se_embedding_provider : string
}.

(** The five blocks of the handler, in its order: the table, the type it
    reports, and how content, metadata and created_at are read off a row.
    Metadata is given on the columns the store record carries. *)
Record SearchTable := mkSearchTable {
  st_table : Table;
  st_type : string;
  st_content : Row -> string;
  st_metadata : Row -> list (string * json);
  st_time : TimeCol
}.

Definition json_opt_str (o : option string) : json :=
  match o with Some s => JStr s | None => JNull end.

Definition SEARCH_TABLES : list SearchTable :=
  [ mkSearchTable session_messages "session_message"
      (fun r => p_content (row_payload r))
      (fun r => [("role", JStr (p_role (row_payload r)));
                 ("session_id", json_opt_str (p_session_id (row_payload r)))])
      col_created_at;
    mkSearchTable facts "fact"
      (fun r => p_content (row_payload r))
      (fun r => [("confidence", JNum (p_confidence (row_payload r)))])
      col_created_at;
    mkSearchTable decisions "decision"
      (fun r => p_title (row_payload r) ++ ": " ++ p_decision (row_payload r))
      (fun r => [("title", JStr (p_title (row_payload r)))])
      col_created_at;
    mkSearchTable tasks "task"
      (fun r => with_description (p_title (row_payload r))
                                 (p_description (row_payload r)))
      (fun r => [("title", JStr (p_title (row_payload r)));
                 ("status", JStr (p_status (row_payload r)));
                 ("priority", JNum (inject_Z (p_priority (row_payload r))))])
      col_created_at;
    mkSearchTable events "event"
      (fun r => with_description (p_title (row_payload r))
                                 (p_description (row_payload r)))
      (fun r => [("title", JStr (p_title (row_payload r)));
                 ("event_type", JStr (p_event_type (row_payload r)));
                 ("severity", JStr (p_severity (row_payload r)))])
      col_occurred_at ].

(** [limit || 20] and [threshold || 0.3]: zero counts as absent. *)
Definition or_num (o : option Z) (dflt : Z) : Z :=
  match o with Some n => if (n =? 0)%Z then dflt else n | None => dflt end.

Definition or_q (o : option Q) (dflt : Q) : Q :=
  match o with Some q => if Qeq_bool q 0 then dflt else q | None => dflt end.

(** [SELECT ..., 1 - (embedding <=> $1) AS similarity FROM table WHERE agent_id
    = $2 AND embedding IS NOT NULL AND decay_status = 'active' AND 1 -
    (embedding <=> $1) > $3 ORDER BY similarity DESC LIMIT $4], mapped to
    results. *)
Definition search_rows (t : SearchTable) (queryEmbedding : Vec) (agent : Id)
    (minSimilarity : Q) (maxResults : Z) : Eff (list SearchResult) :=
  rows <- gets (fun db =>
            omap (fun r =>
                    match row_embedding r with
                    | Some e =>
                        let s := (1 - cosine_distance e queryEmbedding)%Q in
                        if String.eqb (row_agent_id r) agent && is_active r
                           && Qgtb s minSimilarity
                        then Some (mkSearchResult (row_id r) (st_type t)
                                     (st_content t r) s (st_metadata t r)
                                     (time_col (st_time t) r))
                        else None
                    | None => None
                    end)
                 (db_rows db (st_table t))) ;;
  sql_limit maxResults (sort_by (desc sr_similarity) rows).

(** The table whose access count is bumped for a result. *)
Definition table_of_result (type : string) : Table :=
  if String.eqb type "session_message" then session_messages
  else if String.eqb type "fact" then facts
  else if String.eqb type "decision" then decisions
  else if String.eqb type "task" then tasks
  else events.

(** [POST /api/v1/search]. The text of the 500 answer goes on with the message
    of the embedder's error, which is not modelled. *)
Definition search (now : Z) (req : SearchRequest) : Eff (Answer SearchResponse) :=
  if negb (truthy_str (sq_query req)) || negb (truthy_str (sq_agent_id req))
  then ret (send_error 400 "query and agent_id are required")
  else
    let searchQuery := or_str (sq_query req) "" in
    let agent := or_str (sq_agent_id req) "" in
    match provider with
    | None => ret (send_error 503 "Embedding provider not configured")
    | Some p =>
        match p searchQuery with
        | None => ret (send_error 500 "Embedding failed")
        | Some queryEmbedding =>
            let maxResults := Z.min (or_num (sq_limit req) 20) 100 in
            let minSimilarity := or_q (sq_threshold req) (3 # 10) in
            let searchTypes :=
              with_default (sq_types req)
                ["session_message"; "fact"; "decision"; "task"; "event"] in
            found <- for_each
                       (List.filter (fun t => in_strs (st_type t) searchTypes)
                                    SEARCH_TABLES)
                       []
                       (fun acc t =>
                          rows <- search_rows t queryEmbedding agent minSimilarity
                                              maxResults ;;
                          ret (acc ++ rows)%list) ;;
            let trimmed := slice0 maxResults (sort_by (desc sr_similarity) found) in
            modify_db (fun db =>
              fold_left (fun db r => bump_row (table_of_result (sr_type r)) now
                                              (sr_id r) db)
                        trimmed db) ;;;
            ret (send 200 (mkSearchResponse trimmed (length trimmed) searchQuery
                                            provider_name))
        end
    end.

(** *** [routes/edges.ts]: the graph around an item, deleting an edge *)

Record GraphView := mkGraphView {
  gv_node : string * Id;
  gv_outgoing : list Edge;
  gv_incoming : list Edge;
  gv_total : nat
}.

(** The optional [AND agent_id = $3]. *)
Definition edge_agent_filter (agent_id : option string) (e : Edge) : bool :=
  if truthy_str agent_id then String.eqb (edge_agent_id e) (or_str agent_id "")
  else true.

(** [GET /api/v1/edges/graph/:type/:id] *)
Definition get_graph (type : string) (id : Id) (agent_id : option string)
    : Eff (Answer GraphView) :=
  outgoing <- gets (fun db =>
    List.filter (fun e => String.eqb (edge_source_type e) type
                          && String.eqb (edge_source_id e) id
                          && edge_agent_filter agent_id e)
                (db_memory_edges db)) ;;
  incoming <- gets (fun db =>
    List.filter (fun e => String.eqb (edge_target_type e) type
                          && String.eqb (edge_target_id e) id
                          && edge_agent_filter agent_id e)
                (db_memory_edges db)) ;;
  ret (send 200 (mkGraphView (type, id) outgoing incoming
                             (length outgoing + length incoming))).

(** [DELETE /api/v1/edges/:id] *)
Definition delete_edge (id : Id) : Eff (Answer unit) :=
  rows <- gets (fun db =>
            List.filter (fun e => String.eqb (edge_id e) id) (db_memory_edges db)) ;;
  modify_db (fun db =>
    set_memory_edges
      (List.filter (fun e => negb (String.eqb (edge_id e) id)) (db_memory_edges db))
      db) ;;;
  match rows with
  | [] => ret (send_error 404 "Edge not found")
  | _ :: _ => ret (send_empty 204)
  end.

(** *** [routes/sessions.ts]: starting and reading a session *)

Definition set_sessions (l : list Session) (db : DB) : DB :=
  mkDB (db_agents db) l (db_projects db) (db_rows db)
       (db_memory_edges db) (db_decay_policies db) (db_uuids db).

(** [INSERT INTO sessions (agent_id, external_id, metadata) VALUES (...)
    RETURNING *] *)
Definition insert_session (agent : Id) : Eff Session :=
  fun db =>
    if negb (agent_exists agent db)
    then (Throw (foreign_key_violation "agent_id"), db)
    else
      let s := mkSession (uuid_of_nat (db_uuids db)) agent None in
      (Ok s, set_uuids (S (db_uuids db)) (set_sessions (db_sessions db ++ [s]) db)).

Record SessionRequest := mkSessionRequest {
  sn_agent_id : option string
}.

(** [POST /api/v1/sessions] *)
Definition create_session (req : SessionRequest) : Eff (Answer Session) :=
  if negb (truthy_str (sn_agent_id req))
  then ret (send_error 400 "agent_id is required")
  else
    let agent := or_str (sn_agent_id req) "" in
    agents <- gets (fun db =>
                List.filter (fun a => String.eqb (agent_id a) agent)
                            (db_agents db)) ;;
    match agents with
    | [] => ret (send_error 404 "Agent not found")
    | _ :: _ =>
        s <- insert_session agent ;;
        ret (send 201 s)
    end.

(** [GET /api/v1/sessions/:id]: the session with its [message_count]. *)
Definition get_session (id : Id) : Eff (Answer (Session * nat)) :=
  rows <- gets (fun db =>
            List.filter (fun s => String.eqb (session_id s) id) (db_sessions db)) ;;
  match rows with
  | [] => ret (send_error 404 "Session not found")
  | s :: _ =>
      message_count <- gets (fun db =>
        length (List.filter
                  (fun r => opt_id_eqb (p_session_id (row_payload r)) (Some id))
                  (db_rows db session_messages))) ;;
      ret (send 200 (s, message_count))
  end.

(** *** [routes/agents.ts]: creating and reading an agent *)

(** [/^[a-z0-9][a-z0-9_-]*$/.test(slug)] *)
Fixpoint all_chars (f : ascii -> bool) (s : string) : bool :=
  match s with
  | EmptyString => true
  | String c s' => f c && all_chars f s'
  end.

Definition slug_ok (slug : string) : bool :=
  match slug with
  | EmptyString => false
  | String c rest =>
      is_slug_char c
      && all_chars (fun c => is_slug_char c || Ascii.eqb c "_"%char
                             || Ascii.eqb c "-"%char) rest
  end.

(** [/^[0-9a-f]{8}-[0-9a-f]{4}-[0-9a-f]{4}-[0-9a-f]{4}-[0-9a-f]{12}$/i.test(id)] *)
Definition hex_group (n : nat) (s : string) : option string :=
  match all_hex n s with
  | Some (String "-"%char rest) => Some rest
  | _ => None
  end.

Definition is_uuid_text (id : string) : bool :=
  match hex_group 8 id with
  | Some r1 =>
      match hex_group 4 r1 with
      | Some r2 =>
          match hex_group 4 r2 with
          | Some r3 =>
              match hex_group 4 r3 with
              | Some r4 =>
                  match all_hex 12 r4 with
                  | Some EmptyString => true
                  | _ => false
                  end
              | None => false
              end
          | None => false
          end
      | None => false
      end
  | None => false
  end.

Record AgentRequest := mkAgentRequest {
  aq_slug : option string;
  aq_display_name : option string;
  aq_core_memory : option (gmap string json)
}.

(** [INSERT INTO agents (slug, display_name, description, core_memory, config)
    VALUES (...) RETURNING *], under UNIQUE (slug). *)
Definition insert_agent (now : Z) (slug display_name : string) (core_memory : json)
    : Eff Agent :=
  fun db =>
    if existsb (fun a => String.eqb (agent_slug a) slug) (db_agents db)
    then (Throw (unique_violation "agents_slug_key"), db)
    else
      let a := mkAgent (uuid_of_nat (db_uuids db)) slug display_name core_memory now in
      (Ok a, set_uuids (S (db_uuids db)) (set_agents (db_agents db ++ [a]) db)).

(** [POST /api/v1/agents]: a unique violation (code 23505) is answered 409,
    any other error is thrown again. *)
Definition create_agent (now : Z) (req : AgentRequest) : Eff (Answer Agent) :=
  if negb (truthy_str (aq_slug req)) || negb (truthy_str (aq_display_name req))
  then ret (send_error 400 "slug and display_name are required")
  else
    let slug := or_str (aq_slug req) "" in
    if negb (slug_ok slug)
    then ret (send_error 400
      "slug must be lowercase alphanumeric with hyphens/underscores, starting with a letter or number")
    else
      try_catch
        (a <- insert_agent now slug (or_str (aq_display_name req) "")
                (match aq_core_memory req with
                 | Some m => JObj m
                 | None => JObj ∅
                 end) ;;
         ret (send 201 a))
        (fun err =>
           match err with
           | unique_violation _ =>
               ret (send_error 409 ("Agent with slug '" ++ slug ++ "' already exists"))
           | _ => throw err
           end).

(** [getAgentStats]: the number of rows of the agent in each of the six
    tables, in the order of the loop. *)
Definition getAgentStats (agentId : Id) (db : DB) : list (string * nat) :=
  let rows_of (t : Table) :=
    length (List.filter (fun r => String.eqb (row_agent_id r) agentId)
                        (db_rows db t)) in
  [ ("sessions",
     length (List.filter (fun s => String.eqb (session_agent_id s) agentId)
                         (db_sessions db)));
    ("tasks", rows_of tasks);
    ("facts", rows_of facts);
    ("decisions", rows_of decisions);
    ("events", rows_of events);
    ("projects",
     length (List.filter (fun p => String.eqb (project_agent_id p) agentId)
                         (db_projects db))) ].

(** [GET /api/v1/agents/:id]: by id when the parameter has the shape of a
    UUID, by slug otherwise. *)
Definition get_agent (id : string) : Eff (Answer (Agent * list (string * nat))) :=
  rows <- gets (fun db =>
            List.filter (fun a => if is_uuid_text id
                                  then String.eqb (agent_id a) id
                                  else String.eqb (agent_slug a) id)
                        (db_agents db)) ;;
  match rows with
  | [] => ret (send_error 404 "Agent not found")
  | agent :: _ =>
      stats <- gets (getAgentStats (agent_id agent)) ;;
      ret (send 200 (agent, stats))
  end.

(** *** [openclaw-plugin/index.ts]: the request bodies two tools send *)

(** The [enum] of the [tables] parameter of [hexmem_recall]. *)
Definition PLUGIN_TABLES : list string :=
  ["facts"; "decisions"; "tasks"; "events"; "session_messages"].

Record RecallParams := mkRecallParams {
  rp_query : option string;
  rp_limit : option Z;
  rp_tables : option (list string)
}.

(** The body [hexmem_recall] posts to [/api/v1/recall]: [limit] is
    [params.limit || 10], and [types] is set to [params.tables] when that
    list is not empty. *)
Definition hexmem_recall_body (agentUuid : Id) (params : RecallParams)
    : RecallRequest :=
  mkRecallRequest (rp_query params) (Some agentUuid)
    (match rp_tables params with
     | Some (x :: l) => Some (x :: l)
     | _ => None
     end)
    (Some (or_num (rp_limit params) 10))
    None None None None.

(** The [enum] of the [event_type] parameter of [hexmem_store]. *)
Definition PLUGIN_EVENT_TYPES : list string :=
  ["incident"; "milestone"; "release"; "discovery"; "blocker"; "resolution";
   "error"; "change"; "interaction"; "system"].

Record StoreParams := mkStoreParams {
  sp_title : option string;
  sp_content : option string;
  sp_description : option string;
  sp_event_type : option string;
  sp_severity : option string
}.

(** [a || b] on two optional strings. *)
Definition or_else (a b : option string) : option string :=
  if truthy_str a then a else b.

(** The body [hexmem_store] posts to [/api/v1/events] for an item of type
    event. *)
Definition hexmem_store_event_body (agentUuid : Id) (params : StoreParams)
    : EventRequest :=
  mkEventRequest (Some agentUuid) (sp_title params)
    (Some (or_str (sp_event_type params) "discovery"))
    (or_else (sp_description params) (sp_content params))
    (Some (or_str (sp_severity params) "info"))
    None.

End Service.

(** ** API keys: [services/auth.ts] and [routes/keys.ts]

    The table [api_keys] (migration 007) is kept beside the store; the
    SHA-256 digest and the random bytes drawn for a new key are
    parameters. *)

Record ApiKey := mkApiKey {
  key_id : Id;
  key_hash : string;
  key_prefix : string;
  key_name : string;
  key_agent_id : option Id;      (* NULL = global access *)
  key_permissions : list string;
  key_rate_limit : Z;
  key_expires_at : option Z;
  key_last_used_at : option Z;
  key_created_at : Z;
  key_revoked_at : option Z
}.

Record KeyStore := mkKeyStore {
  ks_db : DB;
  ks_api_keys : list ApiKey
}.

Inductive KeyError :=
| key_hash_taken               (* UNIQUE (key_hash) *)
| key_agent_missing            (* agent_id REFERENCES agents(id) *)
| key_integer_out_of_range.    (* rate_limit INTEGER *)

Inductive KeyResult (A : Type) :=
| KeyOk (a : A)
| KeyThrow (e : KeyError).
Arguments KeyOk {A} a.
Arguments KeyThrow {A} e.

Record AuthContext := mkAuthContext {
  auth_keyId : string;
  auth_agentId : option Id;      (* null = global access *)
  auth_permissions : list string
}.

Record Config := mkConfig {
  nodeEnv : string;
  devKey : option string
}.

Definition KEY_PREFIX : string := "hxm_".
Definition KEY_LENGTH : nat := 32.

(** [buffer.toString('hex')] *)
Definition hex_of_byte (b : ascii) : string :=
  let n := nat_of_ascii b in
  String (hex_digit (n / 16)) (String (hex_digit (n mod 16)) EmptyString).

Fixpoint to_hex (bytes : list ascii) : string :=
  match bytes with
  | [] => EmptyString
  | b :: bytes' => hex_of_byte b ++ to_hex bytes'
  end.

Record RawKey := mkRawKey {
  rawKey : string;
  keyHash : string;
  keyPrefix : string
}.

Record KeyOptions := mkKeyOptions {
  ko_name : string;
  ko_agentId : option string;
  ko_permissions : option (list string);
  ko_rateLimit : option Z;
  ko_expiresAt : option Z
}.

Record KeyRequest := mkKeyRequest {
  kq_name : option string;
  kq_agent_id : option string;
  kq_permissions : option (list string);
  kq_rate_limit : option Z;
  kq_expires_at : option Z
}.

Record KeyCreated := mkKeyCreated {
  kc_id : Id;
  kc_key : string;
  kc_prefix : string;
  kc_name : string;
  kc_message : string
}.

Section Auth.

(** [createHash('sha256').update(s).digest('hex')] *)
Variable sha256_hex : string -> string.

(** [generateRawKey], on the bytes [randomBytes(KEY_LENGTH)] returned. *)
Definition generateRawKey (randomBytes : list ascii) : RawKey :=
  let random := substring 0 KEY_LENGTH (to_hex randomBytes) in
  let rawKey := KEY_PREFIX ++ random in
  mkRawKey rawKey (sha256_hex rawKey) (substring 0 8 rawKey).

Definition hashKey (rawKey : string) : string := sha256_hex rawKey.

(** [INSERT INTO api_keys (key_hash, key_prefix, name, agent_id, permissions,
    rate_limit, expires_at) VALUES (...) RETURNING id] *)
Definition insert_api_key (now : Z) (hash prefix name : string) (agent : option Id)
    (perms : list string) (rate_limit : Z) (expires_at : option Z) (s : KeyStore)
    : KeyResult ApiKey * KeyStore :=
  if (rate_limit <? -2147483648)%Z || (2147483647 <? rate_limit)%Z
  then (KeyThrow key_integer_out_of_range, s)
  else if existsb (fun k => String.eqb (key_hash k) hash) (ks_api_keys s)
  then (KeyThrow key_hash_taken, s)
  else if negb (opt_ref agent_exists agent (ks_db s))
  then (KeyThrow key_agent_missing, s)
  else
    let k := mkApiKey (uuid_of_nat (db_uuids (ks_db s))) hash prefix name agent
                      perms rate_limit expires_at None now None in
    (KeyOk k,
     mkKeyStore (set_uuids (S (db_uuids (ks_db s))) (ks_db s))
                (ks_api_keys s ++ [k])).

(** [createApiKey]: the raw key, the id and the prefix. *)
Definition createApiKey (now : Z) (randomBytes : list ascii) (opts : KeyOptions)
    (s : KeyStore) : KeyResult (string * Id * string) * KeyStore :=
  let generated := generateRawKey randomBytes in
  match insert_api_key now (keyHash generated) (keyPrefix generated) (ko_name opts)
                       (or_null (ko_agentId opts))
                       (with_default (ko_permissions opts) ["read"; "write"])
                       (or_num (ko_rateLimit opts) 1000)
                       (ko_expiresAt opts) s with
  | (KeyOk k, s') => (KeyOk (rawKey generated, key_id k, keyPrefix generated), s')
  | (KeyThrow e, s') => (KeyThrow e, s')
  end.

Definition set_last_used_at (now : Z) (k : ApiKey) : ApiKey :=
  mkApiKey (key_id k) (key_hash k) (key_prefix k) (key_name k) (key_agent_id k)
           (key_permissions k) (key_rate_limit k) (key_expires_at k) (Some now)
           (key_created_at k) (key_revoked_at k).

Definition set_revoked_at (now : Z) (k : ApiKey) : ApiKey :=
  mkApiKey (key_id k) (key_hash k) (key_prefix k) (key_name k) (key_agent_id k)
           (key_permissions k) (key_rate_limit k) (key_expires_at k)
           (key_last_used_at k) (key_created_at k) (Some now).

Definition is_some {A} (o : option A) : bool :=
  match o with Some _ => true | None => false end.

(** [verifyApiKey]: the first row with the key's hash decides; the update of
    [last_used_at] is issued without waiting for it. *)
Definition verifyApiKey (now : Z) (rawKey : string) (s : KeyStore)
    : option AuthContext * KeyStore :=
  let keyHash := hashKey rawKey in
  match List.filter (fun k => String.eqb (key_hash k) keyHash) (ks_api_keys s) with
  | [] => (None, s)
  | key :: _ =>
      if is_some (key_revoked_at key) then (None, s)
      else if match key_expires_at key with
              | Some e => (e <? now)%Z
              | None => false
              end
      then (None, s)
      else
        (Some (mkAuthContext (key_id key) (key_agent_id key) (key_permissions key)),
         mkKeyStore (ks_db s)
           (map (fun k => if String.eqb (key_id k) (key_id key)
                          then set_last_used_at now k else k)
                (ks_api_keys s)))
  end.

(** [authMiddleware]: [inl] is the 401 reply, [inr] the context attached to
    the request. *)
Definition authMiddleware (config : Config) (now : Z) (authorization : option string)
    (s : KeyStore) : (nat * string + AuthContext) * KeyStore :=
  if negb (truthy_str authorization)
     || negb (String.prefix "Bearer " (or_str authorization ""))
  then (inl (401%nat, "Missing or invalid Authorization header"), s)
  else
    let authHeader := or_str authorization "" in
    let token := substring 7 (String.length authHeader - 7) authHeader in
    if String.eqb (nodeEnv config) "development"
       && truthy_str (devKey config)
       && String.eqb token (or_str (devKey config) "")
    then (inr (mkAuthContext "dev" None ["read"; "write"; "admin"]), s)
    else
      match verifyApiKey now token s with
      | (None, s') => (inl (401%nat, "Invalid or expired API key"), s')
      | (Some auth, s') => (inr auth, s')
      end.

Definition may_manage_keys (auth : AuthContext) : bool :=
  in_strs "admin" (auth_permissions auth) || in_strs "write" (auth_permissions auth).

(** [POST /api/v1/keys] *)
Definition post_key (auth : AuthContext) (now : Z) (randomBytes : list ascii)
    (req : KeyRequest) (s : KeyStore) : KeyResult (Answer KeyCreated) * KeyStore :=
  if negb (truthy_str (kq_name req))
  then (KeyOk (send_error 400 "name is required"), s)
  else if negb (may_manage_keys auth)
  then (KeyOk (send_error 403 "Insufficient permissions to create API keys"), s)
  else
    let name := or_str (kq_name req) "" in
    match createApiKey now randomBytes
            (mkKeyOptions name (kq_agent_id req) (kq_permissions req)
                          (kq_rate_limit req) (kq_expires_at req)) s with
    | (KeyOk (key, id, prefix), s') =>
        (KeyOk (send 201 (mkKeyCreated id key prefix name
                   "Save this key now — it will not be shown again.")), s')
    | (KeyThrow e, s') => (KeyThrow e, s')
    end.

(** [DELETE /api/v1/keys/:id]: [UPDATE api_keys SET revoked_at = NOW() WHERE
    id = $1 AND revoked_at IS NULL] *)
Definition revoke_key (auth : AuthContext) (now : Z) (id : Id) (s : KeyStore)
    : Answer string * KeyStore :=
  if negb (may_manage_keys auth)
  then (send_error 403 "Insufficient permissions to revoke API keys", s)
  else
    let hit (k : ApiKey) :=
      String.eqb (key_id k) id && negb (is_some (key_revoked_at k)) in
    let rowCount := length (List.filter hit (ks_api_keys s)) in
    let s' := mkKeyStore (ks_db s)
                (map (fun k => if hit k then set_revoked_at now k else k)
                     (ks_api_keys s)) in
    if (rowCount =? 0)%nat
    then (send_error 404 "Key not found or already revoked", s')
    else (send 200 "Key revoked successfully", s').

End Auth.

(** * Worked examples: a concrete store and concrete capabilities *)

Module Demo.

(** ** Trigram similarity, as pg_trgm computes it on ASCII text: words are
    the maximal alphanumeric runs, lower-cased and padded with two blanks in
    front and one behind; the similarity of two texts is the number of
    trigrams they share over the number of trigrams of either. *)

Definition is_alnum (c : ascii) : bool :=
  let n := nat_of_ascii c in
  ((48 <=? n)%nat && (n <=? 57)%nat) || ((97 <=? n)%nat && (n <=? 122)%nat).

Definition lower (c : ascii) : ascii :=
  let n := nat_of_ascii c in
  if (65 <=? n)%nat && (n <=? 90)%nat then ascii_of_nat (n + 32) else c.

(** [cur] holds the characters of the current word, most recent first. *)
Fixpoint words_from (s : string) (cur : list ascii) : list (list ascii) :=
  let flush := match cur with [] => [] | _ => [rev cur] end in
  match s with
  | EmptyString => flush
  | String c s' =>
      if is_alnum (lower c) then words_from s' (lower c :: cur)
      else (flush ++ words_from s' [])%list
  end.

Fixpoint windows3 (l : list ascii) : list (ascii * ascii * ascii) :=
  match l with
  | a :: ((b :: c :: _) as rest) => (a, b, c) :: windows3 rest
  | _ => []
  end.

Definition trigram_eqb (x y : ascii * ascii * ascii) : bool :=
  match x, y with
  | (a, b, c), (a', b', c') => Ascii.eqb a a' && Ascii.eqb b b' && Ascii.eqb c c'
  end.

Fixpoint dedup (l : list (ascii * ascii * ascii)) : list (ascii * ascii * ascii) :=
  match l with
  | [] => []
  | x :: l' => if existsb (trigram_eqb x) l' then dedup l' else x :: dedup l'
  end.

Definition trigrams (s : string) : list (ascii * ascii * ascii) :=
  dedup (flat_map (fun w => windows3 (" " :: " " :: w ++ [" "])%char%list)
                  (words_from s [])).

Definition similarity (a b : string) : Q :=
  let ta := trigrams a in
  let tb := trigrams b in
  let shared := length (List.filter (fun x => existsb (trigram_eqb x) tb) ta) in
  let either := (length ta + length tb - shared)%nat in
  match either with
  | O => 0
  | S _ => Z.of_nat shared # Pos.of_nat either
  end.

(** ** Embeddings: unit vectors, so that the cosine distance of two of them
    is one minus their dot product. *)

Fixpoint dot (a b : Vec) : Q :=
  match a, b with
  | x :: a', y :: b' => x * y + dot a' b'
  | _, _ => 0
  end.

Definition cosine_distance (a b : Vec) : Q := 1 - dot a b.

(** An embedder that puts a text on one of three axes by its length, and
    rejects the empty text. *)
Definition axis1 : Vec := [1; 0; 0]%Q.
Definition axis2 : Vec := [0; 1; 0]%Q.
Definition axis3 : Vec := [0; 0; 1]%Q.

Definition embed (text : string) : option Vec :=
  match String.length text with
  | O => None
  | n => Some (match (n mod 3)%nat with
               | 0%nat => axis1
               | 1%nat => axis2
               | _ => axis3
               end)
  end.

(** An embedder whose every call is rejected. *)
Definition failing_embed (text : string) : option Vec := None.

(** An extractor that reports a fact and a decision for every message. *)
Definition extract (messages : list (string * string)) : ExtractionResult :=
  match last messages with
  | Some (_, content) =>
      mkExtraction
        [mkExtractedFact content None (9 # 10)]
        [mkExtractedDecision "Use PostgreSQL" "PostgreSQL with vector extensions" None]
        [] []
  | None => mkExtraction [] [] [] []
  end.

(** ** A store *)

#[local] Open Scope Z_scope.

Definition agent1 : Id := "aaaaaaaa-0000-4000-8000-000000000001".
Definition agent2 : Id := "bbbbbbbb-0000-4000-8000-000000000002".
Definition session1 : Id := "cccccccc-0000-4000-8000-000000000001".

Definition day : Z := 24 * 60 * 60 * 1000.
Definition now : Z := 400 * day.

Definition fact_row (id : Id) (agent : Id) (content : string) (emb : option Vec)
    (created : Z) (accesses : Z) (last : option Z) (st : DecayStatus) : Row :=
  mkRow id agent (mkPayload content "" "" None None None (8 # 10) 50 "not_started"
                            "" "info" "")
        emb created created created accesses last st.

Definition decision_row (id : Id) (agent : Id) (title decision : string)
    (created : Z) : Row :=
  mkRow id agent (mkPayload "" title decision None None None 1 50 "not_started"
                            "" "info" "")
        None created created created 0 None active.

Definition event_row (id : Id) (agent : Id) (title : string) (occurred : Z)
    (accesses : Z) (st : DecayStatus) : Row :=
  mkRow id agent (mkPayload "" title "" None None None 1 50 "not_started"
                            "milestone" "info" "")
        None occurred occurred occurred accesses None st.

Definition f1 : Row :=
  fact_row "f0000000-0000-4000-8000-000000000001" agent1
           "TypeScript is the primary language used in this project"
           (Some axis1) (now - 9 * day) 0 None active.
Definition f2 : Row :=
  fact_row "f0000000-0000-4000-8000-000000000002" agent1 "ab c"
           None (now - 100 * day) 1 None active.
Definition f3 : Row :=
  fact_row "f0000000-0000-4000-8000-000000000003" agent1
           "TypeScript is the primary language"
           (Some axis1) (now - 200 * day) 0 None cooling.
Definition f4 : Row :=
  fact_row "f0000000-0000-4000-8000-000000000004" agent1
           "The API server runs on Fastify"
           (Some axis2) (now - 200 * day) 7 (Some (now - 150 * day)) active.

Definition d1 : Row :=
  decision_row "d0000000-0000-4000-8000-000000000001" agent1
               "Choose Fastify over Express"
               "Fastify for better TypeScript support and performance"
               (now - 5 * day).

Definition e1 : Row :=
  event_row "e0000000-0000-4000-8000-000000000001" agent1 "Phase 3 tests started"
            (now - 45 * day) 0 active.

Definition policies : list DecayPolicy :=
  [ mkPolicy None "fact" (Some 90%Z) true 3;
    mkPolicy None "decision" None true 0;
    mkPolicy None "event" (Some 30%Z) true 2;
    mkPolicy None "task" None true 0;
    mkPolicy None "session_message" (Some 60%Z) true 5 ].

Definition edge1 : Edge :=
  mkEdge "ed000000-0000-4000-8000-000000000001" agent1
         "fact" (row_id f1) "decision" (row_id d1) "relates_to" (9 # 10) (JObj ∅)
         (now - day).

Definition store : DB :=
  mkDB [ mkAgent agent1 "agent-one" "Agent One"
                 (JObj {[ "role" := JStr "tester" ]}) 0;
         mkAgent agent2 "agent-two" "Agent Two" (JObj ∅) 0 ]
       [ mkSession session1 agent1 None ]
       []
       (fun t => match t with
                 | facts => [f1; f2; f3; f4]
                 | decisions => [d1]
                 | events => [e1]
                 | _ => []
                 end)
       [edge1]
       policies
       0.

(** ** Requests *)

Definition recall_request : RecallRequest :=
  mkRecallRequest (Some "TypeScript language") (Some agent1) None None None
                  None None None.

Definition edge_request (weight : Q) : EdgeRequest :=
  mkEdgeRequest (Some agent1) (Some "task") (Some (row_id f4)) (Some "fact")
                (Some (row_id f1)) (Some "depends_on") (Some weight) None.

Definition message_request : MessageRequest :=
  mkMessageRequest (Some "user")
    (Some "We decided to use PostgreSQL because it supports vector extensions.").

Definition event_request : EventRequest :=
  mkEventRequest (Some agent1) (Some "Phase 3 tests started") (Some "milestone")
                 None (Some "info") None.

(** Readers of an answer, for the examples. *)
Definition answer {A} (x : Outcome A * DB) (dflt : A) : A :=
  match fst x with Ok a => a | Throw _ => dflt end.

Definition recall_of (r : Response) : RecallResponse :=
  match body r with
  | body_recall x => x
  | _ => mkRecallResponse [] 0 "" (mkWeights 0 0 0)
  end.

Definition edge_of (r : Response) : Edge :=
  match body r with body_edge e => e | _ => edge1 end.

Definition no_answer : Response := reply 0 (body_error "").

End Demo.

(** ** Further examples *)

Module Examples.

#[local] Open Scope Z_scope.

(** The example store with two more edges: from the fact [f1] to the
    cooling fact [f3], and to [f1] from the decision [d1]. *)
Definition edge2 : Edge :=
  mkEdge "ed000000-0000-4000-8000-000000000002" Demo.agent1
         "fact" (row_id Demo.f1) "fact" (row_id Demo.f3) "supersedes" (1 # 2)
         (JObj ∅) (Demo.now - Demo.day).

Definition store : DB :=
  set_memory_edges [Demo.edge1; edge2] Demo.store.

(** A request of the [hexmem_recall] tool restricted to two tables. *)
Definition recall_params : RecallParams :=
  mkRecallParams (Some "TypeScript language") None (Some ["facts"; "decisions"]).

(** A search request whose query the example embedder puts on the first
    axis, with threshold 0. *)
Definition search_request : SearchRequest :=
  mkSearchRequest (Some "TypeScript lang") (Some Demo.agent1) None None (Some 0%Q).

Definition search_of (x : Outcome (Answer SearchResponse) * DB) : SearchResponse :=
  match fst x with
  | Ok (send _ r) => r
  | _ => mkSearchResponse [] 0 "" ""
  end.

(** A store with a project, three tasks (two of the project, one of them
    archived) and two messages of the session. *)
Definition project1 : Project :=
  mkProject "b0000000-0000-4000-8000-000000000001" Demo.agent1 "hexmem" "HexMem"
            None "active" None.

Definition task_row (id : Id) (title : string) (project : option Id) (priority : Z)
    (created : Z) (st : DecayStatus) : Row :=
  mkRow id Demo.agent1
        (mkPayload "" title "" None None project 1 priority "not_started" "" "info" "")
        None created created created 0 None st.

Definition t1 : Row :=
  task_row "70000000-0000-4000-8000-000000000001" "Write the migration"
           (Some (project_id project1)) 80 (Demo.now - 3 * Demo.day) active.
Definition t2 : Row :=
  task_row "70000000-0000-4000-8000-000000000002" "Review the decay sweep"
           None 50 (Demo.now - 2 * Demo.day) active.
Definition t3 : Row :=
  task_row "70000000-0000-4000-8000-000000000003" "Ship the plugin"
           (Some (project_id project1)) 80 (Demo.now - Demo.day) active.

Definition message_row (id : Id) (role content : string) (created : Z) : Row :=
  mkRow id Demo.agent1
        (mkPayload content "" "" None (Some Demo.session1) None 1 50 "not_started"
                   "" "info" role)
        None created created created 0 None active.

Definition m1 : Row :=
  message_row "a0000000-0000-4000-8000-000000000001" "user"
              "Which database do we use?" (Demo.now - 2 * Demo.day).
Definition m2 : Row :=
  message_row "a0000000-0000-4000-8000-000000000002" "assistant"
              "PostgreSQL with pgvector." (Demo.now - Demo.day).

Definition work_store : DB :=
  mkDB (db_agents Demo.store) (db_sessions Demo.store) [project1]
       (fun t => match t with
                 | tasks => [t1; t2; t3]
                 | session_messages => [m2; m1]
                 | _ => db_rows Demo.store t
                 end)
       [Demo.edge1]
       Demo.policies
       0.

Definition no_query : ListQuery := mkListQuery None None None None None.

(** An event the [hexmem_store] tool accepts. *)
Definition store_params : StoreParams :=
  mkStoreParams (Some "Deploy failed") None (Some "The rollout timed out")
                (Some "error") (Some "critical").

(** API keys. The digest of the examples is a stand-in: any function
    serves. *)
Definition digest (s : string) : string := "sha256:" ++ s.

Definition random_bytes : list ascii := List.repeat (ascii_of_nat 171) 32.

Definition live_key : ApiKey :=
  mkApiKey "c0000000-0000-4000-8000-000000000001" (digest "hxm_0123456789abcdef")
           "hxm_0123" "ci" (Some Demo.agent1) ["read"; "write"] 1000 None None 0 None.

Definition key_store : KeyStore := mkKeyStore Demo.store [live_key].

(** A caller scoped to one agent, holding the default permissions. *)
Definition caller : AuthContext :=
  mkAuthContext (key_id live_key) (Some Demo.agent1) ["read"; "write"].

(** A request for a global admin key that expires in a day. *)
Definition key_request : KeyRequest :=
  mkKeyRequest (Some "ops") None (Some ["admin"]) None (Some (Demo.now + Demo.day)).

Definition production : Config := mkConfig "production" (Some "dev-secret").

(** The example store where agent one has a decay policy of its own: its
    facts never decay. *)
Definition own_policy : DecayPolicy := mkPolicy (Some Demo.agent1) "fact" None true 0.

Definition own_policy_store : DB :=
  mkDB (db_agents Demo.store) (db_sessions Demo.store) (db_projects Demo.store)
       (db_rows Demo.store) (db_memory_edges Demo.store)
       (own_policy :: Demo.policies) (db_uuids Demo.store).

End Examples.

(** * Notions used to state the contract *)

(** ** Recall *)

(** A signal, or 0 when it is absent. *)
Definition signal_or_zero (o : option Q) : Q :=
  match o with Some q => q | None => 0 end.

(** What the rerank step makes of a merged candidate. *)
Definition reranked (now : Z) (ws wk wr : Q) (r0 : RecallResult) : RecallResult :=
  let s := set_recency (recency_signal now (res_created_at r0)) (res_signals r0) in
  set_score (rerank_score s ws wk wr) (set_signals s r0).

(** The retrieval loop of a request. *)
Definition candidates_of (similarity : string -> string -> Q)
    (cosine_distance : Vec -> Vec -> Q) (provider : option (string -> option Vec))
    (req : RecallRequest) : Eff (list RecallResult) :=
  for_each (tablesToSearch (rq_types req)) []
    (search_table similarity cosine_distance
       (embed_with provider (or_str (rq_query req) ""))
       (or_str (rq_query req) "") (or_str (rq_agent_id req) "")
       (with_default (rq_limit req) 20%Z)).

(** A candidate is backed by an active row of the requesting agent, in the
    table its type names. *)
Definition backed (db : DB) (agent : Id) (r : RecallResult) : Prop :=
  exists t row,
    In t RECALL_TABLES /\ res_type r = rt_type t /\
    In row (db_rows db (rt_table t)) /\ row_id row = res_id r /\
    row_agent_id row = agent /\ row_decay_status row = active.

(** A candidate that only the lexical arm has seen. *)
Definition lexical_only (r : RecallResult) : Prop :=
  semantic (res_signals r) = None /\ graph_boost (res_signals r) = None /\
  res_related r = None.

(** The request with its [types] field replaced. *)
Definition with_types (types : option (list string)) (req : RecallRequest)
    : RecallRequest :=
  mkRecallRequest (rq_query req) (rq_agent_id req) types (rq_limit req)
                  (rq_include_related req) (rq_recency_weight req)
                  (rq_semantic_weight req) (rq_keyword_weight req).

(** ** Core memory *)

(** What [jsonb_strip_nulls] keeps of an object field. *)
Definition kept (v : option json) : option json :=
  match v with
  | Some JNull | None => None
  | Some v => Some (jsonb_strip_nulls v)
  end.

(** ** Decay *)

(** The rows of a table after its turn in the sweep. *)
Definition swept_rows (now : Z) (agentId : option Id) (db : DB) (t : Table)
    : list Row :=
  match applicable_policy (TABLE_TO_TYPE t) agentId db with
  | None => db_rows db t
  | Some policy =>
      match policy_ttl_days policy with
      | None => db_rows db t
      | Some ttl_days =>
          map (fun r => if cooled_long now (ts_updated (TABLE_TIMESTAMPS t)) agentId r
                        then touch t now (set_decay_status archived r) else r)
              (map (fun r => if stale now (ts_created (TABLE_TIMESTAMPS t)) agentId
                                      (policy_min_accesses policy) ttl_days r
                             then touch t now (set_decay_status cooling r) else r)
                   (db_rows db t))
      end
  end.

(** The condition of the first UPDATE of a sweep, on the policy the sweep
    itself resolved with its agent argument: the item has fewer accesses than
    the policy's minimum, and its last access -- or, if it was never accessed,
    its creation (occurrence for events) -- is older than the policy's TTL. *)
Definition stale_under_sweep_policy (now : Z) (agentId : option Id) (db : DB)
    (t : Table) (r : Row) : Prop :=
  exists p ttl_days,
    applicable_policy (TABLE_TO_TYPE t) agentId db = Some p /\
    policy_ttl_days p = Some ttl_days /\
    (row_access_count r < policy_min_accesses p)%Z /\
    ((row_last_accessed_at r = None /\
      (match t with events => row_occurred_at r | _ => row_created_at r end
       < now - day_ms * ttl_days)%Z)
     \/ (exists la, row_last_accessed_at r = Some la /\
                    (la < now - day_ms * ttl_days)%Z)).

(** The policy of an item, resolved for its agent and memory type: the
    row of [decay_policies] of that agent takes precedence over the global
    default (agent_id NULL). *)
Definition most_specific_policy (memType : string) (agent : Id) (db : DB)
    : option DecayPolicy :=
  match List.find (fun p => String.eqb (policy_memory_type p) memType
                            && opt_id_eqb (policy_agent_id p) (Some agent))
                  (db_decay_policies db) with
  | Some p => Some p
  | None =>
      List.find (fun p => String.eqb (policy_memory_type p) memType
                          && is_null_id (policy_agent_id p))
                (db_decay_policies db)
  end.

(** The condition under which an active item is to cool: its most-specific
    policy has a TTL, the item has fewer accesses than the policy's minimum,
    and its last access -- or, if it was never accessed, its creation
    (occurrence for events) -- is older than that TTL. *)
Definition decays (now : Z) (db : DB) (t : Table) (r : Row) : Prop :=
  exists p ttl_days,
    most_specific_policy (TABLE_TO_TYPE t) (row_agent_id r) db = Some p /\
    policy_ttl_days p = Some ttl_days /\
    (row_access_count r < policy_min_accesses p)%Z /\
    ((row_last_accessed_at r = None /\
      (match t with events => row_occurred_at r | _ => row_created_at r end
       < now - day_ms * ttl_days)%Z)
     \/ (exists la, row_last_accessed_at r = Some la /\
                    (la < now - day_ms * ttl_days)%Z)).

(** ** Edges and ingestion *)

(** The UNIQUE constraint of [memory_edges]. *)
Definition edges_unique (db : DB) : Prop :=
  NoDup (map edge_key (db_memory_edges db)).

(** A computation preserves a property of the store, whatever its outcome. *)
Definition preserves (I : DB -> Prop) {A} (c : Eff A) : Prop :=
  forall db out db', I db -> c db = (out, db') -> I db'.

Definition derivation_relation (t : Table) : string :=
  match t with decisions => "decided_in" | _ => "derived_from" end.

Definition has_derivation_edge (db : DB) (t : Table) (sessionId : Id) (row : Row)
    : Prop :=
  exists e, In e (db_memory_edges db) /\
            edge_key e = (TABLE_TO_TYPE t, row_id row, "session", sessionId,
                          derivation_relation t).

(** Every structured row is either one the store already had, or has its
    edge to the session. *)
Definition derived_rows_linked (db0 : DB) (sessionId : Id) (db : DB) : Prop :=
  forall t row, t <> session_messages -> In row (db_rows db t) ->
    In row (db_rows db0 t) \/ has_derivation_edge db t sessionId row.

(** ** Notions used to state the further properties *)

(** The results of a request before related items are attached: the
    reranked candidates in the order of their scores, cut at [limit]. *)
Definition top_of (now : Z) (req : RecallRequest) (allResults : list RecallResult)
    : list RecallResult :=
  slice0 (with_default (rq_limit req) 20%Z)
    (sort_by (desc res_score)
       (map (reranked now (with_default (rq_semantic_weight req) (7 # 10))
                          (with_default (rq_keyword_weight req) (2 # 10))
                          (with_default (rq_recency_weight req) (1 # 10)))
            allResults)).

(** The related items are attached to the first five results in place. *)
Definition with_related (db : DB) (agent : Id) (top : list RecallResult)
    : list RecallResult :=
  (map (fun r => set_related (getRelatedItems (res_id r) (res_type r) agent db) r)
       (take 5 top) ++ drop 5 top)%list.

(** A row of table [t] is among the results: some result has its id and
    the type of the table. *)
Definition returned_from (l : list RecallResult) (t : Table) (r : Row) : bool :=
  existsb (fun x => String.eqb (res_id x) (row_id r)
                    && String.eqb (res_type x) (TABLE_TO_TYPE t)) l.

(** ** Decay *)

Definition status_rank (s : DecayStatus) : nat :=
  match s with active => 0 | cooling => 1 | archived => 2 end.

(** [r'] is the row [r] with, at most, a later decay status and a new
    [updated_at]. *)
Definition aged (r r' : Row) : Prop :=
  row_id r' = row_id r /\ row_agent_id r' = row_agent_id r /\
  row_payload r' = row_payload r /\ row_embedding r' = row_embedding r /\
  row_created_at r' = row_created_at r /\ row_occurred_at r' = row_occurred_at r /\
  row_access_count r' = row_access_count r /\
  row_last_accessed_at r' = row_last_accessed_at r /\
  (status_rank (row_decay_status r) <= status_rank (row_decay_status r'))%nat /\
  (row_decay_status r' = row_decay_status r -> r' = r).

Definition has_status (s : DecayStatus) (r : Row) : bool :=
  DecayStatus_eqb (row_decay_status r) s.

(** The number of rows with a status, in one table and in the five. *)
Definition count_in (s : DecayStatus) (db : DB) (t : Table) : nat :=
  length (List.filter (has_status s) (db_rows db t)).

Definition count_status (s : DecayStatus) (db : DB) : nat :=
  list_sum (map (count_in s db) MEMORY_TABLES).

(** What the turn of one table adds to the statistics of a sweep. *)
Definition table_stats (now : Z) (agentId : option Id) (db : DB) (t : Table)
    : DecayStats :=
  match applicable_policy (TABLE_TO_TYPE t) agentId db with
  | None => mkStats 0 0 0
  | Some policy =>
      match policy_ttl_days policy with
      | None => mkStats 0 0 0
      | Some ttl_days =>
          let is_stale :=
            stale now (ts_created (TABLE_TIMESTAMPS t)) agentId
                  (policy_min_accesses policy) ttl_days in
          let rows1 :=
            map (fun r => if is_stale r then touch t now (set_decay_status cooling r)
                          else r) (db_rows db t) in
          mkStats
            (length (List.filter is_stale (db_rows db t)))
            (length (List.filter
                       (cooled_long now (ts_updated (TABLE_TIMESTAMPS t)) agentId)
                       rows1))
            (length (List.filter
                       (fun r => is_active r && in_scope agentId r
                                 && (policy_min_accesses policy <=? row_access_count r)%Z)
                       (swept_rows now agentId db t)))
      end
  end.

Definition add_stats (a b : DecayStats) : DecayStats :=
  mkStats (transitioned_to_cooling a + transitioned_to_cooling b)
          (transitioned_to_archived a + transitioned_to_archived b)
          (immune_items a + immune_items b).

(** The store with the agents' own decay policies removed. *)
Definition global_policies_only (db : DB) : DB :=
  mkDB (db_agents db) (db_sessions db) (db_projects db) (db_rows db)
       (db_memory_edges db)
       (List.filter (fun p => is_null_id (policy_agent_id p)) (db_decay_policies db))
       (db_uuids db).

(** ** Search *)

(** A search result is backed by an active row of the agent that has an
    embedding, in the table of the result's type; its similarity is one minus
    the distance of that embedding to the query's, and exceeds the
    threshold. *)
Definition search_hit (cosine_distance : Vec -> Vec -> Q) (db : DB) (agent : Id)
    (queryEmbedding : Vec) (minSimilarity : Q) (r : SearchResult) : Prop :=
  exists t row e,
    In t SEARCH_TABLES /\ sr_type r = st_type t /\
    In row (db_rows db (st_table t)) /\ row_id row = sr_id r /\
    row_agent_id row = agent /\ row_decay_status row = active /\
    row_embedding row = Some e /\
    sr_similarity r = (1 - cosine_distance e queryEmbedding)%Q /\
    (minSimilarity < sr_similarity r)%Q /\
    sr_content r = st_content t row /\
    sr_created_at r = time_col (st_time t) row.

Definition ALL_TYPES : list string :=
  ["session_message"; "fact"; "decision"; "task"; "event"].

(** * Properties *)

(** ** Lists, sorting and the effect monad *)

Lemma In_insert_sorted {A} (before : A -> A -> bool) (x y : A) (l : list A) :
  In y (insert_sorted before x l) <-> y = x \/ In y l.
Proof.
  induction l as [|z l IH]; simpl.
  - intuition.
  - destruct (before x z); simpl; rewrite ?IH; intuition.
Qed.

Lemma In_sort_by {A} (before : A -> A -> bool) (y : A) (l : list A) :
  In y (sort_by before l) <-> In y l.
Proof.
  unfold sort_by. induction l as [|x l IH]; simpl.
  - reflexivity.
  - rewrite In_insert_sorted, IH. intuition.
Qed.

Lemma In_take {A} (n : nat) (y : A) (l : list A) : In y (take n l) -> In y l.
Proof.
  revert n. induction l as [|x l IH]; intros [|n]; simpl; intuition eauto.
Qed.

Lemma In_drop {A} (n : nat) (y : A) (l : list A) : In y (drop n l) -> In y l.
Proof.
  revert n. induction l as [|x l IH]; intros [|n]; simpl; intuition eauto.
Qed.

Lemma In_slice0 {A} (n : Z) (y : A) (l : list A) : In y (slice0 n l) -> In y l.
Proof. unfold slice0. destruct (n <? 0)%Z; apply In_take. Qed.

Lemma In_omap {A B} (f : A -> option B) (y : B) (l : list A) :
  In y (omap f l) <-> exists x, In x l /\ f x = Some y.
Proof.
  rewrite <- list_elem_of_In, list_elem_of_omap.
  split; intros (x & Hx & Hf); exists x; split; try assumption;
    now apply list_elem_of_In.
Qed.

(** Insertion keeps a list sorted when [before] is total and transitive. *)
Section Sorted.
Context {A : Type} (before : A -> A -> bool).
Hypothesis before_total : forall a b, before a b = true \/ before b a = true.
Hypothesis before_trans :
  forall a b c, before a b = true -> before b c = true -> before a c = true.

Lemma insert_sorted_sorted (x : A) (l : list A) :
  StronglySorted (fun a b => before a b = true) l ->
  StronglySorted (fun a b => before a b = true) (insert_sorted before x l).
Proof.
  induction 1 as [|z l Hs IH Hz]; simpl.
  - repeat constructor.
  - destruct (before x z) eqn:E.
    + constructor; [constructor; assumption|].
      constructor; [assumption|].
      rewrite List.Forall_forall in *. eauto.
    + constructor; [assumption|].
      rewrite List.Forall_forall in *. intros y Hy.
      apply In_insert_sorted in Hy as [->|Hy]; [|auto].
      destruct (before_total x z); congruence.
Qed.

Lemma sort_by_sorted (l : list A) :
  StronglySorted (fun a b => before a b = true) (sort_by before l).
Proof.
  unfold sort_by. induction l; simpl.
  - constructor.
  - apply insert_sorted_sorted. assumption.
Qed.


End Sorted.

Lemma desc_total {A} (key : A -> Q) (a b : A) :
  desc key a b = true \/ desc key b a = true.
Proof.
  unfold desc. rewrite !Qle_bool_iff.
  destruct (Qlt_le_dec (key a) (key b)) as [H|H]; [right|left]; auto using Qlt_le_weak.
Qed.

Lemma desc_trans {A} (key : A -> Q) (a b c : A) :
  desc key a b = true -> desc key b c = true -> desc key a c = true.
Proof. unfold desc. rewrite !Qle_bool_iff. intros. eapply Qle_trans; eauto. Qed.

Lemma Qgtb_lt (x y : Q) : Qgtb x y = true <-> (y < x)%Q.
Proof.
  unfold Qgtb. rewrite negb_true_iff, <- not_true_iff_false, Qle_bool_iff.
  split; [apply Qnot_le_lt | apply Qlt_not_le].
Qed.

Lemma DecayStatus_eqb_eq (a b : DecayStatus) : DecayStatus_eqb a b = true <-> a = b.
Proof. destruct a, b; simpl; split; congruence. Qed.

Lemma is_active_eq (r : Row) : is_active r = true <-> row_decay_status r = active.
Proof. apply DecayStatus_eqb_eq. Qed.

Lemma Table_eqb_eq (a b : Table) : Table_eqb a b = true <-> a = b.
Proof. destruct a, b; simpl; split; congruence. Qed.

Lemma Table_eqb_refl (a : Table) : Table_eqb a a = true.
Proof. now destruct a. Qed.

Lemma Ok_pair_inv {A} (a a' : A) (d d' : DB) :
  (Ok a, d) = (Ok a', d') -> a = a' /\ d = d'.
Proof. intros H. injection H. auto. Qed.

Section Contract.

Variable similarity : string -> string -> Q.
Variable cosine_distance : Vec -> Vec -> Q.
Variable provider : option (string -> option Vec).
Variable extractStructuredItems : list (string * string) -> ExtractionResult.

(** ** Recall *)

(** Inversion of a successful recall: every returned result is a reranked
    candidate of the retrieval loop, possibly with its related items attached. *)
Lemma recall_ok_inv now req db resp db' :
  recall similarity cosine_distance provider now req db
    = (Ok (reply 200 (body_recall resp)), db') ->
  truthy_str (rq_query req) = true /\ truthy_str (rq_agent_id req) = true /\
  total resp = length (results resp) /\
  query resp = or_str (rq_query req) "" /\
  weights resp = mkWeights (with_default (rq_semantic_weight req) (7 # 10))
                           (with_default (rq_keyword_weight req) (2 # 10))
                           (with_default (rq_recency_weight req) (1 # 10)) /\
  exists allResults db1,
    candidates_of similarity cosine_distance provider req db = (Ok allResults, db1) /\
    forall r, In r (results resp) ->
      exists r0, In r0 allResults /\
        let r1 := reranked now (with_default (rq_semantic_weight req) (7 # 10))
                           (with_default (rq_keyword_weight req) (2 # 10))
                           (with_default (rq_recency_weight req) (1 # 10)) r0 in
        r = r1 \/
        r = set_related (getRelatedItems (res_id r1) (res_type r1)
                                         (or_str (rq_agent_id req) "") db1) r1.
Proof.
  unfold recall, candidates_of. cbv zeta.
  destruct (truthy_str (rq_query req)); [|cbn; unfold ret; congruence].
  destruct (truthy_str (rq_agent_id req)); [|cbn; unfold ret; congruence].
  cbn [negb orb]. cbv iota.
  unfold bind at 1.
  destruct (for_each _ _ _ db) as [[allResults|e] db1] eqn:Hloop; [|congruence].
  unfold bind, gets, modify_db, ret. intros H. injection H as Hresp _.
  subst resp. simpl.
  repeat split; try reflexivity.
  exists allResults, db1. split; [reflexivity|].
  intros r Hr.
  assert (Htop : forall x,
             In x (slice0 (with_default (rq_limit req) 20%Z)
                     (sort_by (desc res_score)
                        (map (fun result =>
                                set_score (rerank_score (res_signals result)
                                  (with_default (rq_semantic_weight req) (7 # 10))
                                  (with_default (rq_keyword_weight req) (2 # 10))
                                  (with_default (rq_recency_weight req) (1 # 10))) result)
                           (map (fun result =>
                                   set_signals
                                     (set_recency
                                        (recency_signal now (res_created_at result))
                                        (res_signals result)) result)
                                allResults)))) ->
             exists r0, In r0 allResults /\
               x = reranked now (with_default (rq_semantic_weight req) (7 # 10))
                     (with_default (rq_keyword_weight req) (2 # 10))
                     (with_default (rq_recency_weight req) (1 # 10)) r0).
  { intros x Hx. apply In_slice0, In_sort_by in Hx.
    apply in_map_iff in Hx as [x1 [<- Hx1]].
    apply in_map_iff in Hx1 as [x0 [<- Hx0]].
    exists x0. split; [assumption|reflexivity]. }
  destruct (with_default (rq_include_related req) true && _).
  - apply in_app_or in Hr as [Hr|Hr].
    + apply in_map_iff in Hr as [x [<- Hx]].
      apply In_take, Htop in Hx as [r0 [Hr0 ->]].
      exists r0. split; [assumption|]. right. reflexivity.
    + apply In_drop, Htop in Hr as [r0 [Hr0 ->]].
      exists r0. split; [assumption|]. now left.
  - apply Htop in Hr as [r0 [Hr0 ->]].
    exists r0. split; [assumption|]. now left.
Qed.


Lemma or0_signal (o : option Q) : or0 o == signal_or_zero o.
Proof.
  destruct o as [q|]; simpl; [|reflexivity].
  destruct (Qeq_bool q 0) eqn:E; [|reflexivity].
  apply Qeq_bool_iff in E. now symmetry.
Qed.

Lemma rerank_score_formula (s : Signals) (ws wk wr : Q) :
  rerank_score s ws wk wr ==
    ws * signal_or_zero (semantic s) + wk * signal_or_zero (keyword s)
    + wr * signal_or_zero (recency s) + (1 # 10) * signal_or_zero (graph_boost s).
Proof. unfold rerank_score. rewrite !or0_signal. ring. Qed.

(** The items attached under [related] are built from an edge alone: their
    score is the edge weight, and graph_boost is their only signal. *)
Lemma related_item_shape itemId itemType agentId db x :
  In x (getRelatedItems itemId itemType agentId db) ->
  res_signals x = mkSignals None None None (Some (res_score x)) /\
  res_related x = None.
Proof.
  unfold getRelatedItems. rewrite In_omap.
  intros ([[[[direction related_type] related_id] relation] weight] & _ & H).
  destruct (List.find _ RECALL_TABLES) as [tableConfig|]; [|discriminate].
  destruct (List.filter _ _) as [|row rest]; [discriminate|].
  injection H as <-. split; reflexivity.
Qed.

(** C1. Every result returned by recall carries the score
    semantic_weight * semantic + keyword_weight * keyword + recency_weight *
    recency + 0.1 * graph_boost, an absent signal counting as 0, and its
    recency signal is max(0, 1 - age / maxAge) with age = now - created_at
    (occurred_at for events) and maxAge = 90 days. The results are the
    entries of the [results] array of the answer. *)
Theorem C1_recall_score_is_weighted_sum now req db resp db' :
  recall similarity cosine_distance provider now req db
    = (Ok (reply 200 (body_recall resp)), db') ->
  forall r, In r (results resp) ->
    recency (res_signals r)
      = Some (Qmax 0 (1 - inject_Z (now - res_created_at r)
                          / inject_Z (90 * 24 * 60 * 60 * 1000)))
    /\ res_score r ==
         w_semantic (weights resp) * signal_or_zero (semantic (res_signals r))
         + w_keyword (weights resp) * signal_or_zero (keyword (res_signals r))
         + w_recency (weights resp) * signal_or_zero (recency (res_signals r))
         + (1 # 10) * signal_or_zero (graph_boost (res_signals r)).
Proof.
  intros H r Hr.
  apply recall_ok_inv in H as (_ & _ & _ & _ & Hw & allResults & db1 & _ & Hres).
  rewrite Hw. cbn [w_semantic w_keyword w_recency].
  destruct (Hres r Hr) as (r0 & _ & [-> | ->]);
    unfold reranked, set_related, set_score, set_signals;
    cbn [res_score res_signals res_created_at];
    (split; [reflexivity | apply rerank_score_formula]).
Qed.

(** *** The retrieval loop *)

Lemma for_each_readonly {A S} (I : S -> Prop) (body : S -> A -> Eff S)
    (xs : list A) (db : DB) :
  (forall x acc, In x xs -> I acc ->
     (exists acc', body acc x db = (Ok acc', db) /\ I acc')
     \/ (exists e, body acc x db = (Throw e, db))) ->
  forall acc, I acc ->
    (exists acc', for_each xs acc body db = (Ok acc', db) /\ I acc')
    \/ (exists e, for_each xs acc body db = (Throw e, db)).
Proof.
  induction xs as [|x xs IH]; intros Hbody acc Hacc; simpl.
  - left. exists acc. split; [reflexivity|assumption].
  - unfold bind.
    destruct (Hbody x acc (or_introl eq_refl) Hacc) as [(acc' & -> & Hacc')|[e ->]].
    + apply IH; [|assumption]. intros; apply Hbody; [now right|assumption].
    + right. eauto.
Qed.

Lemma for_each_total {A S} (I : S -> Prop) (body : S -> A -> Eff S)
    (xs : list A) (db : DB) :
  (forall x acc, In x xs -> I acc ->
     exists acc', body acc x db = (Ok acc', db) /\ I acc') ->
  forall acc, I acc ->
    exists acc', for_each xs acc body db = (Ok acc', db) /\ I acc'.
Proof.
  induction xs as [|x xs IH]; intros Hbody acc Hacc; simpl.
  - exists acc. split; [reflexivity|assumption].
  - unfold bind.
    destruct (Hbody x acc (or_introl eq_refl) Hacc) as (acc' & -> & Hacc').
    apply IH; [|assumption]. intros; apply Hbody; [now right|assumption].
Qed.

(** [update_existing] rewrites one entry and leaves the others. *)
Lemma update_existing_Forall (P : RecallResult -> Prop) id f l l' :
  (forall r, P r -> P (f r)) ->
  update_existing id f l = Some l' -> Forall P l -> Forall P l'.
Proof.
  intros Hf. revert l'. induction l as [|r l IH]; intros l' H Hl; simpl in H.
  - discriminate.
  - apply Forall_cons_iff in Hl as [Hr Hl].
    destruct (String.eqb (res_id r) id).
    + injection H as <-. constructor; auto.
    + destruct (update_existing id f l) as [rest|]; [|discriminate].
      injection H as <-. constructor; auto.
Qed.

Lemma merge_row_Forall (P : RecallResult -> Prop) type set acc row :
  (forall r, P r -> P (set_signals (set (ar_signal row) (res_signals r)) r)) ->
  P (mkResult (ar_id row) type (ar_content row) 0
              (set (ar_signal row) (mkSignals None None None None))
              [] (ar_created_at row) None) ->
  Forall P acc -> Forall P (merge_row type set acc row).
Proof.
  intros Hupd Hnew Hacc. unfold merge_row.
  destruct (update_existing _ _ acc) as [updated|] eqn:E.
  - eapply update_existing_Forall; [|exact E|exact Hacc]. exact Hupd.
  - apply Forall_app. split; [assumption|]. constructor; [assumption|constructor].
Qed.

Lemma fold_merge_Forall (P : RecallResult -> Prop) type set rows acc :
  (forall row r, In row rows -> P r ->
     P (set_signals (set (ar_signal row) (res_signals r)) r)) ->
  (forall row, In row rows ->
     P (mkResult (ar_id row) type (ar_content row) 0
                 (set (ar_signal row) (mkSignals None None None None))
                 [] (ar_created_at row) None)) ->
  Forall P acc -> Forall P (fold_left (merge_row type set) rows acc).
Proof.
  revert acc. induction rows as [|row rows IH]; intros acc Hupd Hnew Hacc; simpl.
  - assumption.
  - apply IH.
    + intros; apply Hupd; [now right|assumption].
    + intros; apply Hnew; now right.
    + apply merge_row_Forall; [intros; apply Hupd; [now left|assumption]| |assumption].
      apply Hnew. now left.
Qed.


Lemma sql_limit_inv {A} (n : Z) (rows : list A) db out db' :
  sql_limit n rows db = (out, db') ->
  db' = db /\
  ((exists e, out = Throw e)
   \/ (exists top, out = Ok top /\ forall x, In x top -> In x rows)).
Proof.
  unfold sql_limit, throw, ret. destruct (n <? 0)%Z; intros H; injection H as <- <-.
  - split; [reflexivity|]. left. eauto.
  - split; [reflexivity|]. right. eexists. split; [reflexivity|]. intros x. apply In_take.
Qed.

Lemma semantic_rows_inv t q agent limit db out db' :
  semantic_rows cosine_distance t q agent limit db = (out, db') ->
  db' = db /\
  ((exists e, out = Throw e)
   \/ (exists rows, out = Ok rows /\
       forall a, In a rows ->
         exists row, In row (db_rows db (rt_table t)) /\ row_id row = ar_id a /\
                     row_agent_id row = agent /\ row_decay_status row = active)).
Proof.
  unfold semantic_rows, bind, gets.
  destruct (sql_limit limit _ db) as [[top|e] db1] eqn:E; unfold ret; intros H;
    injection H as <- <-; apply sql_limit_inv in E as [-> [[e' He]|(top' & Ht & Hin)]];
    try discriminate; (split; [reflexivity|]); [|left; eauto].
  injection Ht as <-. right. eexists. split; [reflexivity|].
  intros a Ha. apply in_map_iff in Ha as [[d a'] [<- Ha]].
  apply Hin, In_sort_by, In_omap in Ha as (row & Hrow & Hf).
  exists row.
  destruct (row_embedding row); [|discriminate].
  destruct (String.eqb (row_agent_id row) agent) eqn:Ea; [|discriminate].
  destruct (is_active row) eqn:Eact; [|discriminate].
  injection Hf as _ <-. simpl.
  apply String.eqb_eq in Ea. apply is_active_eq in Eact. auto.
Qed.

Lemma keyword_rows_inv t q agent limit db out db' :
  keyword_rows similarity t q agent limit db = (out, db') ->
  db' = db /\
  ((exists e, out = Throw e)
   \/ (exists rows, out = Ok rows /\
       forall a, In a rows ->
         exists row, In row (db_rows db (rt_table t)) /\ row_id row = ar_id a /\
                     row_agent_id row = agent /\ row_decay_status row = active)).
Proof.
  unfold keyword_rows, bind, gets. intros H.
  apply sql_limit_inv in H as [-> [[e' ->]|(top & -> & Hin)]];
    (split; [reflexivity|]); [left; eauto|].
  right. eexists. split; [reflexivity|].
  intros a Ha. apply Hin, In_sort_by in Ha.
  apply in_map_iff in Ha as [row [<- Hrow]].
  apply filter_In in Hrow as [Hrow Hc].
  apply andb_true_iff in Hc as [Hc _]. apply andb_true_iff in Hc as [Ea Eact].
  apply String.eqb_eq in Ea. apply is_active_eq in Eact.
  exists row. simpl. auto.
Qed.

Lemma backed_set_signals db agent s r :
  backed db agent r -> backed db agent (set_signals s r).
Proof. intros (t & row & H). exists t, row. exact H. Qed.

Lemma search_table_backed qe q agent limit acc t db :
  In t RECALL_TABLES -> Forall (backed db agent) acc ->
  (exists acc', search_table similarity cosine_distance qe q agent limit acc t db
                  = (Ok acc', db) /\ Forall (backed db agent) acc')
  \/ (exists e, search_table similarity cosine_distance qe q agent limit acc t db
                  = (Throw e, db)).
Proof.
  intros Ht Hacc. unfold search_table.
  assert (Hmerge : forall set rows acc0,
             (forall a, In a rows ->
                exists row, In row (db_rows db (rt_table t)) /\ row_id row = ar_id a /\
                            row_agent_id row = agent /\ row_decay_status row = active) ->
             Forall (backed db agent) acc0 ->
             Forall (backed db agent) (fold_left (merge_row (rt_type t) set) rows acc0)).
  { intros set rows acc0 Hrows Hacc0. apply fold_merge_Forall; [| |assumption].
    - intros; now apply backed_set_signals.
    - intros a Ha. destruct (Hrows a Ha) as (row & H1 & H2 & H3 & H4).
      exists t, row. cbn [res_type res_id]. repeat split; assumption. }
  assert (Hkw : forall acc0, Forall (backed db agent) acc0 ->
             exists acc',
               try_catch
                 (keywordRows <- keyword_rows similarity t q agent limit ;;
                  ret (fold_left (merge_row (rt_type t) set_keyword) keywordRows acc0))
                 (fun _ => ret acc0) db = (Ok acc', db)
               /\ Forall (backed db agent) acc').
  { intros acc0 Hacc0. unfold try_catch, bind.
    destruct (keyword_rows similarity t q agent limit db) as [out db1] eqn:E.
    apply keyword_rows_inv in E as [-> [[e ->]|(rows & -> & Hrows)]]; unfold ret.
    - exists acc0. auto.
    - eexists. split; [reflexivity|]. now apply Hmerge. }
  unfold try_catch, bind in Hkw |- *.
  destruct qe as [v|].
  - destruct (semantic_rows cosine_distance t v agent limit db) as [out db1] eqn:E.
    apply semantic_rows_inv in E as [-> [[e ->]|(rows & -> & Hrows)]].
    + right. eexists. reflexivity.
    + left. unfold ret at 1. apply Hkw. now apply Hmerge.
  - left. unfold ret at 1. now apply Hkw.
Qed.

Lemma candidates_backed req db allResults db1 :
  candidates_of similarity cosine_distance provider req db = (Ok allResults, db1) ->
  db1 = db /\ Forall (backed db (or_str (rq_agent_id req) "")) allResults.
Proof.
  unfold candidates_of. intros H.
  destruct (for_each_readonly (Forall (backed db (or_str (rq_agent_id req) "")))
              (search_table similarity cosine_distance
                 (embed_with provider (or_str (rq_query req) ""))
                 (or_str (rq_query req) "") (or_str (rq_agent_id req) "")
                 (with_default (rq_limit req) 20%Z))
              (tablesToSearch (rq_types req)) db) with (acc := @nil RecallResult)
    as [(acc' & E & Hacc')|[e E]].
  - intros t acc Ht Hacc. apply search_table_backed; [|assumption].
    unfold tablesToSearch in Ht. now apply filter_In in Ht.
  - constructor.
  - rewrite E in H. injection H as <- <-. auto.
  - rewrite E in H. discriminate.
Qed.

(** Without a query embedding no candidate has a semantic signal, and the
    loop cannot fail: the only statement outside a try block is the
    semantic one. *)

Lemma search_table_lexical q agent limit acc t db :
  Forall lexical_only acc ->
  exists acc', search_table similarity cosine_distance None q agent limit acc t db
                 = (Ok acc', db) /\ Forall lexical_only acc'.
Proof.
  intros Hacc. unfold search_table, bind at 1, ret at 1, try_catch, bind.
  destruct (keyword_rows similarity t q agent limit db) as [out db1] eqn:E.
  apply keyword_rows_inv in E as [-> [[e ->]|(rows & -> & _)]]; unfold ret.
  - exists acc. auto.
  - eexists. split; [reflexivity|].
    apply fold_merge_Forall; [| |assumption].
    + intros row r _ (H1 & H2 & H3). repeat split; assumption.
    + intros row _. repeat split; reflexivity.
Qed.

Lemma recall_total now req db allResults db1 :
  truthy_str (rq_query req) = true -> truthy_str (rq_agent_id req) = true ->
  candidates_of similarity cosine_distance provider req db = (Ok allResults, db1) ->
  exists resp db',
    recall similarity cosine_distance provider now req db
      = (Ok (reply 200 (body_recall resp)), db').
Proof.
  intros Hq Ha Hc. unfold candidates_of in Hc. unfold recall. cbv zeta.
  rewrite Hq, Ha. cbn [negb orb]. cbv iota.
  unfold bind at 1. rewrite Hc.
  unfold bind, gets, modify_db, ret. eexists. eexists. reflexivity.
Qed.

(** *** Duplicate detection reads active rows only *)

Lemma top1_In (rows : list (Id * Q)) x : top1 rows = Some x -> In x rows.
Proof.
  unfold top1. intros H. apply (In_sort_by (desc snd)).
  destruct (sort_by (desc snd) rows); [discriminate|].
  injection H as ->. now left.
Qed.

Lemma trigram_candidates_In table agentId content db id s :
  In (id, s) (trigram_candidates similarity table agentId content db) <->
  exists r, In r (db_rows db table) /\ row_id r = id /\
            s = similarity (text_col (CONTENT_COLUMN table) r) content /\
            row_agent_id r = agentId /\ row_decay_status r = active /\
            (TRIGRAM_THRESHOLD < s)%Q.
Proof.
  unfold trigram_candidates. rewrite in_map_iff. split.
  - intros (r & E & Hr). injection E as <- <-.
    apply filter_In in Hr as [Hr Hc].
    apply andb_true_iff in Hc as [Hc Hs]. apply andb_true_iff in Hc as [Ha Hact].
    apply String.eqb_eq in Ha. apply is_active_eq in Hact. apply Qgtb_lt in Hs.
    exists r. repeat split; assumption || reflexivity.
  - intros (r & Hr & <- & -> & Ha & Hact & Hs). exists r. split; [reflexivity|].
    apply filter_In. split; [assumption|].
    apply String.eqb_eq in Ha. apply is_active_eq in Hact. apply Qgtb_lt in Hs.
    now rewrite Ha, Hact, Hs.
Qed.

Lemma semantic_candidates_In table agentId embedding db id s :
  In (id, s) (semantic_candidates cosine_distance table agentId embedding db) ->
  exists r, In r (db_rows db table) /\ row_id r = id /\
            row_agent_id r = agentId /\ row_decay_status r = active.
Proof.
  unfold semantic_candidates. rewrite In_omap. intros (r & Hr & Hf).
  destruct (row_embedding r); [|discriminate].
  destruct (String.eqb (row_agent_id r) agentId) eqn:Ea; [|discriminate].
  destruct (is_active r) eqn:Eact; [|discriminate].
  destruct (Qgtb _ _); [|discriminate].
  injection Hf as <- _.
  apply String.eqb_eq in Ea. apply is_active_eq in Eact.
  exists r. repeat split; assumption.
Qed.

Lemma checkDuplicate_active table agentId content db m :
  checkDuplicate similarity cosine_distance provider table agentId content db = Some m ->
  exists r, In r (db_rows db table) /\ row_id r = dm_id m /\
            row_agent_id r = agentId /\ row_decay_status r = active.
Proof.
  unfold checkDuplicate.
  destruct (top1 (trigram_candidates _ _ _ _ _)) as [[id s]|] eqn:E1.
  - intros H. injection H as <-.
    apply top1_In, trigram_candidates_In in E1 as (r & ? & ? & ? & ? & ? & ?).
    exists r. repeat split; assumption.
  - destruct provider as [p|]; [|discriminate].
    destruct (p content) as [embedding|]; [|discriminate].
    destruct (top1 (semantic_candidates _ _ _ _ _)) as [[id s]|] eqn:E2; [|discriminate].
    intros H. injection H as <-.
    apply top1_In, semantic_candidates_In in E2 as (r & ? & ? & ? & ?).
    exists r. repeat split; assumption.
Qed.

Lemma recall_table_of_type t table :
  In t RECALL_TABLES -> rt_type t = TABLE_TO_TYPE table -> rt_table t = table.
Proof.
  unfold RECALL_TABLES. simpl.
  intros [<-|[<-|[<-|[<-|[<-|[]]]]]]; destruct table; simpl;
    intros H; try reflexivity; discriminate H.
Qed.

(** C4. Only active items are candidates of recall and of duplicate
    detection: an item whose decay status is cooling or archived is never
    among the results recall returns and is never a duplicate match. Items
    are identified by table and id, the id being the table's primary key. *)
Theorem C4_inactive_items_never_returned db table row :
  In row (db_rows db table) ->
  row_decay_status row <> active ->
  (forall row', In row' (db_rows db table) -> row_id row' = row_id row -> row' = row) ->
  (forall now req resp db',
      recall similarity cosine_distance provider now req db
        = (Ok (reply 200 (body_recall resp)), db') ->
      forall r, In r (results resp) ->
        ~ (res_type r = TABLE_TO_TYPE table /\ res_id r = row_id row))
  /\ (forall agentId content m,
        checkDuplicate similarity cosine_distance provider table agentId content db
          = Some m ->
        dm_id m <> row_id row).
Proof.
  intros Hrow Hst Hpk. split.
  - intros now req resp db' H r Hr [Hty Hid].
    apply recall_ok_inv in H as (_ & _ & _ & _ & _ & allResults & db1 & Hc & Hres).
    apply candidates_backed in Hc as [-> Hb].
    destruct (Hres r Hr) as (r0 & Hr0 & Hshape).
    rewrite List.Forall_forall in Hb.
    destruct (Hb r0 Hr0) as (t & row' & Ht & Hty0 & Hin & Hid0 & _ & Hact).
    assert (Hsame : res_type r = res_type r0 /\ res_id r = res_id r0)
      by (destruct Hshape as [-> | ->]; split; reflexivity).
    destruct Hsame as [E1 E2]. rewrite E1 in Hty. rewrite E2 in Hid.
    assert (rt_table t = table) by (apply recall_table_of_type; congruence).
    subst table. apply Hst.
    rewrite <- (Hpk row' Hin); [assumption|congruence].
  - intros agentId content m H Hid.
    apply checkDuplicate_active in H as (r & Hin & Hr & _ & Hact).
    apply Hst. rewrite <- (Hpk r Hin); [assumption|congruence].
Qed.

(** C9. When no embedder is configured, or embedding the query fails,
    recall still answers 200 with a well-formed body (results, total, query,
    weights); no result -- and no related item under a result -- has a
    semantic signal, and every score is made of the keyword and recency
    signals only. *)
Theorem C9_recall_without_query_embedding now req db :
  truthy_str (rq_query req) = true ->
  truthy_str (rq_agent_id req) = true ->
  (provider = None
   \/ exists p, provider = Some p /\ p (or_str (rq_query req) "") = None) ->
  exists resp db',
    recall similarity cosine_distance provider now req db
      = (Ok (reply 200 (body_recall resp)), db') /\
    total resp = length (results resp) /\
    query resp = or_str (rq_query req) "" /\
    weights resp = mkWeights (with_default (rq_semantic_weight req) (7 # 10))
                             (with_default (rq_keyword_weight req) (2 # 10))
                             (with_default (rq_recency_weight req) (1 # 10)) /\
    forall r, In r (results resp) ->
      semantic (res_signals r) = None /\
      res_score r ==
        w_keyword (weights resp) * signal_or_zero (keyword (res_signals r))
        + w_recency (weights resp) * signal_or_zero (recency (res_signals r)) /\
      forall l x, res_related r = Some l -> In x l ->
        semantic (res_signals x) = None.
Proof.
  intros Hq Ha Hp.
  assert (Hemb : embed_with provider (or_str (rq_query req) "") = None).
  { destruct Hp as [->|(p & -> & Hp)]; [reflexivity|exact Hp]. }
  destruct (for_each_total (Forall lexical_only)
              (search_table similarity cosine_distance None
                 (or_str (rq_query req) "") (or_str (rq_agent_id req) "")
                 (with_default (rq_limit req) 20%Z))
              (tablesToSearch (rq_types req)) db) with (acc := @nil RecallResult)
    as (allResults & Hloop & Hlex).
  { intros t acc _ Hacc. now apply search_table_lexical. }
  { constructor. }
  assert (Hc : candidates_of similarity cosine_distance provider req db = (Ok allResults, db))
    by (unfold candidates_of; rewrite Hemb; exact Hloop).
  destruct (recall_total now req db allResults db Hq Ha Hc) as (resp & db' & Hresp).
  exists resp, db'. split; [exact Hresp|].
  apply recall_ok_inv in Hresp as (_ & _ & Ht & Hqr & Hw & all' & db1 & Hc' & Hres).
  rewrite Hc in Hc'. injection Hc' as <- <-.
  split; [assumption|]. split; [assumption|]. split; [assumption|].
  intros r Hr.
  destruct (Hres r Hr) as (r0 & Hr0 & Hshape).
  rewrite List.Forall_forall in Hlex. destruct (Hlex r0 Hr0) as (Hs & Hg & Hrel).
  split; [|split].
  - destruct Hshape as [-> | ->]; exact Hs.
  - rewrite Hw. cbn [w_keyword w_recency].
    assert (E : res_score r ==
                rerank_score
                  (set_recency (recency_signal now (res_created_at r0)) (res_signals r0))
                  (with_default (rq_semantic_weight req) (7 # 10))
                  (with_default (rq_keyword_weight req) (2 # 10))
                  (with_default (rq_recency_weight req) (1 # 10))
                /\ res_signals r
                   = set_recency (recency_signal now (res_created_at r0)) (res_signals r0))
      by (destruct Hshape as [-> | ->]; split; reflexivity).
    destruct E as [E1 E2]. rewrite E1, E2, rerank_score_formula.
    unfold set_recency. cbn [semantic keyword recency graph_boost].
    rewrite Hs, Hg. cbn [signal_or_zero]. ring.
  - intros l x Hl Hx. destruct Hshape as [-> | ->].
    + unfold reranked, set_score, set_signals in Hl. cbn [res_related] in Hl.
      congruence.
    + unfold set_related in Hl. cbn [res_related] in Hl. injection Hl as <-.
      apply related_item_shape in Hx as [-> _]. reflexivity.
Qed.


(** C10. Recall with [types] equal to the empty array behaves exactly like
    recall without [types]: all five tables are searched, and the two
    requests get the same answer and leave the same store. *)
Theorem C10_empty_types_like_omitted now req db :
  map rt_table (tablesToSearch (Some []))
    = [session_messages; facts; decisions; tasks; events]
  /\ tablesToSearch (Some []) = tablesToSearch None
  /\ recall similarity cosine_distance provider now (with_types (Some []) req) db
     = recall similarity cosine_distance provider now (with_types None req) db.
Proof.
  split; [reflexivity|]. split; [reflexivity|].
  unfold recall, with_types.
  cbn [rq_query rq_agent_id rq_types rq_limit rq_include_related
       rq_recency_weight rq_semantic_weight rq_keyword_weight].
  change (tablesToSearch (Some [])) with (tablesToSearch None).
  reflexivity.
Qed.

(** *** Stage 1 of duplicate detection *)


(** ** Core memory *)

Lemma find_filter_head {A} (f : A -> bool) (l : list A) (a : A) :
  List.find f l = Some a -> exists rest, List.filter f l = a :: rest.
Proof.
  induction l as [|x l IH]; simpl; [discriminate|].
  destruct (f x) eqn:E.
  - intros H. injection H as ->. eauto.
  - exact IH.
Qed.

Lemma find_In_true {A} (f : A -> bool) (l : list A) (a : A) :
  List.find f l = Some a -> In a l /\ f a = true.
Proof. apply find_some. Qed.


Lemma strip_concat_lookup (c p : gmap string json) (k : string) :
  match jsonb_strip_nulls (jsonb_concat (JObj c) (JObj p)) with
  | JObj r => r !! k = match p !! k with
                       | Some v => kept (Some v)
                       | None => kept (c !! k)
                       end
  | _ => False
  end.
Proof.
  simpl. rewrite lookup_omap.
  destruct (p !! k) as [v|] eqn:Ep.
  - rewrite (lookup_union_Some_l p c k v Ep). simpl. now destruct v.
  - rewrite (lookup_union_r p c k Ep).
    destruct (c !! k) as [v|]; simpl; [now destruct v|reflexivity].
Qed.

(** C7 (amended). The core-memory update replaces the agent's core_memory by
    the null-stripped shallow merge of the stored object and the patch, in one
    statement: a key whose patch value is null is removed; every other patched
    key is set to its patch value with the null-valued object fields inside it
    removed; a key the patch does not mention keeps its stored value, again
    with null-valued object fields removed (and is dropped if the stored value
    itself is null). The answer is 200 with the new core_memory, which is the
    value stored for the agent. *)
Theorem C7_core_memory_patch_strips_nulls now id (p c : gmap string json) db a :
  List.find (fun x => if isUuid id then String.eqb (agent_id x) id
                      else String.eqb (agent_slug x) id) (db_agents db) = Some a ->
  agent_core_memory a = JObj c ->
  exists r db',
    patch_core_memory now id (Some (JObj p)) db
      = (Ok (reply 200 (body_core_memory (JObj r))), db') /\
    (forall k, r !! k = match p !! k with
                        | Some JNull => None
                        | Some v => Some (jsonb_strip_nulls v)
                        | None => match c !! k with
                                  | Some JNull | None => None
                                  | Some v => Some (jsonb_strip_nulls v)
                                  end
                        end) /\
    In (set_core_memory now (JObj r) a) (db_agents db') /\
    length (db_agents db') = length (db_agents db).
Proof.
  intros Hfind Hcore.
  destruct (find_filter_head _ _ _ Hfind) as [rest Hfilter].
  destruct (find_In_true _ _ _ Hfind) as [Hin Hmatch].
  unfold patch_core_memory. cbn [Json.truthy typeof_object negb orb].
  unfold bind, gets, modify_db, ret. rewrite Hfilter. cbn [map].
  rewrite Hcore.
  pose proof (strip_concat_lookup c p) as Hlook.
  destruct (jsonb_strip_nulls (jsonb_concat (JObj c) (JObj p))) as [| | | | |r] eqn:E;
    try (destruct (Hlook "")).
  exists r. eexists. split; [reflexivity|]. split; [|split].
  - intros k. rewrite (Hlook k). unfold kept.
    destruct (p !! k) as [v|]; [now destruct v|reflexivity].
  - cbn [db_agents set_agents]. apply in_map_iff. exists a.
    rewrite Hmatch, Hcore, E. split; [reflexivity|assumption].
  - cbn [db_agents set_agents]. apply length_map.
Qed.

(** ** The decay sweep *)


Lemma sweep_table_effect now agentId stats db t' :
  db_decay_policies (snd (sweep_table now agentId (stats, db) t'))
    = db_decay_policies db
  /\ forall t, db_rows (snd (sweep_table now agentId (stats, db) t')) t
               = if Table_eqb t t' then swept_rows now agentId db t'
                 else db_rows db t.
Proof.
  unfold sweep_table, swept_rows.
  destruct (applicable_policy (TABLE_TO_TYPE t') agentId db) as [policy|].
  2:{ split; [reflexivity|]. intros t. destruct (Table_eqb t t') eqn:E; [|reflexivity].
      apply Table_eqb_eq in E. now subst. }
  destruct (policy_ttl_days policy) as [ttl|].
  2:{ split; [reflexivity|]. intros t. destruct (Table_eqb t t') eqn:E; [|reflexivity].
      apply Table_eqb_eq in E. now subst. }
  unfold update_status. cbn [snd db_decay_policies set_rows db_rows].
  split; [reflexivity|]. intros t. rewrite Table_eqb_refl.
  destruct (Table_eqb t t'); reflexivity.
Qed.

Lemma swept_rows_ext now agentId db1 db2 t :
  db_decay_policies db1 = db_decay_policies db2 ->
  db_rows db1 t = db_rows db2 t ->
  swept_rows now agentId db1 t = swept_rows now agentId db2 t.
Proof.
  intros Hp Hr. unfold swept_rows, applicable_policy. now rewrite Hp, Hr.
Qed.

Lemma fold_sweep_effect now agentId (l : list Table) :
  NoDup l ->
  forall st t,
    db_decay_policies (snd (fold_left (sweep_table now agentId) l st))
      = db_decay_policies (snd st)
    /\ db_rows (snd (fold_left (sweep_table now agentId) l st)) t
       = if existsb (Table_eqb t) l then swept_rows now agentId (snd st) t
         else db_rows (snd st) t.
Proof.
  induction 1 as [|t' l Hnotin Hnodup IH]; intros [stats db] t.
  - split; reflexivity.
  - cbn [fold_left existsb].
    destruct (sweep_table_effect now agentId stats db t') as [Hp Hr].
    destruct (sweep_table now agentId (stats, db) t') as [stats1 db1] eqn:E.
    cbn [snd] in Hp, Hr.
    destruct (IH (stats1, db1) t) as [Hp' Hr']. cbn [snd] in Hp', Hr'.
    cbn [snd]. split; [congruence|]. rewrite Hr', (Hr t).
    destruct (Table_eqb t t') eqn:Et.
    + apply Table_eqb_eq in Et. subst t'.
      assert (existsb (Table_eqb t) l = false) as ->; [|reflexivity].
      apply not_true_iff_false. intros Hex.
      apply existsb_exists in Hex as (x & Hx & Hxt).
      apply Table_eqb_eq in Hxt. subst x. apply Hnotin. now apply list_elem_of_In.
    + cbn [orb]. destruct (existsb (Table_eqb t) l); [|reflexivity].
      apply swept_rows_ext; [assumption|]. rewrite (Hr t), Et. reflexivity.
Qed.

Lemma runDecaySweep_rows now agentId db t :
  db_rows (snd (runDecaySweep now agentId db)) t = swept_rows now agentId db t.
Proof.
  unfold runDecaySweep.
  destruct (fold_sweep_effect now agentId MEMORY_TABLES) with
    (st := (mkStats 0 0 0, db)) (t := t) as [_ Hr].
  { unfold MEMORY_TABLES. repeat constructor; rewrite ?list_elem_of_In; simpl;
      intuition discriminate. }
  rewrite Hr. now destruct t.
Qed.

Lemma touch_decay_status t now r :
  row_decay_status (touch t now r) = row_decay_status r.
Proof. unfold touch. now destruct (has_updated_at_trigger t). Qed.

(** The agent's own policy wins over the global default. *)
Lemma applicable_policy_most_specific memType agent db p q :
  applicable_policy memType (Some agent) db = Some p ->
  In q (db_decay_policies db) ->
  policy_memory_type q = memType -> policy_agent_id q = Some agent ->
  policy_agent_id p = Some agent.
Proof.
  unfold applicable_policy. intros Hp Hq Hty Hag.
  set (matching := List.filter _ (db_decay_policies db)) in Hp.
  assert (Hqm : In q matching).
  { apply filter_In. split; [assumption|].
    rewrite Hty, Hag, String.eqb_refl. simpl. now rewrite String.eqb_refl. }
  destruct (List.filter (fun p => negb (is_null_id (policy_agent_id p))) matching)
    as [|p0 rest] eqn:E.
  - exfalso. assert (Hin : In q []); [|destruct Hin].
    rewrite <- E. apply filter_In. split; [assumption|]. now rewrite Hag.
  - simpl in Hp. injection Hp as <-.
    assert (Hp0 : In p0 (p0 :: rest)) by now left.
    rewrite <- E in Hp0. apply filter_In in Hp0 as [Hp0 Hnn].
    apply filter_In in Hp0 as [_ Hc].
    apply andb_true_iff in Hc as [_ Hc].
    destruct (policy_agent_id p0) as [a|]; [|discriminate].
    simpl in Hc. rewrite orb_false_r in Hc. apply String.eqb_eq in Hc. now subst.
Qed.


Lemma stale_spec now agentId t min_accesses ttl_days r :
  row_decay_status r = active -> in_scope agentId r = true ->
  stale now (ts_created (TABLE_TIMESTAMPS t)) agentId min_accesses ttl_days r = true
  <-> ((row_access_count r < min_accesses)%Z /\
       ((row_last_accessed_at r = None /\
         (match t with events => row_occurred_at r | _ => row_created_at r end
          < now - day_ms * ttl_days)%Z)
        \/ (exists la, row_last_accessed_at r = Some la /\
                       (la < now - day_ms * ttl_days)%Z))).
Proof.
  intros Hact Hscope. unfold stale. apply is_active_eq in Hact.
  rewrite Hact, Hscope. cbn [andb]. rewrite andb_true_iff, Z.ltb_lt.
  assert (Hc : time_col (ts_created (TABLE_TIMESTAMPS t)) r
               = match t with events => row_occurred_at r | _ => row_created_at r end)
    by now destruct t.
  rewrite Hc.
  destruct (row_last_accessed_at r) as [la|]; rewrite Z.ltb_lt; split.
  - intros [H1 H2]. split; [assumption|]. right. eauto.
  - intros [H1 [[H2 _]|(la' & H2 & H3)]]; [discriminate|].
    injection H2 as <-. auto.
  - intros [H1 H2]. split; [assumption|]. left. auto.
  - intros [H1 [[_ H2]|(la' & H2 & _)]]; [auto|discriminate].
Qed.

(** What a sweep does to an active item in its scope, on the policy the
    sweep resolved with its agent argument: the item moves out of active -- to
    cooling -- exactly when it is stale under that policy. With no resolved
    policy or a null ttl_days nothing of that type moves; an item with
    access_count >= min_accesses stays active and unchanged. The cooled row is
    what the first UPDATE of the sweep writes; the second UPDATE of the same
    sweep may archive it at once. *)
Lemma sweep_cools_exactly_when_stale_under_its_policy now agentId db t i r :
  db_rows db t !! i = Some r ->
  row_decay_status r = active ->
  in_scope agentId r = true ->
  let cooled := touch t now (set_decay_status cooling r) in
  exists r',
    db_rows (snd (runDecaySweep now agentId db)) t !! i = Some r' /\
    (row_decay_status r' <> active <-> stale_under_sweep_policy now agentId db t r) /\
    (stale_under_sweep_policy now agentId db t r ->
       r' = cooled \/ r' = touch t now (set_decay_status archived cooled)) /\
    (~ stale_under_sweep_policy now agentId db t r -> r' = r).
Proof.
  intros Hi Hact Hscope cooled.
  rewrite runDecaySweep_rows. unfold swept_rows.
  destruct (applicable_policy (TABLE_TO_TYPE t) agentId db) as [p|] eqn:Ep.
  2:{ exists r. split; [assumption|].
      assert (Hno : ~ stale_under_sweep_policy now agentId db t r)
        by (intros (p & ttl & H & _); congruence).
      repeat split; intros; try contradiction; congruence. }
  destruct (policy_ttl_days p) as [ttl|] eqn:Ettl.
  2:{ exists r. split; [assumption|].
      assert (Hno : ~ stale_under_sweep_policy now agentId db t r)
        by (intros (p' & ttl & H & H' & _); congruence).
      repeat split; intros; try contradiction; congruence. }
  change (@map Row Row) with (@fmap list _ Row Row).
  rewrite !list_lookup_fmap, Hi. cbn [fmap option_fmap option_map].
  pose proof (stale_spec now agentId t (policy_min_accesses p) ttl r Hact Hscope)
    as Hspec.
  destruct (stale now (ts_created (TABLE_TIMESTAMPS t)) agentId
              (policy_min_accesses p) ttl r) eqn:Es.
  - assert (Hd : stale_under_sweep_policy now agentId db t r).
    { exists p, ttl. destruct Hspec as [Hspec _].
      destruct (Hspec eq_refl) as [H1 H2]. auto. }
    fold cooled. eexists. split; [reflexivity|].
    assert (Hst : row_decay_status cooled = cooling)
      by (unfold cooled; now rewrite touch_decay_status).
    destruct (cooled_long now (ts_updated (TABLE_TIMESTAMPS t)) agentId cooled).
    + rewrite touch_decay_status. cbn [set_decay_status row_decay_status].
      repeat split; intros; auto; try discriminate; contradiction.
    + rewrite Hst. repeat split; intros; auto; try discriminate; contradiction.
  - assert (Hno : ~ stale_under_sweep_policy now agentId db t r).
    { intros (p' & ttl' & H1 & H2 & H3 & H4).
      rewrite Ep in H1. injection H1 as <-. rewrite Ettl in H2. injection H2 as <-.
      destruct Hspec as [_ Hspec]. specialize (Hspec (conj H3 H4)). congruence. }
    assert (Hcl : cooled_long now (ts_updated (TABLE_TIMESTAMPS t)) agentId r = false)
      by (unfold cooled_long; now rewrite Hact).
    rewrite Hcl. exists r. split; [reflexivity|].
    repeat split; intros; try contradiction; congruence.
Qed.

(** *** The policy a sweep resolves, against the most-specific policy *)

Lemma head_filter_find {A} (f : A -> bool) (l : list A) :
  head (List.filter f l) = List.find f l.
Proof.
  induction l as [|a l IH]; cbn [List.filter List.find]; [reflexivity|].
  destruct (f a); [reflexivity|exact IH].
Qed.

Lemma head_app_list {A} (l1 l2 : list A) :
  head (l1 ++ l2)%list = match head l1 with Some x => Some x | None => head l2 end.
Proof. now destruct l1. Qed.

Lemma filter_filter_and {A} (f g : A -> bool) (l : list A) :
  List.filter f (List.filter g l) = List.filter (fun x => g x && f x) l.
Proof.
  induction l as [|a l IH]; cbn [List.filter]; [reflexivity|].
  destruct (g a); cbn [List.filter andb]; [destruct (f a)|]; now rewrite IH.
Qed.

(** With an agent given, the sweep's query resolves the most-specific
    policy of that agent. *)
Lemma applicable_policy_scoped memType agent db :
  applicable_policy memType (Some agent) db = most_specific_policy memType agent db.
Proof.
  unfold applicable_policy, most_specific_policy.
  rewrite head_app_list, !filter_filter_and, !head_filter_find.
  assert (E1 : forall l,
             List.find (fun p => String.eqb (policy_memory_type p) memType
                                 && (opt_id_eqb (policy_agent_id p) (Some agent)
                                     || is_null_id (policy_agent_id p))
                                 && negb (is_null_id (policy_agent_id p))) l
             = List.find (fun p => String.eqb (policy_memory_type p) memType
                                   && opt_id_eqb (policy_agent_id p) (Some agent)) l).
  { induction l as [|p l IH]; cbn [List.find]; [reflexivity|]. rewrite IH.
    destruct (String.eqb (policy_memory_type p) memType), (policy_agent_id p) as [x|];
      cbn [andb orb negb opt_id_eqb is_null_id]; try reflexivity.
    now rewrite orb_false_r, andb_true_r. }
  assert (E2 : forall l,
             List.find (fun p => String.eqb (policy_memory_type p) memType
                                 && (opt_id_eqb (policy_agent_id p) (Some agent)
                                     || is_null_id (policy_agent_id p))
                                 && is_null_id (policy_agent_id p)) l
             = List.find (fun p => String.eqb (policy_memory_type p) memType
                                   && is_null_id (policy_agent_id p)) l).
  { induction l as [|p l IH]; cbn [List.find]; [reflexivity|]. rewrite IH.
    destruct (String.eqb (policy_memory_type p) memType), (policy_agent_id p) as [x|];
      cbn [andb orb negb opt_id_eqb is_null_id]; try reflexivity.
    now rewrite orb_false_r, andb_false_r. }
  now rewrite E1, E2.
Qed.

(** Without an agent the comparison [agent_id = $2] is with NULL and
    matches no row: only the global policy is resolved. *)
Lemma applicable_policy_unscoped memType db :
  applicable_policy memType None db
  = List.find (fun p => String.eqb (policy_memory_type p) memType
                        && is_null_id (policy_agent_id p))
              (db_decay_policies db).
Proof.
  unfold applicable_policy.
  rewrite head_app_list, !filter_filter_and, !head_filter_find.
  assert (E1 : forall l,
             List.find (fun p => String.eqb (policy_memory_type p) memType
                                 && (opt_id_eqb (policy_agent_id p) None
                                     || is_null_id (policy_agent_id p))
                                 && negb (is_null_id (policy_agent_id p))) l = None).
  { induction l as [|p l IH]; cbn [List.find]; [reflexivity|]. rewrite IH.
    now destruct (String.eqb (policy_memory_type p) memType),
      (policy_agent_id p) as [x|]. }
  rewrite E1.
  induction (db_decay_policies db) as [|p l IH]; cbn [List.find]; [reflexivity|].
  rewrite IH.
  now destruct (String.eqb (policy_memory_type p) memType), (policy_agent_id p) as [x|].
Qed.

(** A sweep scoped to an agent does what is asked of a sweep: an active
    item of that agent moves out of active -- to cooling -- exactly when it is
    stale under its most-specific policy, and is unchanged otherwise. *)
Lemma scoped_sweep_follows_the_most_specific_policy now agent db t i r :
  agent <> "" ->
  db_rows db t !! i = Some r ->
  row_decay_status r = active ->
  row_agent_id r = agent ->
  let cooled := touch t now (set_decay_status cooling r) in
  exists r',
    db_rows (snd (runDecaySweep now (Some agent) db)) t !! i = Some r' /\
    (row_decay_status r' <> active <-> decays now db t r) /\
    (decays now db t r ->
       r' = cooled \/ r' = touch t now (set_decay_status archived cooled)) /\
    (~ decays now db t r -> r' = r).
Proof.
  intros Hne Hi Hact Hagent cooled.
  assert (Hscope : in_scope (Some agent) r = true).
  { unfold in_scope. cbn [truthy_str or_str].
    apply String.eqb_neq in Hne. rewrite Hne. cbn [negb].
    now apply String.eqb_eq. }
  assert (Heq : stale_under_sweep_policy now (Some agent) db t r <-> decays now db t r).
  { unfold stale_under_sweep_policy, decays.
    now rewrite applicable_policy_scoped, Hagent. }
  destruct (sweep_cools_exactly_when_stale_under_its_policy
              now (Some agent) db t i r Hi Hact Hscope)
    as (r' & H1 & H2 & H3 & H4).
  exists r'. split; [exact H1|]. rewrite <- Heq. auto.
Qed.

(** A sweep without an agent applies the global policy to the rows of
    every agent: an active item that is stale under the global policy of its
    type moves out of active, whatever the policy of its own agent -- also
    when that policy has no TTL, so that the item is not to cool. *)
Lemma unscoped_sweep_applies_the_global_policy now db t i r own glob ttl_days :
  db_rows db t !! i = Some r ->
  row_decay_status r = active ->
  most_specific_policy (TABLE_TO_TYPE t) (row_agent_id r) db = Some own ->
  policy_ttl_days own = None ->
  applicable_policy (TABLE_TO_TYPE t) None db = Some glob ->
  policy_ttl_days glob = Some ttl_days ->
  (row_access_count r < policy_min_accesses glob)%Z ->
  ((row_last_accessed_at r = None /\
    (match t with events => row_occurred_at r | _ => row_created_at r end
     < now - day_ms * ttl_days)%Z)
   \/ (exists la, row_last_accessed_at r = Some la /\
                  (la < now - day_ms * ttl_days)%Z)) ->
  ~ decays now db t r /\
  exists r',
    db_rows (snd (runDecaySweep now None db)) t !! i = Some r' /\
    row_decay_status r' <> active.
Proof.
  intros Hi Hact Hown Hnone Hglob Httl Hacc Hold. split.
  - intros (p & ttl & H1 & H2 & _). congruence.
  - destruct (sweep_cools_exactly_when_stale_under_its_policy
                now None db t i r Hi Hact eq_refl)
      as (r' & H1 & H2 & _).
    exists r'. split; [exact H1|]. apply H2.
    exists glob, ttl_days. auto.
Qed.

(** ** Edges *)


Lemma key_eqb_eq k1 k2 : key_eqb k1 k2 = true <-> k1 = k2.
Proof.
  destruct k1 as [[[[a1 b1] c1] d1] e1], k2 as [[[[a2 b2] c2] d2] e2].
  unfold key_eqb. rewrite !andb_true_iff, !String.eqb_eq.
  split; [intros [[[[-> ->] ->] ->] ->]; reflexivity|].
  intros H. injection H as -> -> -> -> ->. auto.
Qed.

Lemma key_eqb_refl k : key_eqb k k = true.
Proof. now apply key_eqb_eq. Qed.

Lemma edge_key_mk_edge id agent k w md now :
  edge_key (mk_edge id agent k w md now) = k.
Proof. now destruct k as [[[[a b] c] d] e]. Qed.

Lemma edge_key_set_weight_metadata w md e :
  edge_key (set_weight_metadata w md e) = edge_key e.
Proof. reflexivity. Qed.

Lemma NoDup_map_In_inj {A B} (f : A -> B) (l : list A) (x y : A) :
  NoDup (map f l) -> In x l -> In y l -> f x = f y -> x = y.
Proof.
  induction l as [|a l IH]; simpl; [intros _ []|].
  intros Hnd Hx Hy E. apply NoDup_cons in Hnd as [Hnotin Hnd].
  rewrite list_elem_of_In in Hnotin.
  destruct Hx as [->|Hx], Hy as [->|Hy]; auto.
  - exfalso. apply Hnotin. rewrite E. now apply in_map.
  - exfalso. apply Hnotin. rewrite <- E. now apply in_map.
Qed.

Lemma find_map_update k w md (l : list Edge) old :
  List.find (fun e => key_eqb (edge_key e) k) l = Some old ->
  List.find (fun e => key_eqb (edge_key e) k)
            (map (fun e => if key_eqb (edge_key e) k
                           then set_weight_metadata w md e else e) l)
    = Some (set_weight_metadata w md old).
Proof.
  induction l as [|x l IH]; cbn [List.find map]; [discriminate|].
  destruct (key_eqb (edge_key x) k) eqn:E.
  - intros H. injection H as ->.
    now rewrite edge_key_set_weight_metadata, E.
  - rewrite E. exact IH.
Qed.

Lemma map_key_update k w md (l : list Edge) :
  map edge_key (map (fun e => if key_eqb (edge_key e) k
                              then set_weight_metadata w md e else e) l)
    = map edge_key l.
Proof.
  rewrite map_map. apply map_ext. intros e. now destruct (key_eqb (edge_key e) k).
Qed.

Lemma find_app_new k (l : list Edge) e :
  List.find (fun x => key_eqb (edge_key x) k) l = None ->
  edge_key e = k ->
  List.find (fun x => key_eqb (edge_key x) k) (l ++ [e]) = Some e.
Proof.
  intros Hnone He. induction l as [|x l IH]; cbn [List.find app] in *.
  - now rewrite He, key_eqb_refl.
  - destruct (key_eqb (edge_key x) k); [discriminate|auto].
Qed.

(** What a successful upsert returns and leaves behind. *)
Lemma upsert_edge_ok now agent k w md db e db1 :
  upsert_edge now agent k w md db = (Ok e, db1) ->
  edge_checks k = true /\
  edge_key e = k /\ edge_weight e = w /\ edge_metadata e = md /\
  List.find (fun x => key_eqb (edge_key x) k) (db_memory_edges db1) = Some e /\
  (edges_unique db -> edges_unique db1) /\
  match List.find (fun x => key_eqb (edge_key x) k) (db_memory_edges db) with
  | Some old => edge_id e = edge_id old
                /\ length (db_memory_edges db1) = length (db_memory_edges db)
  | None => length (db_memory_edges db1) = S (length (db_memory_edges db))
  end.
Proof.
  unfold upsert_edge, edges_unique.
  destruct (edge_checks k); [|discriminate]. cbn [negb].
  destruct (List.find _ (db_memory_edges db)) as [old|] eqn:Ef.
  - intros H. apply Ok_pair_inv in H as [<- <-]. cbn [db_memory_edges set_memory_edges].
    pose proof (find_some _ _ Ef) as [_ Hk]. apply key_eqb_eq in Hk.
    repeat split; try reflexivity; try assumption.
    + now apply find_map_update.
    + now rewrite map_key_update.
    + apply length_map.
  - destruct (agent_exists agent db); [|discriminate]. cbn [negb].
    intros H. apply Ok_pair_inv in H as [<- <-].
    cbn [db_memory_edges set_memory_edges set_uuids].
    repeat split; try apply edge_key_mk_edge;
      try (now destruct k as [[[[a b] c] d] e0]).
    + apply find_app_new; [assumption|apply edge_key_mk_edge].
    + intros Hnd. rewrite map_app. cbn [map]. rewrite edge_key_mk_edge.
      apply NoDup_app. split; [assumption|]. split; [|repeat constructor; intros Hx; inversion Hx].
      intros x Hx Hx'. apply list_elem_of_In in Hx, Hx'.
      destruct Hx' as [<-|[]].
      apply in_map_iff in Hx as (e' & He' & Hin).
      pose proof (find_none _ _ Ef e' Hin) as Hne. cbv beta in Hne.
      rewrite He', key_eqb_refl in Hne. discriminate.
    + rewrite length_app. simpl. lia.
Qed.

Lemma post_edge_created now req db e db1 :
  post_edge now req db = (Ok (reply 201 (body_edge e)), db1) ->
  upsert_edge now (or_str (gq_agent_id req) "") (request_key req)
              (match gq_weight req with Some w => w | None => 1 end)
              (or_empty_object (gq_metadata req)) db = (Ok e, db1).
Proof.
  unfold post_edge.
  destruct (_ || _); [unfold ret; intros H; discriminate H|].
  unfold try_catch, bind.
  destruct (upsert_edge _ _ _ _ _ db) as [[e'|err] db'];
    unfold ret; intros H;
    first [discriminate H
          | apply Ok_pair_inv in H as [H <-]; injection H as <-; reflexivity].
Qed.

Lemma truthy_or_str o : truthy_str o = true <-> or_str o "" <> "".
Proof.
  destruct o as [s|]; simpl; [|split; [discriminate|congruence]].
  destruct (String.eqb s "") eqn:E; simpl.
  - split; [discriminate|congruence].
  - apply String.eqb_neq in E. split; auto.
Qed.

(** C6. Edge creation is an upsert on (source_type, source_id, target_type,
    target_id, relation): once a POST has created or updated an edge, a POST
    of the same five-tuple answers 201 with the same edge id, adds no row, and
    the one stored edge with that tuple carries the weight and metadata of
    the latest request (defaults 1.0 and {}). *)
Theorem C6_edge_upsert_idempotent_on_tuple now1 now2 req1 req2 db e1 db1 :
  edges_unique db ->
  post_edge now1 req1 db = (Ok (reply 201 (body_edge e1)), db1) ->
  truthy_str (gq_agent_id req2) = true ->
  request_key req2 = request_key req1 ->
  exists e2 db2,
    post_edge now2 req2 db1 = (Ok (reply 201 (body_edge e2)), db2) /\
    edge_id e2 = edge_id e1 /\
    length (db_memory_edges db2) = length (db_memory_edges db1) /\
    edge_weight e2 = with_default (gq_weight req2) 1%Q /\
    edge_metadata e2 = or_empty_object (gq_metadata req2) /\
    In e2 (db_memory_edges db2) /\
    (forall e, In e (db_memory_edges db2) -> edge_key e = request_key req1 -> e = e2).
Proof.
  intros Hu H1 Hagent Hkey.
  pose proof H1 as Hvalid. unfold post_edge, ret in Hvalid.
  destruct (truthy_str (gq_agent_id req1)) eqn:G0; [|discriminate Hvalid].
  destruct (truthy_str (gq_source_type req1)) eqn:G1; [|discriminate Hvalid].
  destruct (truthy_str (gq_source_id req1)) eqn:G2; [|discriminate Hvalid].
  destruct (truthy_str (gq_target_type req1)) eqn:G3; [|discriminate Hvalid].
  destruct (truthy_str (gq_target_id req1)) eqn:G4; [|discriminate Hvalid].
  destruct (truthy_str (gq_relation req1)) eqn:G5; [|discriminate Hvalid].
  clear Hvalid. apply truthy_or_str in G1, G2, G3, G4, G5.
  apply post_edge_created in H1.
  apply upsert_edge_ok in H1 as (Hchk & Hk1 & _ & _ & Hfind1 & Hu1 & _).
  specialize (Hu1 Hu).
  assert (Hguard2 :
            negb (truthy_str (gq_agent_id req2)) || negb (truthy_str (gq_source_type req2))
            || negb (truthy_str (gq_source_id req2))
            || negb (truthy_str (gq_target_type req2))
            || negb (truthy_str (gq_target_id req2))
            || negb (truthy_str (gq_relation req2)) = false).
  { unfold request_key in Hkey. injection Hkey as E1 E2 E3 E4 E5.
    rewrite Hagent. cbn [negb orb].
    repeat (apply orb_false_iff; split);
      apply negb_false_iff, truthy_or_str; congruence. }
  destruct (upsert_edge now2 (or_str (gq_agent_id req2) "") (request_key req2)
              (match gq_weight req2 with Some w => w | None => 1 end)
              (or_empty_object (gq_metadata req2)) db1) as [out db2] eqn:Hup.
  assert (Hout : exists e2, out = Ok e2).
  { unfold upsert_edge in Hup. rewrite Hkey, Hchk, Hfind1 in Hup. cbn [negb] in Hup.
    injection Hup as <- _. eauto. }
  destruct Hout as [e2 ->].
  exists e2, db2. split.
  { unfold post_edge. rewrite Hguard2. unfold try_catch, bind. rewrite Hup.
    reflexivity. }
  apply upsert_edge_ok in Hup as (_ & Hk2 & Hw & Hmd & Hfind2 & Hu2 & Hold).
  rewrite Hkey, Hfind1 in Hold. destruct Hold as [Hid Hlen].
  specialize (Hu2 Hu1).
  pose proof (find_some _ _ Hfind2) as [Hin2 _].
  repeat split; try assumption.
  intros e He Hke. apply (NoDup_map_In_inj edge_key (db_memory_edges db2));
    try assumption. congruence.
Qed.

(** ** Ingestion *)


Lemma preserves_ret I {A} (a : A) : preserves I (ret a).
Proof. unfold preserves, ret. intros db out db' H E. now injection E as _ <-. Qed.

Lemma preserves_gets I {A} (f : DB -> A) : preserves I (gets f).
Proof. unfold preserves, gets. intros db out db' H E. now injection E as _ <-. Qed.

Lemma preserves_bind I {A B} (c : Eff A) (k : A -> Eff B) :
  preserves I c -> (forall a, preserves I (k a)) -> preserves I (bind c k).
Proof.
  unfold preserves, bind. intros Hc Hk db out db' H E.
  destruct (c db) as [[a|e] db1] eqn:Ec.
  - eapply Hk; [|exact E]. eapply Hc; eauto.
  - injection E as _ <-. eapply Hc; eauto.
Qed.

Lemma preserves_for_each I {A S} (body : S -> A -> Eff S) (xs : list A) :
  (forall acc x, preserves I (body acc x)) ->
  forall acc, preserves I (for_each xs acc body).
Proof.
  intros Hbody. induction xs as [|x xs IH]; intros acc; simpl.
  - apply preserves_ret.
  - apply preserves_bind; [apply Hbody|]. intros acc'. apply IH.
Qed.


Lemma insert_row_inv t now agent p emb occurred db out db' :
  insert_row t now agent p emb occurred db = (out, db') ->
  (exists e, out = Throw e /\ db' = db)
  \/ (exists r, out = Ok r /\
        agent_exists agent db' = true /\
        db_memory_edges db' = db_memory_edges db /\
        forall t', db_rows db' t'
                   = if Table_eqb t' t then (db_rows db t ++ [r])%list
                     else db_rows db t').
Proof.
  unfold insert_row.
  destruct (row_checks t p); cbn [negb];
    [|intros H; apply pair_equal_spec in H as [<- <-]; left; eauto].
  destruct (agent_exists agent db) eqn:Ea; cbn [negb];
    [|intros H; apply pair_equal_spec in H as [<- <-]; left; eauto].
  destruct (opt_ref session_exists (p_session_id p) db); cbn [negb];
    [|intros H; apply pair_equal_spec in H as [<- <-]; left; eauto].
  destruct (opt_ref project_exists (p_project_id p) db); cbn [negb];
    [|intros H; apply pair_equal_spec in H as [<- <-]; left; eauto].
  intros H. apply pair_equal_spec in H as [<- <-]. right.
  eexists. split; [reflexivity|]. repeat split; assumption || reflexivity.
Qed.

Lemma insert_edge_do_nothing_ok now agent k db :
  edge_checks k = true -> agent_exists agent db = true ->
  exists db',
    insert_edge_do_nothing now agent k db = (Ok tt, db') /\
    db_rows db' = db_rows db /\
    (forall e, In e (db_memory_edges db) -> In e (db_memory_edges db')) /\
    (exists e, In e (db_memory_edges db') /\ edge_key e = k).
Proof.
  intros Hc Ha. unfold insert_edge_do_nothing. rewrite Hc, Ha. cbn [negb].
  destruct (existsb _ (db_memory_edges db)) eqn:Ex.
  - exists db. repeat split; auto.
    apply existsb_exists in Ex as (e & He & Hk). apply key_eqb_eq in Hk. eauto.
  - eexists. split; [reflexivity|].
    cbn [db_rows db_memory_edges set_uuids set_memory_edges].
    repeat split.
    + intros e He. apply in_or_app. now left.
    + eexists. split; [apply in_or_app; right; now left|apply edge_key_mk_edge].
Qed.

(** Idempotence of the edge insert: a second insert of the tuple changes
    nothing. *)
Lemma insert_edge_do_nothing_idempotent now now' agent agent' k db db' :
  insert_edge_do_nothing now agent k db = (Ok tt, db') ->
  insert_edge_do_nothing now' agent' k db' = (Ok tt, db').
Proof.
  unfold insert_edge_do_nothing.
  destruct (edge_checks k); cbn [negb]; [|discriminate].
  destruct (existsb _ (db_memory_edges db)) eqn:Ex.
  - intros H. apply Ok_pair_inv in H as [_ <-]. now rewrite Ex.
  - destruct (agent_exists agent db); cbn [negb]; [|discriminate].
    intros H. apply Ok_pair_inv in H as [_ <-].
    cbn [db_memory_edges set_uuids set_memory_edges].
    rewrite existsb_app. cbn [existsb].
    now rewrite edge_key_mk_edge, key_eqb_refl, orb_true_r.
Qed.

(** One extracted item: insert the row, then its edge to the session. *)
Lemma store_step_linked db0 t now agent sid p emb {S} (f : Row -> S) :
  t <> session_messages ->
  preserves (derived_rows_linked db0 sid)
    (row <- insert_row t now agent p emb None ;;
     insert_edge_do_nothing now agent
       (TABLE_TO_TYPE t, row_id row, "session", sid, derivation_relation t) ;;;
     ret (f row)).
Proof.
  intros Ht db out db' Hinv. unfold bind.
  destruct (insert_row t now agent p emb None db) as [o db1] eqn:Ei.
  apply insert_row_inv in Ei as [(e & -> & ->)|(r & -> & Ha & He & Hrows)].
  { intros H. now injection H as _ <-. }
  destruct (insert_edge_do_nothing_ok now agent
              (TABLE_TO_TYPE t, row_id r, "session", sid, derivation_relation t) db1)
    as (db2 & -> & Hrows2 & Hmono & enew & Henew & Hknew);
    [now destruct t|assumption|].
  unfold ret. intros H. injection H as _ <-.
  intros t' row Ht' Hin. rewrite Hrows2, Hrows in Hin.
  assert (Hold : In row (db_rows db t') -> In row (db_rows db0 t')
                                           \/ has_derivation_edge db2 t' sid row).
  { intros Hin'. destruct (Hinv t' row Ht' Hin') as [?|(e & He1 & He2)]; [now left|].
    right. exists e. split; [|assumption]. apply Hmono. now rewrite He. }
  destruct (Table_eqb t' t) eqn:Et; [|auto].
  apply Table_eqb_eq in Et. subst t'.
  apply in_app_or in Hin as [Hin|[<-|[]]]; [auto|].
  right. exists enew. auto.
Qed.

Lemma storeExtractedItems_linked db0 now agent sid extracted embeddingProvider :
  preserves (derived_rows_linked db0 sid)
    (storeExtractedItems now agent sid extracted embeddingProvider).
Proof.
  unfold storeExtractedItems.
  repeat (apply preserves_bind; [|intros ?]);
    apply preserves_for_each; intros acc x.
  - apply (store_step_linked db0 facts); discriminate.
  - apply (store_step_linked db0 decisions); discriminate.
  - apply (store_step_linked db0 tasks); discriminate.
  - apply (store_step_linked db0 events); discriminate.
Qed.

Lemma insert_message_linked db0 now agent sid p emb :
  preserves (derived_rows_linked db0 sid)
    (insert_row session_messages now agent p emb None).
Proof.
  intros db out db' Hinv Ei.
  apply insert_row_inv in Ei as [(e & -> & ->)|(r & -> & Ha & He & Hrows)];
    [assumption|].
  intros t row Ht Hin. rewrite Hrows in Hin.
  destruct (Table_eqb t session_messages) eqn:Et;
    [apply Table_eqb_eq in Et; contradiction|].
  destruct (Hinv t row Ht Hin) as [?|(e & He1 & He2)]; [now left|].
  right. exists e. split; [|assumption]. now rewrite He.
Qed.

(** C5. After addMessage, every fact, decision, task or event row the
    ingestion added has an edge from the item to the session: relation
    derived_from for facts, tasks and events, decided_in for decisions. The
    edge insert is idempotent: repeating it for the same tuple changes
    nothing. *)
Theorem C5_extracted_items_have_session_edge now sessionId req db out db' :
  addMessage provider extractStructuredItems now sessionId req db = (out, db') ->
  (forall t row,
      t <> session_messages ->
      In row (db_rows db' t) -> ~ In row (db_rows db t) ->
      exists e,
        In e (db_memory_edges db') /\
        edge_source_type e = TABLE_TO_TYPE t /\ edge_source_id e = row_id row /\
        edge_target_type e = "session" /\ edge_target_id e = sessionId /\
        edge_relation e = match t with
                          | decisions => "decided_in"
                          | _ => "derived_from"
                          end)
  /\ (forall now1 now2 agent1 agent2 k db1 db2,
        insert_edge_do_nothing now1 agent1 k db1 = (Ok tt, db2) ->
        insert_edge_do_nothing now2 agent2 k db2 = (Ok tt, db2)).
Proof.
  intros H. split; [|intros; eapply insert_edge_do_nothing_idempotent; eauto].
  assert (Hpres : preserves (derived_rows_linked db sessionId)
                    (addMessage provider extractStructuredItems now sessionId req)).
  { unfold addMessage.
    destruct (_ || _); [apply preserves_ret|].
    apply preserves_bind; [apply preserves_gets|]. intros [|s sessions];
      [apply preserves_ret|].
    apply preserves_bind; [apply insert_message_linked|]. intros message.
    apply preserves_bind; [apply preserves_gets|]. intros recentMsgs.
    apply preserves_bind; [apply storeExtractedItems_linked|]. intros stored.
    apply preserves_ret. }
  assert (Hinit : derived_rows_linked db sessionId db)
    by (intros t row _ Hin; now left).
  pose proof (Hpres db out db' Hinit H) as Hinv.
  intros t row Ht Hin Hnew.
  destruct (Hinv t row Ht Hin) as [?|(e & He & Hk)]; [contradiction|].
  exists e. unfold edge_key in Hk. injection Hk as -> -> -> -> ->.
  repeat split; try assumption; now destruct t.
Qed.

(** ** Direct writes

    Facts, decisions and tasks are checked for duplicates before the insert:
    a match is answered 409 and leaves the store as it was; without a match
    the row is inserted, unless a constraint of the table rejects it. The
    handlers for events and projects have no such check. *)

Lemma post_fact_conflict now req db d :
  truthy_str (fq_agent_id req) = true -> truthy_str (fq_content req) = true ->
  checkDuplicate similarity cosine_distance provider facts
                 (or_str (fq_agent_id req) "") (or_str (fq_content req) "") db = Some d ->
  post_fact similarity cosine_distance provider now req db
    = (Ok (reply 409 (body_duplicate "Duplicate fact detected"
                                     (dm_id d) (dm_similarity d))), db).
Proof.
  intros Ha Hc Hd. unfold post_fact. rewrite Ha, Hc. cbn [negb orb].
  unfold bind, gets. now rewrite Hd.
Qed.

Lemma post_decision_conflict now req db d :
  truthy_str (dq_agent_id req) = true -> truthy_str (dq_title req) = true ->
  truthy_str (dq_decision req) = true ->
  checkDuplicate similarity cosine_distance provider decisions
                 (or_str (dq_agent_id req) "")
                 (or_str (dq_title req) "" ++ ": " ++ or_str (dq_decision req) "") db
    = Some d ->
  post_decision similarity cosine_distance provider now req db
    = (Ok (reply 409 (body_duplicate "Duplicate decision detected"
                                     (dm_id d) (dm_similarity d))), db).
Proof.
  intros Ha Ht Hc Hd. unfold post_decision. rewrite Ha, Ht, Hc. cbn [negb orb].
  unfold bind, gets. now rewrite Hd.
Qed.

Lemma post_task_conflict now req db d :
  truthy_str (tq_agent_id req) = true -> truthy_str (tq_title req) = true ->
  checkDuplicate similarity cosine_distance provider tasks
                 (or_str (tq_agent_id req) "") (or_str (tq_title req) "") db = Some d ->
  post_task similarity cosine_distance provider now req db
    = (Ok (reply 409 (body_duplicate "Duplicate task detected"
                                     (dm_id d) (dm_similarity d))), db).
Proof.
  intros Ha Ht Hd. unfold post_task. rewrite Ha, Ht. cbn [negb orb].
  unfold bind, gets. now rewrite Hd.
Qed.

Lemma post_fact_inserts now req db out db' :
  truthy_str (fq_agent_id req) = true -> truthy_str (fq_content req) = true ->
  checkDuplicate similarity cosine_distance provider facts
                 (or_str (fq_agent_id req) "") (or_str (fq_content req) "") db = None ->
  post_fact similarity cosine_distance provider now req db = (out, db') ->
  (exists e, out = Throw e /\ db' = db)
  \/ (exists row, out = Ok (reply 201 (body_row row)) /\
        p_content (row_payload row) = or_str (fq_content req) "" /\
        db_rows db' facts = (db_rows db facts ++ [row])%list).
Proof.
  intros Ha Hc Hd. unfold post_fact. rewrite Ha, Hc. cbn [negb orb].
  unfold bind at 1. unfold gets. rewrite Hd. unfold bind.
  destruct (insert_row facts now _ _ _ None db) as [o db1] eqn:Ei.
  pose proof Ei as Ei'.
  apply insert_row_inv in Ei as [(e & -> & ->)|(r & -> & _ & _ & Hrows)].
  - intros H. apply pair_equal_spec in H as [<- <-]. left. eauto.
  - unfold ret. intros H. apply pair_equal_spec in H as [<- <-]. right.
    exists r. split; [reflexivity|]. split; [|now rewrite (Hrows facts)].
    unfold insert_row in Ei'.
    repeat match type of Ei' with
           | (if ?c then _ else _) = _ => destruct c; [discriminate Ei'|]
           end.
    apply Ok_pair_inv in Ei' as [<- _]. reflexivity.
Qed.

End Contract.

(** * The contract on the worked examples *)

(** C1 at work: recall over the example store answers, and its results
    carry the weighted sum. *)
Lemma C1_recall_score_witness :
  let out := recall Demo.similarity Demo.cosine_distance (Some Demo.embed)
                    Demo.now Demo.recall_request Demo.store in
  let resp := Demo.recall_of (Demo.answer out Demo.no_answer) in
  out = (Ok (reply 200 (body_recall resp)), snd out) /\
  length (results resp) = 2%nat /\
  forall r, In r (results resp) ->
    recency (res_signals r)
      = Some (Qmax 0 (1 - inject_Z (Demo.now - res_created_at r)
                          / inject_Z (90 * 24 * 60 * 60 * 1000)))
    /\ res_score r ==
         w_semantic (weights resp) * signal_or_zero (semantic (res_signals r))
         + w_keyword (weights resp) * signal_or_zero (keyword (res_signals r))
         + w_recency (weights resp) * signal_or_zero (recency (res_signals r))
         + (1 # 10) * signal_or_zero (graph_boost (res_signals r)).
Proof.
  intros out resp.
  assert (H : out = (Ok (reply 200 (body_recall resp)), snd out))
    by (vm_compute; reflexivity).
  split; [exact H|]. split; [vm_compute; reflexivity|].
  exact (C1_recall_score_is_weighted_sum Demo.similarity Demo.cosine_distance
           (Some Demo.embed) Demo.now Demo.recall_request Demo.store resp (snd out) H).
Defined.

(** C2 at its failing input: the example store already holds the event
    "Phase 3 tests started" of the agent, the duplicate check for the events
    table would report it, and yet a POST of an event with that title is
    answered 201 and adds a row -- and so is a second one. *)
Lemma C2_event_post_inserts_duplicate :
  let dup := checkDuplicate Demo.similarity Demo.cosine_distance (Some Demo.embed)
                            events Demo.agent1 "Phase 3 tests started" Demo.store in
  let first := post_event (Some Demo.embed) Demo.now Demo.event_request Demo.store in
  let second := post_event (Some Demo.embed) (Demo.now + 1) Demo.event_request
                           (snd first) in
  dup = Some (mkMatch (row_id Demo.e1) (22 # 22) syntactic) /\
  status_code (Demo.answer first Demo.no_answer) = 201%nat /\
  status_code (Demo.answer second Demo.no_answer) = 201%nat /\
  map (fun r => p_title (row_payload r)) (db_rows (snd second) events)
    = ["Phase 3 tests started"; "Phase 3 tests started"; "Phase 3 tests started"].
Proof. vm_compute. repeat split; reflexivity. Qed.



(** C4 at work: the cooling fact of the example store. *)
Lemma C4_inactive_items_witness :
  (forall now req resp db',
      recall Demo.similarity Demo.cosine_distance (Some Demo.embed) now req Demo.store
        = (Ok (reply 200 (body_recall resp)), db') ->
      forall r, In r (results resp) ->
        ~ (res_type r = "fact" /\ res_id r = row_id Demo.f3))
  /\ (forall agentId content m,
        checkDuplicate Demo.similarity Demo.cosine_distance (Some Demo.embed)
                       facts agentId content Demo.store = Some m ->
        dm_id m <> row_id Demo.f3).
Proof.
  apply (C4_inactive_items_never_returned
           Demo.similarity Demo.cosine_distance (Some Demo.embed)
           Demo.store facts Demo.f3).
  - simpl. auto.
  - discriminate.
  - intros row' Hin Hid. simpl in Hin.
    destruct Hin as [<-|[<-|[<-|[<-|[]]]]];
      first [reflexivity | vm_compute in Hid; discriminate Hid].
Defined.

(** C5 at work: ingesting a message from which the extractor reports a fact
    and a decision. *)
Lemma C5_ingestion_witness :
  let db' := snd (addMessage (Some Demo.embed) Demo.extract Demo.now Demo.session1
                             Demo.message_request Demo.store) in
  exists fact decision,
    last (db_rows db' facts) = Some fact /\
    last (db_rows db' decisions) = Some decision /\
    (exists e, In e (db_memory_edges db') /\
       edge_source_type e = "fact" /\ edge_source_id e = row_id fact /\
       edge_target_type e = "session" /\ edge_target_id e = Demo.session1 /\
       edge_relation e = "derived_from") /\
    (exists e, In e (db_memory_edges db') /\
       edge_source_type e = "decision" /\ edge_source_id e = row_id decision /\
       edge_target_type e = "session" /\ edge_target_id e = Demo.session1 /\
       edge_relation e = "decided_in").
Proof.
  intros db'.
  pose proof (C5_extracted_items_have_session_edge
                (Some Demo.embed) Demo.extract Demo.now Demo.session1
                Demo.message_request Demo.store _ db' (surjective_pairing _))
    as [Hedge _].
  destruct (last (db_rows db' facts)) as [fact|] eqn:Ef; [|vm_compute in Ef; discriminate].
  destruct (last (db_rows db' decisions)) as [decision|] eqn:Ed;
    [|vm_compute in Ed; discriminate].
  exists fact, decision. split; [reflexivity|]. split; [reflexivity|].
  vm_compute in Ef. injection Ef as <-. vm_compute in Ed. injection Ed as <-.
  split.
  - apply (Hedge facts); [discriminate|vm_compute; auto 10|].
    simpl. intros [H|[H|[H|[H|[]]]]]; discriminate H.
  - apply (Hedge decisions); [discriminate|vm_compute; auto 10|].
    simpl. intros [H|[]]; discriminate H.
Defined.

(** C6 at work: the same tuple posted with weight 0.9 and then 1.0. *)
Lemma C6_edge_upsert_witness :
  let first := post_edge Demo.now (Demo.edge_request (9 # 10)) Demo.store in
  let e1 := Demo.edge_of (Demo.answer first Demo.no_answer) in
  exists e2 db2,
    post_edge (Demo.now + 1) (Demo.edge_request 1) (snd first)
      = (Ok (reply 201 (body_edge e2)), db2) /\
    edge_id e2 = edge_id e1 /\
    length (db_memory_edges db2) = length (db_memory_edges (snd first)) /\
    edge_weight e2 = 1%Q.
Proof.
  intros first e1.
  destruct (C6_edge_upsert_idempotent_on_tuple
              Demo.now (Demo.now + 1) (Demo.edge_request (9 # 10))
              (Demo.edge_request 1) Demo.store e1 (snd first))
    as (e2 & db2 & H & Hid & Hlen & Hw & _).
  - unfold edges_unique. simpl. apply NoDup_singleton.
  - vm_compute. reflexivity.
  - reflexivity.
  - reflexivity.
  - exists e2, db2. repeat split; assumption.
Defined.

(** C7 refuted as stated: the patch [{"a": {"b": null}}] on the empty core
    memory of the second agent. The patched key "a" is not set to its patch
    value [{"b": null}] but to [{}]. *)
Lemma C7_nested_null_counterexample :
  let patch := JObj {[ "a" := JObj {[ "b" := JNull ]} ]} in
  fst (patch_core_memory Demo.now "agent-two" (Some patch) Demo.store)
    = Ok (reply 200 (body_core_memory (JObj {[ "a" := JObj ∅ ]})))
  /\ JObj {[ "b" := JNull ]} <> JObj ∅.
Proof.
  split.
  - vm_compute. reflexivity.
  - intros H.
    apply (f_equal (fun j => match j with JObj m => m !! "b" | _ => None end)) in H.
    vm_compute in H. discriminate H.
Qed.

(** C7 (amended) at work: [{"role": null, "mood": "focused"}] on the first
    agent. *)
Lemma C7_core_memory_patch_witness :
  exists r db',
    patch_core_memory Demo.now "agent-one"
      (Some (JObj {[ "role" := JNull; "mood" := JStr "focused" ]})) Demo.store
      = (Ok (reply 200 (body_core_memory (JObj r))), db')
    /\ r !! "role" = None /\ r !! "mood" = Some (JStr "focused").
Proof.
  destruct (C7_core_memory_patch_strips_nulls Demo.now "agent-one"
              {[ "role" := JNull; "mood" := JStr "focused" ]}
              {[ "role" := JStr "tester" ]} Demo.store
              (mkAgent Demo.agent1 "agent-one" "Agent One"
                       (JObj {[ "role" := JStr "tester" ]}) 0))
    as (r & db' & H & Hk & _).
  - reflexivity.
  - reflexivity.
  - exists r, db'. split; [exact H|].
    split; [rewrite (Hk "role")|rewrite (Hk "mood")]; vm_compute; reflexivity.
Defined.

(** The fact created 100 days ago, accessed once and never read since,
    under the default policy for facts (90 days, 3 accesses). *)
Lemma sweep_cools_stale_fact_example :
  exists r',
    db_rows (snd (runDecaySweep Demo.now None Demo.store)) facts !! 1%nat = Some r'
    /\ row_decay_status r' = cooling.
Proof.
  destruct (sweep_cools_exactly_when_stale_under_its_policy
              Demo.now None Demo.store facts 1%nat Demo.f2)
    as (r' & Hr' & _ & Hcool & _).
  - reflexivity.
  - reflexivity.
  - reflexivity.
  - exists r'. split; [exact Hr'|].
    clear Hcool. vm_compute in Hr'. injection Hr' as <-. reflexivity.
Defined.

(** The same fact under the policy of its own agent, in a sweep for that
    agent: the policy has no TTL and the fact stays as it is. *)
Lemma scoped_sweep_example :
  db_rows (snd (runDecaySweep Demo.now (Some Demo.agent1) Examples.own_policy_store))
          facts !! 1%nat = Some Demo.f2.
Proof.
  destruct (scoped_sweep_follows_the_most_specific_policy
              Demo.now Demo.agent1 Examples.own_policy_store facts 1%nat Demo.f2)
    as (r' & Hr' & _ & _ & Hkeep).
  - discriminate.
  - reflexivity.
  - reflexivity.
  - reflexivity.
  - transitivity (Some r'); [exact Hr'|]. f_equal. apply Hkeep.
    intros (p & ttl & H1 & H2 & _). vm_compute in H1. injection H1 as <-.
    discriminate H2.
Defined.

(** C8. The claim fails on the sweep that is run without an agent -- the
    hourly job, and the manual trigger without agent_id. Agent one's own
    policy says that its facts never decay (ttl_days NULL): under the
    most-specific policy the fact [f2], active, 100 days old, accessed once
    and never read since, is not to cool, and a sweep scoped to the agent
    leaves it as it is. The sweep without an agent resolves only the global
    policy (90 days, 3 accesses) and moves the fact to cooling. *)
Theorem C8_unscoped_sweep_overrides_agent_policy :
  let db := Examples.own_policy_store in
  db_rows db facts !! 1%nat = Some Demo.f2
  /\ row_decay_status Demo.f2 = active
  /\ most_specific_policy "fact" (row_agent_id Demo.f2) db = Some Examples.own_policy
  /\ policy_ttl_days Examples.own_policy = None
  /\ ~ decays Demo.now db facts Demo.f2
  /\ db_rows (snd (runDecaySweep Demo.now (Some Demo.agent1) db)) facts !! 1%nat
     = Some Demo.f2
  /\ applicable_policy "fact" None db = Some (mkPolicy None "fact" (Some 90%Z) true 3)
  /\ exists r',
       db_rows (snd (runDecaySweep Demo.now None db)) facts !! 1%nat = Some r'
       /\ row_id r' = row_id Demo.f2 /\ row_decay_status r' = cooling.
Proof.
  intros db.
  split; [reflexivity|]. split; [reflexivity|]. split; [reflexivity|].
  split; [reflexivity|]. split.
  { intros (p & ttl & H1 & H2 & _). vm_compute in H1. injection H1 as <-.
    discriminate H2. }
  split; [vm_compute; reflexivity|]. split; [reflexivity|].
  eexists. split; [vm_compute; reflexivity|]. split; reflexivity.
Qed.

(** C9 at work: the same recall with no embedder, and with an embedder
    that rejects the query. *)
Lemma C9_recall_without_embedding_witness :
  (exists resp db',
      recall Demo.similarity Demo.cosine_distance None Demo.now
             Demo.recall_request Demo.store
        = (Ok (reply 200 (body_recall resp)), db') /\
      forall r, In r (results resp) -> semantic (res_signals r) = None)
  /\ (exists resp db',
        recall Demo.similarity Demo.cosine_distance (Some Demo.failing_embed) Demo.now
               Demo.recall_request Demo.store
          = (Ok (reply 200 (body_recall resp)), db') /\
        forall r, In r (results resp) -> semantic (res_signals r) = None).
Proof.
  split.
  - destruct (C9_recall_without_query_embedding
                Demo.similarity Demo.cosine_distance None Demo.now
                Demo.recall_request Demo.store)
      as (resp & db' & H & _ & _ & _ & Hs);
      [reflexivity|reflexivity|now left|].
    exists resp, db'. split; [exact H|]. intros r Hr. exact (proj1 (Hs r Hr)).
  - destruct (C9_recall_without_query_embedding
                Demo.similarity Demo.cosine_distance (Some Demo.failing_embed) Demo.now
                Demo.recall_request Demo.store)
      as (resp & db' & H & _ & _ & _ & Hs);
      [reflexivity|reflexivity|right; eexists; split; reflexivity|].
    exists resp, db'. split; [exact H|]. intros r Hr. exact (proj1 (Hs r Hr)).
Defined.

(** * Further properties of the service

    What follows goes beyond the contract: the handlers and helpers the
    contract does not speak of, and further properties of those it does. *)

(** ** Lists *)

Lemma StronglySorted_take {A} (R : A -> A -> Prop) (n : nat) (l : list A) :
  StronglySorted R l -> StronglySorted R (take n l).
Proof.
  intros H. revert n. induction H as [|x l Hs IH Hx]; intros [|n]; simpl;
    try constructor.
  - apply IH.
  - rewrite List.Forall_forall in *. intros y Hy. apply Hx. eapply In_take; eauto.
Qed.

Lemma StronglySorted_map {A B} (R : B -> B -> Prop) (f : A -> B) (l : list A) :
  StronglySorted (fun a b => R (f a) (f b)) l -> StronglySorted R (map f l).
Proof.
  induction 1 as [|x l Hs IH Hx]; simpl; constructor; [assumption|].
  rewrite List.Forall_forall in *. intros y Hy.
  apply in_map_iff in Hy as (a & <- & Ha). auto.
Qed.

Lemma StronglySorted_weaken {A} (R R' : A -> A -> Prop) (l : list A) :
  (forall a b, R a b -> R' a b) -> StronglySorted R l -> StronglySorted R' l.
Proof.
  intros HR. induction 1 as [|x l Hs IH Hx]; constructor; [assumption|].
  rewrite List.Forall_forall in *. auto.
Qed.

Lemma insert_sorted_Permutation {A} (before : A -> A -> bool) (x : A) (l : list A) :
  Permutation (insert_sorted before x l) (x :: l).
Proof.
  induction l as [|y l IH]; simpl; [reflexivity|].
  destruct (before x y); [reflexivity|].
  rewrite IH. apply perm_swap.
Qed.

Lemma sort_by_Permutation {A} (before : A -> A -> bool) (l : list A) :
  Permutation (sort_by before l) l.
Proof.
  unfold sort_by. induction l as [|x l IH]; simpl; [reflexivity|].
  rewrite insert_sorted_Permutation. now constructor.
Qed.

Lemma sort_by_length {A} (before : A -> A -> bool) (l : list A) :
  length (sort_by before l) = length l.
Proof. apply Permutation_length, sort_by_Permutation. Qed.

Lemma NoDup_take_list {A} (n : nat) (l : list A) : NoDup l -> NoDup (take n l).
Proof.
  intros H. revert n. induction H as [|x l Hx Hl IH]; intros [|n]; simpl;
    try constructor; [|apply IH].
  rewrite list_elem_of_In in *. intros Hin. apply Hx. eapply In_take; eauto.
Qed.

Lemma slice0_take {A} (n : Z) (l : list A) : exists k, slice0 n l = take k l.
Proof. unfold slice0. destruct (n <? 0)%Z; eauto. Qed.

Lemma slice0_length {A} (n : Z) (l : list A) :
  (0 <= n)%Z -> (length (slice0 n l) <= Z.to_nat n)%nat.
Proof.
  intros Hn. unfold slice0. destruct (n <? 0)%Z eqn:E; [lia|].
  rewrite length_take. lia.
Qed.

Lemma with_related_map {B} (f : RecallResult -> B) db agent top :
  (forall l r, f (set_related l r) = f r) ->
  map f (with_related db agent top) = map f top.
Proof.
  intros Hf. unfold with_related. rewrite map_app, map_map.
  rewrite (map_ext _ f) by (intros; apply Hf).
  rewrite <- map_app. f_equal. apply take_drop.
Qed.

(** ** Recall: order, size, distinct items, access counts *)

Section MoreRecall.

Variable similarity : string -> string -> Q.
Variable cosine_distance : Vec -> Vec -> Q.
Variable provider : option (string -> option Vec).

Lemma recall_ok_shape now req db resp db' :
  recall similarity cosine_distance provider now req db
    = (Ok (reply 200 (body_recall resp)), db') ->
  exists allResults,
    candidates_of similarity cosine_distance provider req db = (Ok allResults, db) /\
    let top := top_of now req allResults in
    results resp
      = (if with_default (rq_include_related req) true && (0 <? length top)%nat
         then (map (fun r => set_related
                               (getRelatedItems (res_id r) (res_type r)
                                  (or_str (rq_agent_id req) "") db) r)
                   (take 5 top) ++ drop 5 top)%list
         else top) /\
    db' = fold_left (bump_result now) (results resp) db.
Proof.
  intros H. pose proof H as H0.
  apply (recall_ok_inv similarity cosine_distance provider) in H0
    as (_ & _ & _ & _ & _ & allResults & db1 & Hc & _).
  pose proof Hc as Hc'.
  apply candidates_backed in Hc' as [-> _].
  exists allResults. split; [exact Hc|].
  unfold recall in H. cbv zeta in H. unfold candidates_of in Hc.
  destruct (negb (truthy_str (rq_query req)) || negb (truthy_str (rq_agent_id req)));
    [unfold ret in H; congruence|].
  unfold bind at 1 in H. rewrite Hc in H.
  unfold bind, gets, modify_db, ret in H.
  apply Ok_pair_inv in H as [Hresp <-].
  injection Hresp as <-. cbn [results].
  unfold top_of.
  assert (E : map (fun result =>
                set_score (rerank_score (res_signals result)
                  (with_default (rq_semantic_weight req) (7 # 10))
                  (with_default (rq_keyword_weight req) (2 # 10))
                  (with_default (rq_recency_weight req) (1 # 10))) result)
             (map (fun result =>
                     set_signals
                       (set_recency (recency_signal now (res_created_at result))
                                    (res_signals result)) result)
                  allResults)
           = map (reranked now (with_default (rq_semantic_weight req) (7 # 10))
                          (with_default (rq_keyword_weight req) (2 # 10))
                          (with_default (rq_recency_weight req) (1 # 10)))
                 allResults).
  { rewrite map_map. apply map_ext. intros r. reflexivity. }
  rewrite E. split; reflexivity.
Qed.

Lemma recall_results_map {B} (f : RecallResult -> B) now req db resp db' :
  (forall l r, f (set_related l r) = f r) ->
  recall similarity cosine_distance provider now req db
    = (Ok (reply 200 (body_recall resp)), db') ->
  exists allResults,
    candidates_of similarity cosine_distance provider req db = (Ok allResults, db) /\
    map f (results resp) = map f (top_of now req allResults) /\
    db' = fold_left (bump_result now) (results resp) db.
Proof.
  intros Hf H.
  apply recall_ok_shape in H as (allResults & Hc & Hres & Hdb).
  exists allResults. split; [exact Hc|]. split; [|exact Hdb].
  cbv zeta in Hres. rewrite Hres.
  destruct (_ && _); [|reflexivity].
  now apply (with_related_map f db).
Qed.

(** The results of recall are in the order of their scores, highest
    first. *)
Theorem recall_results_ordered_by_score now req db resp db' :
  recall similarity cosine_distance provider now req db
    = (Ok (reply 200 (body_recall resp)), db') ->
  StronglySorted (fun x y => (y <= x)%Q) (map res_score (results resp)).
Proof.
  intros H.
  apply (recall_results_map res_score) in H as (allResults & _ & -> & _);
    [|reflexivity].
  apply StronglySorted_map. unfold top_of.
  destruct (slice0_take (with_default (rq_limit req) 20%Z)
              (sort_by (desc res_score)
                 (map (reranked now (with_default (rq_semantic_weight req) (7 # 10))
                                (with_default (rq_keyword_weight req) (2 # 10))
                                (with_default (rq_recency_weight req) (1 # 10)))
                      allResults))) as [k ->].
  apply StronglySorted_take.
  eapply StronglySorted_weaken; [|apply sort_by_sorted].
  - intros a b Hab. unfold desc in Hab. now apply Qle_bool_iff in Hab.
  - intros a b. apply desc_total.
  - intros a b c. apply desc_trans.
Qed.

(** Recall returns at most [limit] results (20 when the request names no
    limit), and [total] is their number. *)
Theorem recall_returns_at_most_limit now req db resp db' :
  (0 <= with_default (rq_limit req) 20%Z)%Z ->
  recall similarity cosine_distance provider now req db
    = (Ok (reply 200 (body_recall resp)), db') ->
  (length (results resp) <= Z.to_nat (with_default (rq_limit req) 20%Z))%nat
  /\ total resp = length (results resp).
Proof.
  intros Hl H. split.
  - apply (recall_results_map res_id) in H as (allResults & _ & E & _);
      [|reflexivity].
    rewrite <- (length_map res_id), E, length_map. unfold top_of.
    now apply slice0_length.
  - now apply (recall_ok_inv similarity cosine_distance provider) in H
      as (_ & _ & Ht & _).
Qed.

(** *** No item is returned twice *)

Lemma update_existing_ids id f l l' :
  (forall r, res_id (f r) = res_id r) ->
  update_existing id f l = Some l' -> map res_id l' = map res_id l.
Proof.
  intros Hf. revert l'. induction l as [|r l IH]; intros l' H; simpl in H.
  - discriminate.
  - destruct (String.eqb (res_id r) id).
    + injection H as <-. simpl. now rewrite Hf.
    + destruct (update_existing id f l) as [rest|]; [|discriminate].
      injection H as <-. simpl. now rewrite (IH rest).
Qed.

Lemma update_existing_None id f l :
  update_existing id f l = None -> ~ In id (map res_id l).
Proof.
  induction l as [|r l IH]; simpl; [auto|].
  destruct (String.eqb (res_id r) id) eqn:E; [discriminate|].
  destruct (update_existing id f l); [discriminate|].
  intros _ [H|H]; [|now apply IH].
  apply String.eqb_neq in E. contradiction.
Qed.

Lemma merge_row_NoDup type set acc row :
  NoDup (map res_id acc) -> NoDup (map res_id (merge_row type set acc row)).
Proof.
  intros Hacc. unfold merge_row.
  destruct (update_existing _ _ acc) as [updated|] eqn:E.
  - apply update_existing_ids in E; [now rewrite E|reflexivity].
  - apply update_existing_None in E.
    rewrite map_app. cbn [map res_id].
    apply NoDup_app. split; [assumption|]. split.
    + intros x Hx Hx'. apply list_elem_of_In in Hx, Hx'.
      destruct Hx' as [<-|[]]. contradiction.
    + apply NoDup_singleton.
Qed.

Lemma fold_merge_NoDup type set rows acc :
  NoDup (map res_id acc) ->
  NoDup (map res_id (fold_left (merge_row type set) rows acc)).
Proof.
  revert acc. induction rows as [|row rows IH]; intros acc Hacc; simpl.
  - assumption.
  - apply IH. now apply merge_row_NoDup.
Qed.

(** One turn of the retrieval loop keeps a property that merging keeps. *)
Lemma search_table_keeps (I : list RecallResult -> Prop) qe q agent limit acc t db :
  (forall set rows acc0, I acc0 -> I (fold_left (merge_row (rt_type t) set) rows acc0)) ->
  I acc ->
  (exists acc', search_table similarity cosine_distance qe q agent limit acc t db
                  = (Ok acc', db) /\ I acc')
  \/ (exists e, search_table similarity cosine_distance qe q agent limit acc t db
                  = (Throw e, db)).
Proof.
  intros Hmerge Hacc. unfold search_table.
  assert (Hkw : forall acc0, I acc0 ->
             exists acc',
               try_catch
                 (keywordRows <- keyword_rows similarity t q agent limit ;;
                  ret (fold_left (merge_row (rt_type t) set_keyword) keywordRows acc0))
                 (fun _ => ret acc0) db = (Ok acc', db)
               /\ I acc').
  { intros acc0 Hacc0. unfold try_catch, bind.
    destruct (keyword_rows similarity t q agent limit db) as [out db1] eqn:E.
    apply keyword_rows_inv in E as [-> [[e ->]|(rows & -> & _)]]; unfold ret.
    - exists acc0. auto.
    - eexists. split; [reflexivity|]. now apply Hmerge. }
  unfold try_catch, bind in Hkw |- *.
  destruct qe as [v|].
  - destruct (semantic_rows cosine_distance t v agent limit db) as [out db1] eqn:E.
    apply semantic_rows_inv in E as [-> [[e ->]|(rows & -> & _)]].
    + right. eexists. reflexivity.
    + left. unfold ret at 1. apply Hkw. now apply Hmerge.
  - left. unfold ret at 1. now apply Hkw.
Qed.

Lemma candidates_distinct req db allResults db1 :
  candidates_of similarity cosine_distance provider req db = (Ok allResults, db1) ->
  NoDup (map res_id allResults).
Proof.
  unfold candidates_of. intros H.
  destruct (for_each_readonly (fun acc => NoDup (map res_id acc))
              (search_table similarity cosine_distance
                 (embed_with provider (or_str (rq_query req) ""))
                 (or_str (rq_query req) "") (or_str (rq_agent_id req) "")
                 (with_default (rq_limit req) 20%Z))
              (tablesToSearch (rq_types req)) db) with (acc := @nil RecallResult)
    as [(acc' & E & Hacc')|[e E]].
  - intros t acc _ Hacc. apply search_table_keeps; [|assumption].
    intros; now apply fold_merge_NoDup.
  - constructor.
  - rewrite E in H. now injection H as <- _.
  - rewrite E in H. discriminate.
Qed.

Lemma top_ids_NoDup (limit : Z) (rerank : RecallResult -> RecallResult)
    (allResults : list RecallResult) :
  (forall r, res_id (rerank r) = res_id r) ->
  NoDup (map res_id allResults) ->
  NoDup (map res_id (slice0 limit (sort_by (desc res_score) (map rerank allResults)))).
Proof.
  intros Hid Hc.
  destruct (slice0_take limit (sort_by (desc res_score) (map rerank allResults)))
    as [k ->].
  change (@map RecallResult Id) with (@fmap list _ RecallResult Id).
  rewrite fmap_take. apply NoDup_take_list.
  rewrite sort_by_Permutation.
  change (@fmap list _ RecallResult Id) with (@map RecallResult Id).
  rewrite map_map. rewrite (map_ext _ res_id Hid). exact Hc.
Qed.

(** An item that both arms find, or that the searches of several tables
    find, is merged into one result: the ids of the results are pairwise
    distinct. *)
Theorem recall_results_have_distinct_ids now req db resp db' :
  recall similarity cosine_distance provider now req db
    = (Ok (reply 200 (body_recall resp)), db') ->
  NoDup (map res_id (results resp)).
Proof.
  intros H.
  apply (recall_results_map res_id) in H as (allResults & Hc & -> & _);
    [|reflexivity].
  apply candidates_distinct in Hc. unfold top_of.
  apply top_ids_NoDup; [reflexivity|exact Hc].
Qed.

(** *** What recall writes: one access bump for each returned item *)

Lemma find_recall_table ty :
  match List.find (fun c => String.eqb (rt_type c) ty) RECALL_TABLES with
  | Some c => ty = TABLE_TO_TYPE (rt_table c)
  | None => forall t, ty <> TABLE_TO_TYPE t
  end.
Proof.
  unfold RECALL_TABLES. cbn [List.find rt_type rt_table].
  destruct (String.eqb "session_message" ty) eqn:E1;
    [apply String.eqb_eq in E1; now subst|].
  destruct (String.eqb "fact" ty) eqn:E2; [apply String.eqb_eq in E2; now subst|].
  destruct (String.eqb "decision" ty) eqn:E3; [apply String.eqb_eq in E3; now subst|].
  destruct (String.eqb "task" ty) eqn:E4; [apply String.eqb_eq in E4; now subst|].
  destruct (String.eqb "event" ty) eqn:E5; [apply String.eqb_eq in E5; now subst|].
  apply String.eqb_neq in E1, E2, E3, E4, E5.
  intros t ->. destruct t; simpl in *; congruence.
Qed.

Lemma TABLE_TO_TYPE_inj t t' : TABLE_TO_TYPE t = TABLE_TO_TYPE t' -> t = t'.
Proof. destruct t, t'; simpl; intros H; try reflexivity; discriminate H. Qed.

Lemma map_if_false {A} (c : A -> bool) (f : A -> A) (l : list A) :
  (forall x, In x l -> c x = false) ->
  map (fun x => if c x then f x else x) l = l.
Proof.
  induction l as [|a l IH]; intros Hc; simpl; [reflexivity|].
  rewrite (Hc a) by now left. f_equal. apply IH. intros; apply Hc; now right.
Qed.

Lemma bump_result_rows now db x t :
  db_rows (bump_result now db x) t
  = map (fun r => if String.eqb (res_id x) (row_id r)
                     && String.eqb (res_type x) (TABLE_TO_TYPE t)
                  then touch t now (bump_access now r) else r)
        (db_rows db t).
Proof.
  unfold bump_result. pose proof (find_recall_table (res_type x)) as Hf.
  destruct (List.find _ RECALL_TABLES) as [c|].
  - unfold bump_row. cbn [db_rows set_rows].
    destruct (Table_eqb t (rt_table c)) eqn:Et.
    + apply Table_eqb_eq in Et. subst t. apply map_ext. intros r.
      rewrite Hf, String.eqb_refl, andb_true_r, String.eqb_sym. reflexivity.
    + symmetry. apply map_if_false. intros r _.
      apply andb_false_iff. right. apply String.eqb_neq. rewrite Hf.
      intros E. apply TABLE_TO_TYPE_inj in E. subst t.
      now rewrite Table_eqb_refl in Et.
  - symmetry. apply map_if_false. intros r _.
    apply andb_false_iff. right. apply String.eqb_neq. apply Hf.
Qed.

Lemma bump_result_frame now db x :
  db_agents (bump_result now db x) = db_agents db /\
  db_sessions (bump_result now db x) = db_sessions db /\
  db_projects (bump_result now db x) = db_projects db /\
  db_memory_edges (bump_result now db x) = db_memory_edges db /\
  db_decay_policies (bump_result now db x) = db_decay_policies db /\
  db_uuids (bump_result now db x) = db_uuids db.
Proof.
  unfold bump_result. destruct (List.find _ RECALL_TABLES); repeat split; reflexivity.
Qed.

Lemma touch_row_id t now r : row_id (touch t now r) = row_id r.
Proof. unfold touch. now destruct (has_updated_at_trigger t). Qed.

Lemma fold_bump_rows now (l : list RecallResult) :
  NoDup (map res_id l) ->
  forall db t,
    db_rows (fold_left (bump_result now) l db) t
    = map (fun r => if returned_from l t r then touch t now (bump_access now r) else r)
          (db_rows db t).
Proof.
  induction l as [|x l IH]; intros Hnd db t; cbn [fold_left].
  - cbn [returned_from existsb]. symmetry. apply map_id.
  - cbn [map] in Hnd. apply NoDup_cons in Hnd as [Hx Hnd].
    rewrite (IH Hnd), bump_result_rows, map_map. apply map_ext. intros r.
    cbn [returned_from existsb].
    destruct (String.eqb (res_id x) (row_id r)
              && String.eqb (res_type x) (TABLE_TO_TYPE t)) eqn:E; cbn [orb].
    + assert (Hno : returned_from l t (touch t now (bump_access now r)) = false).
      { apply not_true_iff_false. intros Hex.
        apply existsb_exists in Hex as (y & Hy & Hm).
        apply andb_true_iff in Hm as [Hm _]. apply String.eqb_eq in Hm.
        rewrite touch_row_id in Hm. cbn [bump_access row_id] in Hm.
        apply andb_true_iff in E as [E _]. apply String.eqb_eq in E.
        apply Hx. apply list_elem_of_In, in_map_iff. exists y. split; congruence. }
      now rewrite Hno.
    + reflexivity.
Qed.

Lemma fold_bump_frame now (l : list RecallResult) db :
  db_agents (fold_left (bump_result now) l db) = db_agents db /\
  db_sessions (fold_left (bump_result now) l db) = db_sessions db /\
  db_projects (fold_left (bump_result now) l db) = db_projects db /\
  db_memory_edges (fold_left (bump_result now) l db) = db_memory_edges db /\
  db_decay_policies (fold_left (bump_result now) l db) = db_decay_policies db /\
  db_uuids (fold_left (bump_result now) l db) = db_uuids db.
Proof.
  revert db. induction l as [|x l IH]; intros db; cbn [fold_left].
  - repeat split; reflexivity.
  - destruct (IH (bump_result now db x)) as (H1 & H2 & H3 & H4 & H5 & H6).
    destruct (bump_result_frame now db x) as (G1 & G2 & G3 & G4 & G5 & G6).
    repeat split; congruence.
Qed.

(** All that recall changes in the store is the access record of the items
    it returns: each row that is among the results gets one more access and
    the time of the request as its last access (the [updated_at] trigger of
    facts and tasks runs); every other row, and every other table, is as it
    was. Items that only appear under [related] are not counted as accessed. *)
Theorem recall_bumps_each_returned_item_once now req db resp db' :
  recall similarity cosine_distance provider now req db
    = (Ok (reply 200 (body_recall resp)), db') ->
  (forall t,
     db_rows db' t
     = map (fun r => if returned_from (results resp) t r
                     then touch t now (bump_access now r) else r)
           (db_rows db t))
  /\ db_agents db' = db_agents db /\ db_sessions db' = db_sessions db
  /\ db_projects db' = db_projects db /\ db_memory_edges db' = db_memory_edges db
  /\ db_decay_policies db' = db_decay_policies db.
Proof.
  intros H.
  assert (Hnd : NoDup (map res_id (results resp))).
  { pose proof H as H0.
    apply (recall_results_map res_id) in H0 as (allResults & Hc & -> & _);
      [|reflexivity].
    apply candidates_distinct in Hc. unfold top_of.
    apply top_ids_NoDup; [reflexivity|exact Hc]. }
  apply recall_ok_shape in H as (allResults & _ & _ & ->).
  split; [intros t; now apply fold_bump_rows|].
  destruct (fold_bump_frame now (results resp) db) as (H1 & H2 & H3 & H4 & H5 & _).
  auto.
Qed.

(** *** Related items *)

(** The one-hop traversal follows an edge of the agent to whatever row the
    target names: the row's decay status is not looked at, nor is its agent.
    A cooling or archived item, which recall never returns as a result, is
    returned under [related], with the edge's weight as its score. *)
Theorem related_items_ignore_decay_status itemId itemType agentId db e c row :
  In e (db_memory_edges db) ->
  edge_source_type e = itemType -> edge_source_id e = itemId ->
  edge_agent_id e = agentId ->
  In c RECALL_TABLES -> rt_type c = edge_target_type e ->
  In row (db_rows db (rt_table c)) -> row_id row = edge_target_id e ->
  exists x,
    In x (getRelatedItems itemId itemType agentId db) /\
    res_id x = edge_target_id e /\ res_type x = edge_target_type e /\
    res_score x = edge_weight e /\
    res_metadata x = [("relation", edge_relation e); ("direction", "outgoing")].
Proof.
  intros He Hst Hsi Hag Hc Hty Hrow Hid.
  assert (Hfind : List.find (fun t => String.eqb (rt_type t) (edge_target_type e))
                            RECALL_TABLES = Some c).
  { pose proof (find_recall_table (edge_target_type e)) as Hf.
    destruct (List.find _ RECALL_TABLES) as [c'|] eqn:E.
    - f_equal. apply find_some in E as [Hc' E]. apply String.eqb_eq in E.
      revert Hc Hc' Hty E. unfold RECALL_TABLES. cbn [In].
      intros [<-|[<-|[<-|[<-|[<-|[]]]]]] [<-|[<-|[<-|[<-|[<-|[]]]]]];
        cbn [rt_type]; intros <- E; try reflexivity; discriminate E.
    - exfalso. apply (Hf (rt_table c)). rewrite <- Hty.
      revert Hc. unfold RECALL_TABLES. cbn [In].
      intros [<-|[<-|[<-|[<-|[<-|[]]]]]]; reflexivity. }
  destruct (List.filter (fun r => String.eqb (row_id r) (edge_target_id e))
                        (db_rows db (rt_table c))) as [|row0 rest] eqn:Ef.
  { exfalso. assert (Hin : In row []); [|destruct Hin].
    rewrite <- Ef. apply filter_In. split; [assumption|]. now apply String.eqb_eq. }
  assert (Hrow0 : row_id row0 = edge_target_id e).
  { assert (Hin : In row0 (row0 :: rest)) by now left.
    rewrite <- Ef in Hin. apply filter_In in Hin as [_ Hin].
    now apply String.eqb_eq. }
  eexists. split.
  - unfold getRelatedItems. apply In_omap.
    exists ("outgoing", edge_target_type e, edge_target_id e, edge_relation e,
            edge_weight e).
    split.
    + unfold incident_edges. apply in_or_app. left.
      apply in_map_iff. exists e. split; [reflexivity|].
      apply filter_In. split; [assumption|].
      now rewrite Hst, Hsi, Hag, !String.eqb_refl.
    + cbv beta iota. rewrite Hfind, Ef. reflexivity.
  - cbn [res_id res_type res_score res_metadata]. auto.
Qed.

(** *** The [tables] restriction of the plugin's recall tool *)

Lemma plugin_table_is_no_type x ts :
  Forall (fun n => In n PLUGIN_TABLES) ts ->
  In x RECALL_TABLES -> in_strs (rt_type x) ts = false.
Proof.
  intros Hts Hx. apply not_true_iff_false. intros H.
  apply existsb_exists in H as (n & Hn & E). apply String.eqb_eq in E.
  rewrite List.Forall_forall in Hts. specialize (Hts n Hn). subst n.
  revert Hx Hts. unfold RECALL_TABLES, PLUGIN_TABLES. cbn [In].
  intros [<-|[<-|[<-|[<-|[<-|[]]]]]]; cbn [rt_type];
    intros [H|[H|[H|[H|[H|[]]]]]]; discriminate H.
Qed.

Lemma recall_no_tables now req db :
  truthy_str (rq_query req) = true -> truthy_str (rq_agent_id req) = true ->
  tablesToSearch (rq_types req) = [] ->
  recall similarity cosine_distance provider now req db
  = (Ok (reply 200 (body_recall
           (mkRecallResponse [] 0 (or_str (rq_query req) "")
              (mkWeights (with_default (rq_semantic_weight req) (7 # 10))
                         (with_default (rq_keyword_weight req) (2 # 10))
                         (with_default (rq_recency_weight req) (1 # 10)))))), db).
Proof.
  intros Hq Ha Hnone. unfold recall. cbv zeta.
  rewrite Hq, Ha, Hnone. cbn [negb orb for_each].
  unfold bind, ret, gets, modify_db. cbn [map sort_by foldr].
  assert (Hs : forall n, slice0 n (@nil RecallResult) = []).
  { intros n. unfold slice0. destruct (n <? 0)%Z; now rewrite take_nil. }
  rewrite Hs. cbn [length Nat.ltb Nat.leb andb fold_left].
  rewrite andb_false_r. reflexivity.
Qed.

(** The [hexmem_recall] tool offers to restrict recall to tables, named
    facts, decisions, tasks, events, session_messages, and passes the list on
    as [types]; recall compares [types] with the type names fact, decision,
    task, event, session_message. No table name is a type name: with any
    restriction chosen from the tool's list, recall searches no table and
    answers with no results, leaving the store untouched. *)
Theorem plugin_recall_tables_match_no_type now agentUuid params db x l :
  truthy_str (rp_query params) = true ->
  agentUuid <> "" ->
  rp_tables params = Some (x :: l) ->
  Forall (fun n => In n PLUGIN_TABLES) (x :: l) ->
  recall similarity cosine_distance provider now
         (hexmem_recall_body agentUuid params) db
  = (Ok (reply 200 (body_recall
           (mkRecallResponse [] 0 (or_str (rp_query params) "")
                             (mkWeights (7 # 10) (2 # 10) (1 # 10))))), db).
Proof.
  intros Hq Ha Ht Hin.
  assert (Hnone : tablesToSearch (Some (x :: l)) = []).
  { unfold tablesToSearch.
    assert (Hall : forall t, In t RECALL_TABLES ->
              ((length (x :: l) =? 0)%nat || in_strs (rt_type t) (x :: l)) = false).
    { intros t Hx. cbn [length Nat.eqb orb]. now apply plugin_table_is_no_type. }
    revert Hall. generalize RECALL_TABLES. intros tables Hall.
    induction tables as [|t tables IH]; [reflexivity|]. cbn [List.filter].
    rewrite (Hall t) by now left. apply IH. intros; apply Hall; now right. }
  apply recall_no_tables.
  - exact Hq.
  - cbn [hexmem_recall_body rq_agent_id truthy_str].
    apply negb_true_iff. now apply String.eqb_neq.
  - cbn [hexmem_recall_body rq_types]. now rewrite Ht.
Qed.

End MoreRecall.

(** *** On the example store *)

(** Recall over the example store: two results, the higher score first. *)
Lemma recall_results_ordered_by_score_witness :
  let out := recall Demo.similarity Demo.cosine_distance (Some Demo.embed)
                    Demo.now Demo.recall_request Demo.store in
  let resp := Demo.recall_of (Demo.answer out Demo.no_answer) in
  out = (Ok (reply 200 (body_recall resp)), snd out) /\
  length (results resp) = 2%nat /\
  StronglySorted (fun x y => (y <= x)%Q) (map res_score (results resp)).
Proof.
  intros out resp.
  assert (H : out = (Ok (reply 200 (body_recall resp)), snd out))
    by (vm_compute; reflexivity).
  split; [exact H|]. split; [vm_compute; reflexivity|].
  exact (recall_results_ordered_by_score Demo.similarity Demo.cosine_distance
           (Some Demo.embed) Demo.now Demo.recall_request Demo.store resp (snd out) H).
Defined.

(** With [limit] 1, one result of the two candidates is returned. *)
Lemma recall_returns_at_most_limit_witness :
  let req := mkRecallRequest (Some "TypeScript language") (Some Demo.agent1) None
                             (Some 1%Z) None None None None in
  let out := recall Demo.similarity Demo.cosine_distance (Some Demo.embed)
                    Demo.now req Demo.store in
  let resp := Demo.recall_of (Demo.answer out Demo.no_answer) in
  out = (Ok (reply 200 (body_recall resp)), snd out) /\
  (length (results resp) <= 1)%nat /\ total resp = length (results resp).
Proof.
  intros req out resp.
  assert (H : out = (Ok (reply 200 (body_recall resp)), snd out))
    by (vm_compute; reflexivity).
  split; [exact H|].
  apply (recall_returns_at_most_limit Demo.similarity Demo.cosine_distance
           (Some Demo.embed) Demo.now req Demo.store resp (snd out)).
  - vm_compute. discriminate.
  - exact H.
Defined.

(** The fact found by both arms is one result. *)
Lemma recall_results_have_distinct_ids_witness :
  let out := recall Demo.similarity Demo.cosine_distance (Some Demo.embed)
                    Demo.now Demo.recall_request Demo.store in
  let resp := Demo.recall_of (Demo.answer out Demo.no_answer) in
  out = (Ok (reply 200 (body_recall resp)), snd out) /\
  NoDup (map res_id (results resp)).
Proof.
  intros out resp.
  assert (H : out = (Ok (reply 200 (body_recall resp)), snd out))
    by (vm_compute; reflexivity).
  split; [exact H|].
  exact (recall_results_have_distinct_ids Demo.similarity Demo.cosine_distance
           (Some Demo.embed) Demo.now Demo.recall_request Demo.store resp (snd out) H).
Defined.

(** The two returned facts are bumped, the two others are not. *)
Lemma recall_bumps_each_returned_item_once_witness :
  let out := recall Demo.similarity Demo.cosine_distance (Some Demo.embed)
                    Demo.now Demo.recall_request Demo.store in
  let resp := Demo.recall_of (Demo.answer out Demo.no_answer) in
  out = (Ok (reply 200 (body_recall resp)), snd out) /\
  map row_access_count (db_rows Demo.store facts) = [0; 1; 0; 7]%Z /\
  map row_access_count (db_rows (snd out) facts) = [1; 1; 0; 8]%Z /\
  ((forall t,
      db_rows (snd out) t
      = map (fun r => if returned_from (results resp) t r
                      then touch t Demo.now (bump_access Demo.now r) else r)
            (db_rows Demo.store t))
   /\ db_agents (snd out) = db_agents Demo.store
   /\ db_sessions (snd out) = db_sessions Demo.store
   /\ db_projects (snd out) = db_projects Demo.store
   /\ db_memory_edges (snd out) = db_memory_edges Demo.store
   /\ db_decay_policies (snd out) = db_decay_policies Demo.store).
Proof.
  intros out resp.
  assert (H : out = (Ok (reply 200 (body_recall resp)), snd out))
    by (vm_compute; reflexivity).
  split; [exact H|]. split; [reflexivity|]. split; [vm_compute; reflexivity|].
  exact (recall_bumps_each_returned_item_once Demo.similarity Demo.cosine_distance
           (Some Demo.embed) Demo.now Demo.recall_request Demo.store resp (snd out) H).
Defined.

(** The cooling fact [f3] is returned as related to the fact [f1]. *)
Lemma related_items_ignore_decay_status_witness :
  row_decay_status Demo.f3 = cooling /\
  exists x,
    In x (getRelatedItems (row_id Demo.f1) "fact" Demo.agent1 Examples.store) /\
    res_id x = row_id Demo.f3 /\ res_type x = "fact" /\
    res_score x = (1 # 2)%Q /\
    res_metadata x = [("relation", "supersedes"); ("direction", "outgoing")].
Proof.
  split; [reflexivity|].
  apply (related_items_ignore_decay_status (row_id Demo.f1) "fact" Demo.agent1
           Examples.store Examples.edge2
           (mkRecallTable facts "fact" col_content col_created_at) Demo.f3);
    try reflexivity.
  - right. left. reflexivity.
  - right. left. reflexivity.
  - right. right. left. reflexivity.
Defined.

(** Restricted to the tables facts and decisions, the tool's request finds
    nothing, where the same query without restriction finds two items. *)
Lemma plugin_recall_tables_match_no_type_witness :
  recall Demo.similarity Demo.cosine_distance (Some Demo.embed) Demo.now
         (hexmem_recall_body Demo.agent1 Examples.recall_params) Demo.store
  = (Ok (reply 200 (body_recall
           (mkRecallResponse [] 0 "TypeScript language"
                             (mkWeights (7 # 10) (2 # 10) (1 # 10))))), Demo.store)
  /\ length (results (Demo.recall_of (Demo.answer
       (recall Demo.similarity Demo.cosine_distance (Some Demo.embed) Demo.now
          (hexmem_recall_body Demo.agent1
             (mkRecallParams (Some "TypeScript language") None None)) Demo.store)
       Demo.no_answer))) = 2%nat.
Proof.
  split; [|vm_compute; reflexivity].
  apply (plugin_recall_tables_match_no_type Demo.similarity Demo.cosine_distance
           (Some Demo.embed) Demo.now Demo.agent1 Examples.recall_params Demo.store
           "facts" ["decisions"]).
  - reflexivity.
  - discriminate.
  - reflexivity.
  - constructor; [now left|]. constructor; [right; now left|]. constructor.
Defined.

(** ** Decay: what a sweep keeps, what it counts, revival *)

Lemma set_rows_frame t rows db :
  db_agents (set_rows t rows db) = db_agents db /\
  db_sessions (set_rows t rows db) = db_sessions db /\
  db_projects (set_rows t rows db) = db_projects db /\
  db_memory_edges (set_rows t rows db) = db_memory_edges db /\
  db_decay_policies (set_rows t rows db) = db_decay_policies db /\
  db_uuids (set_rows t rows db) = db_uuids db.
Proof. repeat split; reflexivity. Qed.

Lemma sweep_table_frame now agentId st t :
  db_agents (snd (sweep_table now agentId st t)) = db_agents (snd st) /\
  db_sessions (snd (sweep_table now agentId st t)) = db_sessions (snd st) /\
  db_projects (snd (sweep_table now agentId st t)) = db_projects (snd st) /\
  db_memory_edges (snd (sweep_table now agentId st t)) = db_memory_edges (snd st) /\
  db_uuids (snd (sweep_table now agentId st t)) = db_uuids (snd st).
Proof.
  destruct st as [stats db]. unfold sweep_table.
  destruct (applicable_policy _ agentId db) as [p|]; [|repeat split; reflexivity].
  destruct (policy_ttl_days p); repeat split; reflexivity.
Qed.

Lemma runDecaySweep_frame now agentId db :
  db_agents (snd (runDecaySweep now agentId db)) = db_agents db /\
  db_sessions (snd (runDecaySweep now agentId db)) = db_sessions db /\
  db_projects (snd (runDecaySweep now agentId db)) = db_projects db /\
  db_memory_edges (snd (runDecaySweep now agentId db)) = db_memory_edges db /\
  db_decay_policies (snd (runDecaySweep now agentId db)) = db_decay_policies db /\
  db_uuids (snd (runDecaySweep now agentId db)) = db_uuids db.
Proof.
  unfold runDecaySweep.
  assert (H : forall l st,
             db_agents (snd (fold_left (sweep_table now agentId) l st))
               = db_agents (snd st) /\
             db_sessions (snd (fold_left (sweep_table now agentId) l st))
               = db_sessions (snd st) /\
             db_projects (snd (fold_left (sweep_table now agentId) l st))
               = db_projects (snd st) /\
             db_memory_edges (snd (fold_left (sweep_table now agentId) l st))
               = db_memory_edges (snd st) /\
             db_uuids (snd (fold_left (sweep_table now agentId) l st))
               = db_uuids (snd st)).
  { induction l as [|t l IH]; intros st; cbn [fold_left]; [repeat split; reflexivity|].
    destruct (IH (sweep_table now agentId st t)) as (H1 & H2 & H3 & H4 & H5).
    destruct (sweep_table_frame now agentId st t) as (G1 & G2 & G3 & G4 & G5).
    repeat split; congruence. }
  destruct (H MEMORY_TABLES (mkStats 0 0 0, db)) as (H1 & H2 & H3 & H4 & H5).
  destruct (fold_sweep_effect now agentId MEMORY_TABLES) with
    (st := (mkStats 0 0 0, db)) (t := facts) as [Hp _].
  { unfold MEMORY_TABLES. repeat constructor; rewrite ?list_elem_of_In; simpl;
      intuition discriminate. }
  repeat split; assumption.
Qed.

Lemma aged_refl r : aged r r.
Proof. unfold aged. repeat split; auto. Qed.

Lemma Forall2_map_r_self {A} (R : A -> A -> Prop) (f : A -> A) (l : list A) :
  (forall x, R x (f x)) -> Forall2 R l (map f l).
Proof. intros H. induction l; simpl; constructor; auto. Qed.

Lemma swept_aged now agentId db t :
  Forall2 aged (db_rows db t) (swept_rows now agentId db t).
Proof.
  unfold swept_rows.
  destruct (applicable_policy _ agentId db) as [p|];
    [|rewrite <- (map_id (db_rows db t)) at 2; apply Forall2_map_r_self, aged_refl].
  destruct (policy_ttl_days p) as [ttl|];
    [|rewrite <- (map_id (db_rows db t)) at 2; apply Forall2_map_r_self, aged_refl].
  rewrite map_map. apply Forall2_map_r_self. intros r.
  destruct (stale now _ agentId _ ttl r) eqn:Es.
  - assert (Hact : row_decay_status r = active).
    { unfold stale in Es. apply andb_true_iff in Es as [Es _].
      apply andb_true_iff in Es as [Es _]. apply andb_true_iff in Es as [Es _].
      now apply is_active_eq. }
    destruct (cooled_long now _ agentId _);
      unfold aged, touch; destruct (has_updated_at_trigger t);
      cbn [set_decay_status set_updated_at row_id row_agent_id row_payload
           row_embedding row_created_at row_occurred_at row_access_count
           row_last_accessed_at row_decay_status];
      rewrite Hact; cbn [status_rank];
      repeat split; try reflexivity; try lia; intros H; discriminate H.
  - destruct (cooled_long now _ agentId r) eqn:Ec; [|apply aged_refl].
    assert (Hc : row_decay_status r = cooling).
    { unfold cooled_long in Ec. apply andb_true_iff in Ec as [Ec _].
      apply andb_true_iff in Ec as [Ec _]. now apply DecayStatus_eqb_eq. }
    unfold aged, touch; destruct (has_updated_at_trigger t);
      cbn [set_decay_status set_updated_at row_id row_agent_id row_payload
           row_embedding row_created_at row_occurred_at row_access_count
           row_last_accessed_at row_decay_status];
      rewrite Hc; cbn [status_rank];
      repeat split; try reflexivity; try lia; intros H; discriminate H.
Qed.

(** A sweep deletes nothing, adds nothing, and never revives: every table
    holds the same items in the same order, each with all its columns
    except decay status and updated_at; a status only moves forward, from
    active to cooling to archived, and a row whose status did not move is
    untouched. Agents, sessions, projects, edges and policies are not
    written. *)
Theorem sweep_keeps_every_item_and_never_revives now agentId db t :
  Forall2 aged (db_rows db t) (db_rows (snd (runDecaySweep now agentId db)) t)
  /\ db_agents (snd (runDecaySweep now agentId db)) = db_agents db
  /\ db_sessions (snd (runDecaySweep now agentId db)) = db_sessions db
  /\ db_projects (snd (runDecaySweep now agentId db)) = db_projects db
  /\ db_memory_edges (snd (runDecaySweep now agentId db)) = db_memory_edges db
  /\ db_decay_policies (snd (runDecaySweep now agentId db)) = db_decay_policies db.
Proof.
  split.
  - rewrite runDecaySweep_rows. apply swept_aged.
  - destruct (runDecaySweep_frame now agentId db) as (H1 & H2 & H3 & H4 & H5 & _).
    auto.
Qed.

(** *** The statistics of a sweep *)

Lemma sweep_table_stats now agentId stats db t :
  fst (sweep_table now agentId (stats, db) t)
  = add_stats stats (table_stats now agentId db t).
Proof.
  unfold sweep_table, table_stats, swept_rows, add_stats.
  destruct (applicable_policy _ agentId db) as [p|].
  2:{ destruct stats; cbn. now rewrite !Nat.add_0_r. }
  destruct (policy_ttl_days p) as [ttl|].
  2:{ destruct stats; cbn. now rewrite !Nat.add_0_r. }
  unfold update_status.
  cbn [fst snd db_rows set_rows transitioned_to_cooling transitioned_to_archived
       immune_items].
  rewrite !Table_eqb_refl. reflexivity.
Qed.

Lemma table_stats_ext now agentId db1 db2 t :
  db_decay_policies db1 = db_decay_policies db2 ->
  db_rows db1 t = db_rows db2 t ->
  table_stats now agentId db1 t = table_stats now agentId db2 t.
Proof.
  intros Hp Hr. unfold table_stats, swept_rows, applicable_policy.
  now rewrite Hp, Hr.
Qed.

Lemma fold_sweep_stats now agentId (l : list Table) :
  NoDup l ->
  forall stats db,
    fst (fold_left (sweep_table now agentId) l (stats, db))
    = fold_left (fun acc t => add_stats acc (table_stats now agentId db t)) l stats.
Proof.
  induction 1 as [|t l Hnotin Hnodup IH]; intros stats db; cbn [fold_left].
  - reflexivity.
  - pose proof (sweep_table_stats now agentId stats db t) as Hs.
    destruct (sweep_table_effect now agentId stats db t) as [Hp Hr].
    destruct (sweep_table now agentId (stats, db) t) as [stats1 db1].
    cbn [fst snd] in Hs, Hp, Hr. rewrite IH, Hs.
    assert (Hext : forall t', In t' l ->
              table_stats now agentId db1 t' = table_stats now agentId db t').
    { intros t' Ht'. apply table_stats_ext; [assumption|].
      rewrite (Hr t').
      destruct (Table_eqb t' t) eqn:E; [|reflexivity].
      apply Table_eqb_eq in E. subst t'. exfalso. apply Hnotin.
      now apply list_elem_of_In. }
    clear IH Hnodup Hnotin Hs.
    generalize (add_stats stats (table_stats now agentId db t)). intros acc.
    revert acc. induction l as [|t' l IHl]; intros acc; cbn [fold_left];
      [reflexivity|].
    rewrite (Hext t') by now left. apply IHl. intros; apply Hext; now right.
Qed.

Lemma runDecaySweep_stats now agentId db :
  fst (runDecaySweep now agentId db)
  = fold_left (fun acc t => add_stats acc (table_stats now agentId db t))
              MEMORY_TABLES (mkStats 0 0 0).
Proof.
  unfold runDecaySweep. apply fold_sweep_stats.
  unfold MEMORY_TABLES. repeat constructor; rewrite ?list_elem_of_In; simpl;
    intuition discriminate.
Qed.

(** Counting through the two updates of a table. *)
Lemma count_through_updates (st cl : Row -> bool) (C A : Row -> Row) (l : list Row) :
  (forall r, st r = true -> row_decay_status r = active) ->
  (forall r, row_decay_status (C r) = cooling) ->
  (forall r, cl r = true -> row_decay_status r = cooling) ->
  (forall r, row_decay_status (A r) = archived) ->
  let l1 := map (fun r => if st r then C r else r) l in
  let l2 := map (fun r => if cl r then A r else r) l1 in
  (length (List.filter (has_status active) l)
   = length (List.filter (has_status active) l2) + length (List.filter st l))%nat
  /\ (length (List.filter (has_status archived) l2)
      = length (List.filter (has_status archived) l) + length (List.filter cl l1))%nat.
Proof.
  intros Hst HC Hcl HA. cbv zeta.
  assert (Hs : forall s r, has_status s r = DecayStatus_eqb (row_decay_status r) s)
    by reflexivity.
  induction l as [|r l [IH1 IH2]]; [split; reflexivity|].
  cbn [map List.filter].
  destruct (st r) eqn:Es.
  - pose proof (Hst r Es) as Hact. pose proof (HC r) as Hc.
    destruct (cl (C r)) eqn:Ec.
    + pose proof (HA (C r)) as Ha.
      rewrite (Hs active r), (Hs archived r), (Hs active (A (C r))),
        (Hs archived (A (C r))), Hact, Ha.
      cbn [DecayStatus_eqb length]. split; lia.
    + rewrite (Hs active r), (Hs archived r), (Hs active (C r)),
        (Hs archived (C r)), Hact, Hc.
      cbn [DecayStatus_eqb length]. split; lia.
  - destruct (cl r) eqn:Ec.
    + pose proof (Hcl r Ec) as Hc. pose proof (HA r) as Ha.
      rewrite (Hs active r), (Hs archived r), (Hs active (A r)),
        (Hs archived (A r)), Hc, Ha.
      cbn [DecayStatus_eqb length]. split; lia.
    + destruct (has_status active r), (has_status archived r); cbn [length];
        split; lia.
Qed.

Lemma table_counts now agentId db t :
  (length (List.filter (has_status active) (db_rows db t))
   = length (List.filter (has_status active) (swept_rows now agentId db t))
     + transitioned_to_cooling (table_stats now agentId db t))%nat
  /\ (length (List.filter (has_status archived) (swept_rows now agentId db t))
      = length (List.filter (has_status archived) (db_rows db t))
        + transitioned_to_archived (table_stats now agentId db t))%nat.
Proof.
  unfold table_stats, swept_rows.
  destruct (applicable_policy _ agentId db) as [p|]; [|cbn; split; lia].
  destruct (policy_ttl_days p) as [ttl|]; [|cbn; split; lia].
  cbn [transitioned_to_cooling transitioned_to_archived].
  apply count_through_updates.
  - intros r Hr. unfold stale in Hr. apply andb_true_iff in Hr as [Hr _].
    apply andb_true_iff in Hr as [Hr _]. apply andb_true_iff in Hr as [Hr _].
    now apply is_active_eq.
  - intros r. now rewrite touch_decay_status.
  - intros r Hr. unfold cooled_long in Hr. apply andb_true_iff in Hr as [Hr _].
    apply andb_true_iff in Hr as [Hr _]. now apply DecayStatus_eqb_eq.
  - intros r. now rewrite touch_decay_status.
Qed.

(** The statistics of a sweep are exact: over the five tables, the number
    of active items goes down by [transitioned_to_cooling], and the number of
    archived items goes up by [transitioned_to_archived] (an item that cools
    and is archived in the same sweep counts in both). *)
Theorem sweep_statistics_count_the_transitions now agentId db :
  (count_status active db
   = count_status active (snd (runDecaySweep now agentId db))
     + transitioned_to_cooling (fst (runDecaySweep now agentId db)))%nat
  /\ (count_status archived (snd (runDecaySweep now agentId db))
      = count_status archived db
        + transitioned_to_archived (fst (runDecaySweep now agentId db)))%nat.
Proof.
  rewrite runDecaySweep_stats.
  unfold count_status, count_in, MEMORY_TABLES, list_sum.
  cbn [map fold_right fold_left].
  rewrite !runDecaySweep_rows.
  destruct (table_counts now agentId db facts) as [F1 F2].
  destruct (table_counts now agentId db decisions) as [D1 D2].
  destruct (table_counts now agentId db tasks) as [T1 T2].
  destruct (table_counts now agentId db events) as [E1 E2].
  destruct (table_counts now agentId db session_messages) as [S1 S2].
  unfold add_stats.
  cbn [transitioned_to_cooling transitioned_to_archived immune_items].
  split; lia.
Qed.

(** *** The scheduled sweep *)

Lemma filter_filter_same {A} (f g : A -> bool) (l : list A) :
  (forall x, f x = true -> g x = true) ->
  List.filter f (List.filter g l) = List.filter f l.
Proof.
  intros H. induction l as [|a l IH]; simpl; [reflexivity|].
  destruct (g a) eqn:Eg; simpl.
  - destruct (f a); now rewrite IH.
  - destruct (f a) eqn:Ef; [|exact IH]. apply H in Ef. congruence.
Qed.

Lemma filter_none {A} (f : A -> bool) (l : list A) :
  (forall x, In x l -> f x = false) -> List.filter f l = [].
Proof.
  induction l as [|a l IH]; intros H; simpl; [reflexivity|].
  rewrite (H a) by now left. apply IH. intros; apply H; now right.
Qed.

Lemma applicable_policy_global memType db :
  applicable_policy memType None db
  = applicable_policy memType None (global_policies_only db).
Proof.
  unfold applicable_policy, global_policies_only. cbn [db_decay_policies].
  f_equal. f_equal; f_equal; symmetry; apply filter_filter_same;
    intros p Hp; apply andb_true_iff in Hp as [_ Hp];
    destruct (policy_agent_id p); cbn in Hp |- *; congruence.
Qed.

Lemma swept_rows_global now db t :
  swept_rows now None db t = swept_rows now None (global_policies_only db) t.
Proof. unfold swept_rows. now rewrite <- applicable_policy_global. Qed.

Lemma table_stats_global now db t :
  table_stats now None db t = table_stats now None (global_policies_only db) t.
Proof.
  unfold table_stats. rewrite <- applicable_policy_global, <- swept_rows_global.
  reflexivity.
Qed.

(** The sweep the scheduler runs every hour has no agent id, and then
    only the global policies are read: an agent's own policy -- a longer TTL,
    or no decay at all -- has no effect on it. The sweep does to every table,
    and reports, what it would if no agent had a policy of its own. *)
Theorem scheduled_sweep_ignores_agent_policies now db :
  fst (runDecaySweep now None db)
    = fst (runDecaySweep now None (global_policies_only db))
  /\ forall t, db_rows (decay_job now db) t
               = db_rows (decay_job now (global_policies_only db)) t.
Proof.
  split.
  - rewrite !runDecaySweep_stats. unfold MEMORY_TABLES. cbn [fold_left].
    now rewrite <- !table_stats_global.
  - intros t. unfold decay_job. rewrite !runDecaySweep_rows.
    apply swept_rows_global.
Qed.

(** An agent whose own policy says that its facts never decay: a sweep for
    that agent leaves its old fact active, the scheduled sweep cools it. *)
Example scheduled_sweep_example :
  let db := mkDB (db_agents Demo.store) (db_sessions Demo.store)
                 (db_projects Demo.store) (db_rows Demo.store)
                 (db_memory_edges Demo.store)
                 (mkPolicy (Some Demo.agent1) "fact" None true 0 :: Demo.policies)
                 (db_uuids Demo.store) in
  map row_decay_status (db_rows (snd (runDecaySweep Demo.now (Some Demo.agent1) db)) facts)
    = [active; active; cooling; active]
  /\ map row_decay_status (db_rows (decay_job Demo.now db) facts)
     = [active; cooling; archived; active].
Proof. vm_compute. split; reflexivity. Qed.

(** *** Revival *)

Lemma memory_table_name table t : memory_table table = Some t -> TABLE_NAME t = table.
Proof.
  unfold memory_table. intros H. apply find_some in H as [_ H].
  now apply String.eqb_eq.
Qed.

Lemma can_revive_iff itemId r :
  can_revive itemId r = true <-> row_id r = itemId /\ row_decay_status r <> active.
Proof.
  unfold can_revive. rewrite andb_true_iff, orb_true_iff, String.eqb_eq,
    !DecayStatus_eqb_eq.
  destruct (row_decay_status r); split; intros [H1 H2]; split; auto;
    try congruence; try (destruct H2; congruence).
Qed.

(** Reviving a cooling or archived item makes it active again, counts as
    one access at the time of the call, and touches no other item. *)
Theorem reviveItem_reactivates now table t itemId db i r :
  memory_table table = Some t ->
  db_rows db t !! i = Some r ->
  row_id r = itemId -> row_decay_status r <> active ->
  fst (reviveItem now table itemId db) = inr true
  /\ (exists r',
        db_rows (snd (reviveItem now table itemId db)) t !! i = Some r' /\
        row_decay_status r' = active /\
        row_access_count r' = (row_access_count r + 1)%Z /\
        row_last_accessed_at r' = Some now /\
        row_id r' = row_id r /\ row_agent_id r' = row_agent_id r /\
        row_payload r' = row_payload r /\ row_embedding r' = row_embedding r /\
        row_created_at r' = row_created_at r)
  /\ (forall j x, db_rows db t !! j = Some x -> row_id x <> itemId ->
        db_rows (snd (reviveItem now table itemId db)) t !! j = Some x)
  /\ (forall t', t' <> t ->
        db_rows (snd (reviveItem now table itemId db)) t' = db_rows db t').
Proof.
  intros Ht Hi Hid Hst. unfold reviveItem. rewrite Ht.
  cbn [fst snd db_rows set_rows]. rewrite Table_eqb_refl.
  assert (Hcan : can_revive itemId r = true) by now apply can_revive_iff.
  split; [|split; [|split]].
  - f_equal. apply Nat.ltb_lt.
    assert (Hin : In r (List.filter (can_revive itemId) (db_rows db t))).
    { apply filter_In. split; [|assumption].
      apply list_elem_of_In. eapply list_elem_of_lookup_2; eauto. }
    destruct (List.filter _ _); [destruct Hin|simpl; lia].
  - change (@map Row Row) with (@fmap list _ Row Row).
    rewrite list_lookup_fmap, Hi. cbn [fmap option_fmap option_map].
    rewrite Hcan. eexists. split; [reflexivity|].
    unfold revive_row, touch. destruct (has_updated_at_trigger t);
      repeat split; reflexivity.
  - intros j x Hj Hx.
    change (@map Row Row) with (@fmap list _ Row Row).
    rewrite list_lookup_fmap, Hj. cbn [fmap option_fmap option_map].
    assert (Hno : can_revive itemId x = false).
    { apply not_true_iff_false. intros H. apply can_revive_iff in H as [H _].
      contradiction. }
    now rewrite Hno.
  - intros t' Hne. destruct (Table_eqb t' t) eqn:E; [|reflexivity].
    apply Table_eqb_eq in E. contradiction.
Qed.

(** [reviveItem] reports [true] exactly when the table holds a cooling or
    archived row with the id; when it reports [false] -- the item is active
    already, or there is no such item -- no row of the store has changed. A
    name that is none of the five memory tables is refused before the store
    is touched. *)
Theorem reviveItem_reports_whether_it_revived now table itemId db :
  match memory_table table with
  | Some t =>
      (fst (reviveItem now table itemId db) = inr true <->
       exists r, In r (db_rows db t) /\ row_id r = itemId /\
                 row_decay_status r <> active)
      /\ (fst (reviveItem now table itemId db) = inr false ->
          forall t', db_rows (snd (reviveItem now table itemId db)) t'
                     = db_rows db t')
  | None =>
      ~ In table ["facts"; "decisions"; "tasks"; "events"; "session_messages"]
      /\ reviveItem now table itemId db = (inl ("Invalid table: " ++ table), db)
  end.
Proof.
  unfold reviveItem. destruct (memory_table table) as [t|] eqn:Ht.
  - cbn [fst snd db_rows set_rows]. split.
    + split.
      * intros H. injection H as H. apply Nat.ltb_lt in H.
        destruct (List.filter (can_revive itemId) (db_rows db t)) as [|r l] eqn:E;
          [simpl in H; lia|].
        assert (Hin : In r (r :: l)) by now left.
        rewrite <- E in Hin. apply filter_In in Hin as [Hin Hc].
        apply can_revive_iff in Hc as [? ?]. eauto.
      * intros (r & Hin & Hid & Hst). f_equal. apply Nat.ltb_lt.
        assert (Hin' : In r (List.filter (can_revive itemId) (db_rows db t)))
          by (apply filter_In; split; [assumption|now apply can_revive_iff]).
        destruct (List.filter _ _); [destruct Hin'|simpl; lia].
    + intros H. injection H as H. apply Nat.ltb_ge in H.
      intros t'. destruct (Table_eqb t' t) eqn:E; [|reflexivity].
      apply Table_eqb_eq in E. subst t'.
      apply map_if_false. intros r Hr. apply not_true_iff_false. intros Hc.
      assert (Hin : In r (List.filter (can_revive itemId) (db_rows db t)))
        by (apply filter_In; split; assumption).
      destruct (List.filter _ _); [destruct Hin|simpl in H; lia].
  - split; [|reflexivity].
    unfold memory_table, MEMORY_TABLES in Ht. cbn [List.find TABLE_NAME] in Ht.
    intros Hin. cbn [In] in Hin.
    destruct Hin as [<-|[<-|[<-|[<-|[<-|[]]]]]]; discriminate Ht.
Qed.

Lemma revive_row_in now table t itemId db r :
  memory_table table = Some t ->
  In r (db_rows db t) -> row_id r = itemId -> row_decay_status r <> active ->
  In (revive_row t now r) (db_rows (snd (reviveItem now table itemId db)) t).
Proof.
  intros Ht Hin Hid Hst. unfold reviveItem. rewrite Ht.
  cbn [snd db_rows set_rows]. rewrite Table_eqb_refl.
  apply in_map_iff. exists r. split; [|assumption].
  assert (Hcan : can_revive itemId r = true) by now apply can_revive_iff.
  now rewrite Hcan.
Qed.

Lemma revive_keeps_policies now table itemId db :
  db_decay_policies (snd (reviveItem now table itemId db)) = db_decay_policies db.
Proof. unfold reviveItem. now destruct (memory_table table). Qed.

(** A revived item is safe from the next sweeps for a full TTL: a sweep at
    a time [now'] with [now' - ttl_days <= now], [now] being the time of the
    revival, leaves the revived row as the revival wrote it, whatever its
    access count. *)
Theorem revived_item_survives_sweeps_within_ttl now now' table t itemId agentId db r :
  memory_table table = Some t ->
  In r (db_rows db t) -> row_id r = itemId -> row_decay_status r <> active ->
  (forall p ttl_days,
      applicable_policy (TABLE_TO_TYPE t) agentId db = Some p ->
      policy_ttl_days p = Some ttl_days -> (now' - day_ms * ttl_days <= now)%Z) ->
  In (revive_row t now r)
     (db_rows (snd (runDecaySweep now' agentId
                      (snd (reviveItem now table itemId db)))) t).
Proof.
  intros Ht Hin Hid Hst Httl.
  pose proof (revive_row_in now table t itemId db r Ht Hin Hid Hst) as Hrev.
  set (db1 := snd (reviveItem now table itemId db)) in *.
  rewrite runDecaySweep_rows. unfold swept_rows.
  assert (Hpol : applicable_policy (TABLE_TO_TYPE t) agentId db1
                 = applicable_policy (TABLE_TO_TYPE t) agentId db).
  { unfold applicable_policy, db1. now rewrite revive_keeps_policies. }
  rewrite Hpol.
  destruct (applicable_policy (TABLE_TO_TYPE t) agentId db) as [p|] eqn:Ep;
    [|assumption].
  destruct (policy_ttl_days p) as [ttl|] eqn:Ettl; [|assumption].
  specialize (Httl p ttl eq_refl Ettl).
  apply in_map_iff. exists (revive_row t now r). split.
  2:{ apply in_map_iff. exists (revive_row t now r). split; [|assumption].
      assert (Hns : stale now' (ts_created (TABLE_TIMESTAMPS t)) agentId
                          (policy_min_accesses p) ttl (revive_row t now r) = false).
      { unfold stale, revive_row, touch.
        destruct (has_updated_at_trigger t);
          cbn [set_updated_at set_decay_status bump_access row_last_accessed_at];
          assert (E : (now <? now' - day_ms * ttl)%Z = false)
            by (apply Z.ltb_ge; lia);
          rewrite E; now rewrite !andb_false_r. }
      now rewrite Hns. }
  assert (Hnc : cooled_long now' (ts_updated (TABLE_TIMESTAMPS t)) agentId
                            (revive_row t now r) = false).
  { unfold cooled_long, revive_row. now rewrite touch_decay_status. }
  now rewrite Hnc.
Qed.

(** *** On the example store *)

(** The cooling fact [f3] is revived. *)
Lemma reviveItem_reactivates_witness :
  let out := reviveItem Demo.now "facts" (row_id Demo.f3) Demo.store in
  row_decay_status Demo.f3 = cooling /\
  fst out = inr true
  /\ (exists r',
        db_rows (snd out) facts !! 2%nat = Some r' /\
        row_decay_status r' = active /\
        row_access_count r' = (row_access_count Demo.f3 + 1)%Z /\
        row_last_accessed_at r' = Some Demo.now /\
        row_id r' = row_id Demo.f3 /\ row_agent_id r' = row_agent_id Demo.f3 /\
        row_payload r' = row_payload Demo.f3 /\
        row_embedding r' = row_embedding Demo.f3 /\
        row_created_at r' = row_created_at Demo.f3)
  /\ (forall j x, db_rows Demo.store facts !! j = Some x ->
        row_id x <> row_id Demo.f3 ->
        db_rows (snd out) facts !! j = Some x)
  /\ (forall t', t' <> facts -> db_rows (snd out) t' = db_rows Demo.store t').
Proof.
  intros out. split; [reflexivity|].
  apply (reviveItem_reactivates Demo.now "facts" facts (row_id Demo.f3) Demo.store
           2%nat Demo.f3).
  - reflexivity.
  - reflexivity.
  - reflexivity.
  - discriminate.
Defined.

(** Revived now, [f3] is still active after a sweep ten days later, although
    it was created 200 days ago and has one access where the policy asks for
    three; without the revival that sweep archives it. *)
Lemma revived_item_survives_sweeps_within_ttl_witness :
  In (revive_row facts Demo.now Demo.f3)
     (db_rows (snd (runDecaySweep (Demo.now + 10 * Demo.day) None
                      (snd (reviveItem Demo.now "facts" (row_id Demo.f3)
                                       Demo.store)))) facts)
  /\ row_decay_status (revive_row facts Demo.now Demo.f3) = active
  /\ map row_decay_status
       (db_rows (snd (runDecaySweep (Demo.now + 10 * Demo.day) None Demo.store)) facts)
     = [active; cooling; archived; active].
Proof.
  split; [|split; [reflexivity|vm_compute; reflexivity]].
  apply (revived_item_survives_sweeps_within_ttl Demo.now (Demo.now + 10 * Demo.day)
           "facts" facts (row_id Demo.f3) None Demo.store Demo.f3).
  - reflexivity.
  - right. right. left. reflexivity.
  - reflexivity.
  - discriminate.
  - intros p ttl_days Hp Httl. vm_compute in Hp. injection Hp as <-.
    injection Httl as <-. vm_compute. discriminate.
Defined.

(** ** Semantic search *)

Section MoreSearch.

Variable cosine_distance : Vec -> Vec -> Q.
Variable provider : option (string -> option Vec).
Variable provider_name : string.

Lemma search_rows_inv t qe agent minSimilarity maxResults db out db' :
  search_rows cosine_distance t qe agent minSimilarity maxResults db = (out, db') ->
  db' = db /\
  ((exists e, out = Throw e)
   \/ (exists rows, out = Ok rows /\ (0 <= maxResults)%Z /\
       (length rows <= Z.to_nat maxResults)%nat /\
       forall r, In r rows ->
         sr_type r = st_type t /\
         exists row e,
           In row (db_rows db (st_table t)) /\ row_id row = sr_id r /\
           row_agent_id row = agent /\ row_decay_status row = active /\
           row_embedding row = Some e /\
           sr_similarity r = (1 - cosine_distance e qe)%Q /\
           (minSimilarity < sr_similarity r)%Q /\
           sr_content r = st_content t row /\
           sr_created_at r = time_col (st_time t) row)).
Proof.
  unfold search_rows, bind, gets, sql_limit.
  destruct (maxResults <? 0)%Z eqn:El; unfold throw, ret; intros H;
    apply pair_equal_spec in H as [<- <-]; (split; [reflexivity|]);
    [left; eauto|].
  right. eexists. split; [reflexivity|].
  apply Z.ltb_ge in El. split; [assumption|]. split.
  - rewrite length_take. lia.
  - intros r Hr. apply In_take, In_sort_by, In_omap in Hr as (row & Hrow & Hf).
    destruct (row_embedding row) as [e|] eqn:Ee; [|discriminate].
    destruct (String.eqb (row_agent_id row) agent) eqn:Ea; [|discriminate].
    destruct (is_active row) eqn:Eact; [|discriminate].
    destruct (Qgtb _ minSimilarity) eqn:Es; [|discriminate].
    cbn [andb] in Hf. injection Hf as <-. cbn [sr_type]. split; [reflexivity|].
    apply String.eqb_eq in Ea. apply is_active_eq in Eact. apply Qgtb_lt in Es.
    exists row, e. cbn [sr_id sr_similarity sr_content sr_created_at].
    repeat split; assumption || reflexivity.
Qed.

(** Inversion of a successful search. *)
Lemma search_ok_inv now req db resp db' :
  search cosine_distance provider provider_name now req db
    = (Ok (send 200 resp), db') ->
  exists p queryEmbedding found,
    truthy_str (sq_query req) = true /\ truthy_str (sq_agent_id req) = true /\
    provider = Some p /\ p (or_str (sq_query req) "") = Some queryEmbedding /\
    (forall r, In r found ->
       search_hit cosine_distance db (or_str (sq_agent_id req) "") queryEmbedding
                  (or_q (sq_threshold req) (3 # 10)) r
       /\ in_strs (sr_type r) (with_default (sq_types req) ALL_TYPES) = true) /\
    ((Z.min (or_num (sq_limit req) 20) 100 < 0)%Z -> found = []) /\
    resp = mkSearchResponse
             (slice0 (Z.min (or_num (sq_limit req) 20) 100)
                     (sort_by (desc sr_similarity) found))
             (length (slice0 (Z.min (or_num (sq_limit req) 20) 100)
                             (sort_by (desc sr_similarity) found)))
             (or_str (sq_query req) "") provider_name /\
    db' = fold_left (fun db r => bump_row (table_of_result (sr_type r)) now
                                          (sr_id r) db)
                    (se_results resp) db.
Proof.
  unfold search.
  destruct (truthy_str (sq_query req)) eqn:Hq; [|cbn; unfold ret; congruence].
  destruct (truthy_str (sq_agent_id req)) eqn:Ha; [|cbn; unfold ret; congruence].
  cbn [negb orb]. cbv iota.
  destruct provider as [p|]; [|unfold ret; congruence].
  destruct (p (or_str (sq_query req) "")) as [qe|] eqn:Hp; [|unfold ret; congruence].
  cbv zeta. fold ALL_TYPES.
  set (maxResults := Z.min (or_num (sq_limit req) 20) 100).
  set (minSimilarity := or_q (sq_threshold req) (3 # 10)).
  set (agent := or_str (sq_agent_id req) "").
  set (tables := List.filter _ SEARCH_TABLES).
  set (body := fun (acc : list SearchResult) (t : SearchTable) =>
                 rows <- search_rows cosine_distance t qe agent minSimilarity
                                     maxResults ;;
                 ret (acc ++ rows)%list).
  set (I := fun acc : list SearchResult =>
              (forall r, In r acc ->
                 search_hit cosine_distance db agent qe minSimilarity r
                 /\ in_strs (sr_type r) (with_default (sq_types req) ALL_TYPES) = true)
              /\ ((maxResults < 0)%Z -> acc = [])).
  destruct (for_each_readonly I body tables db) with (acc := @nil SearchResult)
    as [(found & E & Hfound & Hneg)|[e E]].
  - intros t acc Ht [Hacc Hn]. unfold body, bind.
    destruct (search_rows cosine_distance t qe agent minSimilarity maxResults db)
      as [out db1] eqn:Er.
    apply search_rows_inv in Er as [-> [[e ->]|(rows & -> & Hpos & _ & Hrows)]].
    + right. eauto.
    + left. eexists. split; [reflexivity|]. split; [|intros; lia].
      intros r Hr. apply in_app_or in Hr as [Hr|Hr]; [now apply Hacc|].
      destruct (Hrows r Hr) as (Hty & row & e & H1 & H2 & H3 & H4 & H5 & H6 & H7 & H8 & H9).
      apply filter_In in Ht as [Ht Hsel]. split.
      * exists t, row, e. repeat split; assumption.
      * now rewrite Hty.
  - split; [intros r []|reflexivity].
  - unfold bind at 1. rewrite E. unfold bind, modify_db, ret.
    intros H. apply Ok_pair_inv in H as [H <-]. injection H as <-.
    exists p, qe, found. cbn [se_results]. repeat split; auto; apply Hfound; auto.
  - unfold bind at 1. rewrite E. discriminate.
Qed.

(** Every result of a search is an active item of the requesting agent with
    an embedding, of a type the request asked for, and its similarity to the
    query is strictly above the threshold -- 0.3 when the request names none,
    and also when it names 0. *)
Theorem search_returns_only_active_items_above_threshold now req db resp db' :
  search cosine_distance provider provider_name now req db
    = (Ok (send 200 resp), db') ->
  exists p queryEmbedding,
    provider = Some p /\ p (or_str (sq_query req) "") = Some queryEmbedding /\
    forall r, In r (se_results resp) ->
      search_hit cosine_distance db (or_str (sq_agent_id req) "") queryEmbedding
                 (or_q (sq_threshold req) (3 # 10)) r
      /\ in_strs (sr_type r) (with_default (sq_types req) ALL_TYPES) = true
      /\ (3 # 10 < sr_similarity r \/ exists th, sq_threshold req = Some th
                                               /\ ~ th == 0 /\ th < sr_similarity r)%Q.
Proof.
  intros H.
  apply search_ok_inv in H as (p & qe & found & _ & _ & Hp & Hqe & Hfound & _ & -> & _).
  exists p, qe. split; [assumption|]. split; [assumption|].
  cbn [se_results]. intros r Hr. apply In_slice0, In_sort_by in Hr.
  destruct (Hfound r Hr) as [Hhit Hty]. split; [assumption|]. split; [assumption|].
  destruct Hhit as (t & row & e & _ & _ & _ & _ & _ & _ & _ & _ & Hs & _).
  unfold or_q in Hs. destruct (sq_threshold req) as [th|]; [|now left].
  destruct (Qeq_bool th 0) eqn:E; [now left|].
  right. exists th. split; [reflexivity|]. split; [|assumption].
  intros H0. apply Qeq_bool_iff in H0. congruence.
Qed.

(** A search returns at most [limit] results, 20 when the request names no
    limit or names 0, and never more than 100; they are in the order of their
    similarity, highest first, and [total] is their number. *)
Theorem search_results_bounded_and_ordered now req db resp db' :
  search cosine_distance provider provider_name now req db
    = (Ok (send 200 resp), db') ->
  (length (se_results resp) <= Z.to_nat (Z.min (or_num (sq_limit req) 20) 100))%nat
  /\ (length (se_results resp) <= 100)%nat
  /\ se_total resp = length (se_results resp)
  /\ StronglySorted (fun x y => (y <= x)%Q) (map sr_similarity (se_results resp)).
Proof.
  intros H.
  apply search_ok_inv in H as (p & qe & found & _ & _ & _ & _ & _ & Hneg & -> & _).
  cbn [se_results se_total].
  assert (Hlen : (length (slice0 (Z.min (or_num (sq_limit req) 20) 100)
                                 (sort_by (desc sr_similarity) found))
                  <= Z.to_nat (Z.min (or_num (sq_limit req) 20) 100))%nat).
  { destruct (Z.ltb_spec (Z.min (or_num (sq_limit req) 20) 100) 0) as [Hlt|Hge].
    - rewrite (Hneg Hlt). unfold slice0. cbn [sort_by foldr].
      destruct (_ <? 0)%Z; rewrite take_nil; simpl; lia.
    - now apply slice0_length. }
  split; [exact Hlen|]. split; [lia|]. split; [reflexivity|].
  apply StronglySorted_map.
  destruct (slice0_take (Z.min (or_num (sq_limit req) 20) 100)
              (sort_by (desc sr_similarity) found)) as [k ->].
  apply StronglySorted_take.
  eapply StronglySorted_weaken; [|apply sort_by_sorted].
  - intros a b Hab. unfold desc in Hab. now apply Qle_bool_iff in Hab.
  - intros a b. apply desc_total.
  - intros a b c. apply desc_trans.
Qed.

(** With [types] the empty list a search looks into no table: it answers
    200 with no results and leaves the store as it was. (Recall treats the
    empty list as no restriction.) *)
Theorem search_with_empty_types_finds_nothing now req db p queryEmbedding :
  truthy_str (sq_query req) = true -> truthy_str (sq_agent_id req) = true ->
  provider = Some p -> p (or_str (sq_query req) "") = Some queryEmbedding ->
  sq_types req = Some [] ->
  search cosine_distance provider provider_name now req db
  = (Ok (send 200 (mkSearchResponse [] 0 (or_str (sq_query req) "") provider_name)),
     db)
  /\ tablesToSearch (sq_types req) = RECALL_TABLES.
Proof.
  intros Hq Ha Hp Hqe Hty. split; [|now rewrite Hty].
  unfold search. rewrite Hq, Ha, Hp, Hqe, Hty. cbn [negb orb with_default].
  assert (Hnone : List.filter (fun t => in_strs (st_type t) []) SEARCH_TABLES = [])
    by reflexivity.
  rewrite Hnone. cbn [for_each]. unfold bind, ret, modify_db.
  cbn [sort_by foldr].
  assert (Hs : forall n, slice0 n (@nil SearchResult) = []).
  { intros n. unfold slice0. destruct (n <? 0)%Z; now rewrite take_nil. }
  rewrite Hs. reflexivity.
Qed.

(** Search needs the embedder: without a provider it answers 503, and when
    embedding the query fails it answers 500; nothing is read or written.
    (Recall falls back to its keyword arm in both cases.) *)
Theorem search_without_query_embedding_fails now req db :
  truthy_str (sq_query req) = true -> truthy_str (sq_agent_id req) = true ->
  embed_with provider (or_str (sq_query req) "") = None ->
  (provider = None /\
   search cosine_distance provider provider_name now req db
   = (Ok (send_error 503 "Embedding provider not configured"), db))
  \/ (provider <> None /\
      search cosine_distance provider provider_name now req db
      = (Ok (send_error 500 "Embedding failed"), db)).
Proof.
  intros Hq Ha He. unfold search. rewrite Hq, Ha. cbn [negb orb].
  destruct provider as [p|]; [right|left; split; reflexivity].
  cbn [embed_with] in He. rewrite He. split; [discriminate|reflexivity].
Qed.

End MoreSearch.

(** *** On the example store *)

(** The only result is the active fact [f1]; the cooling fact [f3] with the
    same embedding is not returned. *)
Lemma search_returns_only_active_items_above_threshold_witness :
  let out := search Demo.cosine_distance (Some Demo.embed) "demo" Demo.now
                    Examples.search_request Demo.store in
  let resp := Examples.search_of out in
  out = (Ok (send 200 resp), snd out) /\
  map sr_id (se_results resp) = [row_id Demo.f1] /\
  exists p queryEmbedding,
    Some Demo.embed = Some p /\ p "TypeScript lang" = Some queryEmbedding /\
    forall r, In r (se_results resp) ->
      search_hit Demo.cosine_distance Demo.store Demo.agent1 queryEmbedding (3 # 10) r
      /\ in_strs (sr_type r) ALL_TYPES = true
      /\ (3 # 10 < sr_similarity r
          \/ exists th, Some 0%Q = Some th /\ ~ th == 0 /\ th < sr_similarity r)%Q.
Proof.
  intros out resp.
  assert (H : out = (Ok (send 200 resp), snd out)) by (vm_compute; reflexivity).
  split; [exact H|]. split; [vm_compute; reflexivity|].
  exact (search_returns_only_active_items_above_threshold Demo.cosine_distance
           (Some Demo.embed) "demo" Demo.now Examples.search_request Demo.store
           resp (snd out) H).
Defined.

Lemma search_results_bounded_and_ordered_witness :
  let out := search Demo.cosine_distance (Some Demo.embed) "demo" Demo.now
                    Examples.search_request Demo.store in
  let resp := Examples.search_of out in
  out = (Ok (send 200 resp), snd out) /\
  (length (se_results resp) <= 20)%nat
  /\ (length (se_results resp) <= 100)%nat
  /\ se_total resp = length (se_results resp)
  /\ StronglySorted (fun x y => (y <= x)%Q) (map sr_similarity (se_results resp)).
Proof.
  intros out resp.
  assert (H : out = (Ok (send 200 resp), snd out)) by (vm_compute; reflexivity).
  split; [exact H|].
  exact (search_results_bounded_and_ordered Demo.cosine_distance
           (Some Demo.embed) "demo" Demo.now Examples.search_request Demo.store
           resp (snd out) H).
Defined.

Lemma search_with_empty_types_finds_nothing_witness :
  let req := mkSearchRequest (Some "TypeScript lang") (Some Demo.agent1) (Some [])
                             None None in
  search Demo.cosine_distance (Some Demo.embed) "demo" Demo.now req Demo.store
  = (Ok (send 200 (mkSearchResponse [] 0 "TypeScript lang" "demo")), Demo.store)
  /\ tablesToSearch (Some []) = RECALL_TABLES.
Proof.
  intros req.
  apply (search_with_empty_types_finds_nothing Demo.cosine_distance
           (Some Demo.embed) "demo" Demo.now req Demo.store Demo.embed Demo.axis1);
    reflexivity.
Defined.

Lemma search_without_query_embedding_fails_witness :
  (@None (string -> option Vec) = None /\
   search Demo.cosine_distance None "demo" Demo.now Examples.search_request Demo.store
   = (Ok (send_error 503 "Embedding provider not configured"), Demo.store))
  \/ (@None (string -> option Vec) <> None /\
      search Demo.cosine_distance None "demo" Demo.now Examples.search_request
             Demo.store
      = (Ok (send_error 500 "Embedding failed"), Demo.store)).
Proof.
  apply (search_without_query_embedding_fails Demo.cosine_distance None "demo"
           Demo.now Examples.search_request Demo.store); reflexivity.
Defined.

(** ** Reading, deleting and listing items *)

Section MoreItems.

Variable provider : option (string -> option Vec).

Lemma filter_head_unique {A} (f : A -> bool) (l : list A) (a : A) :
  In a l -> f a = true -> (forall x, In x l -> f x = true -> x = a) ->
  exists rest, List.filter f l = a :: rest.
Proof.
  intros Hin Hf Hu.
  destruct (List.filter f l) as [|x rest] eqn:E.
  - exfalso. assert (H : In a []); [|destruct H].
    rewrite <- E. now apply filter_In.
  - exists rest. f_equal.
    assert (H : In x (x :: rest)) by now left.
    rewrite <- E in H. apply filter_In in H as [H1 H2]. now apply Hu.
Qed.

(** Reading an item by its id answers with the row as it is stored --
    whatever its decay status: a cooling or archived item is still
    addressable -- and then records the access: one more access, the time of
    the request as last access. The status is not changed by the read, and
    no other row is touched. The id is the table's primary key. *)
Theorem get_item_answers_and_records_the_access t not_found now id db r :
  In r (db_rows db t) -> row_id r = id ->
  (forall x, In x (db_rows db t) -> row_id x = id -> x = r) ->
  exists db',
    get_item t not_found now id db = (Ok (send 200 r), db') /\
    db_rows db' t
      = map (fun x => if String.eqb (row_id x) id
                      then touch t now (bump_access now x) else x)
            (db_rows db t) /\
    In (touch t now (bump_access now r)) (db_rows db' t) /\
    row_decay_status (touch t now (bump_access now r)) = row_decay_status r /\
    row_access_count (touch t now (bump_access now r)) = (row_access_count r + 1)%Z /\
    (forall x, In x (db_rows db t) -> row_id x <> id -> In x (db_rows db' t)) /\
    (forall t', t' <> t -> db_rows db' t' = db_rows db t').
Proof.
  intros Hin Hid Hpk. unfold get_item, bind, gets.
  destruct (filter_head_unique (has_id id) (db_rows db t) r) as [rest ->].
  - assumption.
  - unfold has_id. now apply String.eqb_eq.
  - intros x Hx Hhx. apply Hpk; [assumption|]. unfold has_id in Hhx.
    now apply String.eqb_eq.
  - unfold modify_db, ret. eexists. split; [reflexivity|].
    unfold bump_row. cbn [db_rows set_rows]. rewrite Table_eqb_refl.
    split; [reflexivity|]. split; [|split; [|split; [|split]]].
    + apply in_map_iff. exists r. split; [|assumption].
      apply String.eqb_eq in Hid. now rewrite Hid.
    + now rewrite touch_decay_status.
    + unfold touch. now destruct (has_updated_at_trigger t).
    + intros x Hx Hne. apply in_map_iff. exists x. split; [|assumption].
      apply String.eqb_neq in Hne. now rewrite Hne.
    + intros t' Hne. destruct (Table_eqb t' t) eqn:E; [|reflexivity].
      apply Table_eqb_eq in E. contradiction.
Qed.

(** Deleting an item removes its row, and nothing else: the edges that
    name the item stay in the graph. The item is then not found by id, and
    the one-hop traversal of recall skips the dangling edges: no related
    list contains the deleted item. *)
Theorem delete_item_removes_the_row_and_keeps_the_edges t not_found id db r :
  In r (db_rows db t) -> row_id r = id ->
  exists db',
    delete_item t not_found id db = (Ok (send_empty 204), db') /\
    (forall x, In x (db_rows db' t) <-> In x (db_rows db t) /\ row_id x <> id) /\
    (forall t', t' <> t -> db_rows db' t' = db_rows db t') /\
    db_memory_edges db' = db_memory_edges db /\
    (forall now,
       get_item t not_found now id db' = (Ok (send_error 404 not_found), db')) /\
    (forall itemId itemType agentId x,
       In x (getRelatedItems itemId itemType agentId db') ->
       ~ (res_type x = TABLE_TO_TYPE t /\ res_id x = id)).
Proof.
  intros Hin Hid. unfold delete_item, bind, delete_returning_id.
  assert (Hne : exists i rest,
             map row_id (List.filter (has_id id) (db_rows db t)) = i :: rest).
  { destruct (List.filter (has_id id) (db_rows db t)) as [|x rest] eqn:E.
    - exfalso. assert (H : In r []); [|destruct H].
      rewrite <- E. apply filter_In. split; [assumption|].
      unfold has_id. now apply String.eqb_eq.
    - simpl. eauto. }
  destruct Hne as (i & rest & ->). unfold ret. eexists. split; [reflexivity|].
  assert (Hrows : forall x,
             In x (List.filter (fun r0 => negb (has_id id r0)) (db_rows db t))
             <-> In x (db_rows db t) /\ row_id x <> id).
  { intros x. rewrite filter_In. unfold has_id.
    rewrite negb_true_iff, String.eqb_neq. reflexivity. }
  cbn [db_rows set_rows db_memory_edges]. rewrite Table_eqb_refl.
  split; [exact Hrows|]. split; [|split; [reflexivity|split]].
  - intros t' Hne. destruct (Table_eqb t' t) eqn:E; [|reflexivity].
    apply Table_eqb_eq in E. contradiction.
  - intros now. unfold get_item, bind, gets. cbn [db_rows set_rows].
    rewrite Table_eqb_refl.
    assert (Hnone : List.filter (has_id id)
                      (List.filter (fun r0 => negb (has_id id r0)) (db_rows db t))
                    = []).
    { apply filter_none. intros x Hx. apply Hrows in Hx as [_ Hx].
      unfold has_id. now apply String.eqb_neq. }
    now rewrite Hnone.
  - intros itemId itemType agentId x Hx [Hty Hxid].
    unfold getRelatedItems in Hx. apply In_omap in Hx
      as ([[[[direction related_type] related_id] relation] weight] & _ & Hx).
    destruct (List.find _ RECALL_TABLES) as [c|] eqn:Ef; [|discriminate].
    destruct (List.filter _ (db_rows _ (rt_table c))) as [|row rows] eqn:Er;
      [discriminate|].
    injection Hx as <-. cbn [res_type res_id] in Hty, Hxid.
    apply find_some in Ef as [Hc Ety]. apply String.eqb_eq in Ety.
    assert (rt_table c = t) by (apply recall_table_of_type; congruence).
    subst t.
    assert (Hrow : In row (row :: rows)) by now left.
    rewrite <- Er in Hrow. apply filter_In in Hrow as [Hrow _].
    cbn [db_rows set_rows] in Hrow. rewrite Table_eqb_refl in Hrow.
    apply Hrows in Hrow as [_ Hrow]. contradiction.
Qed.

(** *** Projects *)

Lemma detach_task_spec now id r :
  p_project_id (row_payload (detach_task now id r)) <> Some id /\
  row_id (detach_task now id r) = row_id r /\
  row_decay_status (detach_task now id r) = row_decay_status r /\
  p_title (row_payload (detach_task now id r)) = p_title (row_payload r) /\
  (p_project_id (row_payload r) <> Some id -> detach_task now id r = r).
Proof.
  unfold detach_task.
  destruct (opt_id_eqb (p_project_id (row_payload r)) (Some id)) eqn:E.
  - unfold touch. cbn [has_updated_at_trigger set_updated_at set_payload
                       set_project_id row_payload p_project_id row_id
                       row_decay_status p_title].
    repeat split; try discriminate.
    intros Hne. exfalso. apply Hne.
    destruct (p_project_id (row_payload r)) as [a|]; [|discriminate E].
    cbn in E. apply String.eqb_eq in E. now subst.
  - repeat split. intros Heq. rewrite Heq in E. cbn in E.
    now rewrite String.eqb_refl in E.
Qed.

(** Deleting a project keeps its tasks: each task that referenced the
    project is still there, in place, with no project; the other tasks are
    untouched; the project is then not found. *)
Theorem delete_project_detaches_its_tasks now id db p :
  In p (db_projects db) -> project_id p = id ->
  exists db',
    delete_project now id db = (Ok (send_empty 204), db') /\
    (forall q, In q (db_projects db') <-> In q (db_projects db) /\ project_id q <> id) /\
    Forall2 (fun r r' =>
               row_id r' = row_id r /\
               row_decay_status r' = row_decay_status r /\
               p_title (row_payload r') = p_title (row_payload r) /\
               p_project_id (row_payload r') <> Some id /\
               (p_project_id (row_payload r) <> Some id -> r' = r))
            (db_rows db tasks) (db_rows db' tasks) /\
    (forall t, t <> tasks -> db_rows db' t = db_rows db t) /\
    get_project id db' = (Ok (send_error 404 "Project not found"), db').
Proof.
  intros Hin Hid. unfold delete_project, bind, gets.
  destruct (List.filter (fun p0 => String.eqb (project_id p0) id) (db_projects db))
    as [|p0 rest] eqn:E.
  { exfalso. assert (H : In p []); [|destruct H].
    rewrite <- E. apply filter_In. split; [assumption|]. now apply String.eqb_eq. }
  unfold modify_db, ret. eexists. split; [reflexivity|].
  cbn [db_projects db_rows set_rows set_projects].
  assert (Hproj : forall q,
             In q (List.filter (fun p1 => negb (String.eqb (project_id p1) id))
                               (db_projects db))
             <-> In q (db_projects db) /\ project_id q <> id).
  { intros q. rewrite filter_In, negb_true_iff, String.eqb_neq. reflexivity. }
  split; [exact Hproj|]. split; [|split].
  - apply Forall2_map_r_self. intros r.
    destruct (detach_task_spec now id r) as (H1 & H2 & H3 & H4 & H5). auto.
  - intros t Hne. destruct (Table_eqb t tasks) eqn:Et; [|reflexivity].
    apply Table_eqb_eq in Et. contradiction.
  - unfold get_project, bind, gets. cbn [db_projects set_rows set_projects].
    assert (Hnone : List.filter (fun p1 => String.eqb (project_id p1) id)
                      (List.filter (fun p1 => negb (String.eqb (project_id p1) id))
                                   (db_projects db)) = []).
    { apply filter_none. intros q Hq. apply Hproj in Hq as [_ Hq].
      now apply String.eqb_neq. }
    now rewrite Hnone.
Qed.

(** *** Lists and pages *)

Lemma sql_page_inv {A} (lim off : option Z) (rows : list A) db out db' :
  sql_page lim off rows db = (out, db') ->
  db' = db /\
  ((exists e, out = Throw e)
   \/ (exists l o, lim = Some l /\ off = Some o /\ (0 <= l)%Z /\ (0 <= o)%Z /\
                   out = Ok (take (Z.to_nat l) (drop (Z.to_nat o) rows)))).
Proof.
  unfold sql_page, throw, ret.
  destruct lim as [l|], off as [o|];
    try (intros H; apply pair_equal_spec in H as [<- <-]; split; [reflexivity|];
         left; eauto).
  destruct (l <? 0)%Z eqn:El;
    [intros H; apply pair_equal_spec in H as [<- <-]; split; [reflexivity|];
     left; eauto|].
  destruct (o <? 0)%Z eqn:Eo;
    [intros H; apply pair_equal_spec in H as [<- <-]; split; [reflexivity|];
     left; eauto|].
  destruct (max_bigint <? o)%Z;
    intros H; apply pair_equal_spec in H as [<- <-]; (split; [reflexivity|]);
    [left; eauto|].
  right. exists l, o. apply Z.ltb_ge in El, Eo. auto.
Qed.

Lemma page_limit_cap limit dflt cap l :
  page_limit limit dflt cap = Some l -> (l <= cap)%Z.
Proof.
  unfold page_limit. destruct (parseInt _); [|discriminate].
  intros H. injection H as <-. lia.
Qed.

Lemma StronglySorted_drop {A} (R : A -> A -> Prop) (n : nat) (l : list A) :
  StronglySorted R l -> StronglySorted R (drop n l).
Proof.
  intros H. revert n. induction H as [|x l Hs IH Hx]; intros [|n]; simpl;
    try constructor; auto.
Qed.

(** A page of a list route: the rows selected, in their order, cut to the
    page. *)
Lemma list_page_inv (select : DB -> list Row) limit offset dflt cap db resp db' :
  (selected <- gets select ;;
   rows <- sql_page (page_limit limit dflt cap) (page_offset offset) selected ;;
   ret (send 200 (mkListing rows (length rows)))) db = (Ok (send 200 resp), db') ->
  db' = db /\
  exists l o,
    page_limit limit dflt cap = Some l /\ page_offset offset = Some o /\
    (0 <= l <= cap)%Z /\ (0 <= o)%Z /\
    listed resp = take (Z.to_nat l) (drop (Z.to_nat o) (select db)) /\
    listed_total resp = length (listed resp).
Proof.
  unfold bind, gets.
  destruct (sql_page _ _ (select db) db) as [out db1] eqn:E.
  apply sql_page_inv in E as [-> [[e ->]|(l & o & Hl & Hoff & Hl0 & Ho0 & ->)]];
    [discriminate|].
  unfold ret. intros H. apply Ok_pair_inv in H as [H <-]. injection H as <-.
  split; [reflexivity|]. exists l, o. cbn [listed listed_total].
  pose proof (page_limit_cap _ _ _ _ Hl). repeat split; auto; lia.
Qed.

(** The list of decisions: never more than 100 rows, 50 when the request
    names no limit; only active decisions, of the one agent when the request
    names an agent; newest first; [total] is the number of rows sent. *)
Theorem list_decisions_is_capped_active_and_newest_first q db resp db' :
  list_decisions q db = (Ok (send 200 resp), db') ->
  db' = db
  /\ (length (listed resp) <= 100)%nat
  /\ (truthy_str (lq_limit q) = false -> (length (listed resp) <= 50)%nat)
  /\ listed_total resp = length (listed resp)
  /\ (forall r, In r (listed resp) ->
        In r (db_rows db decisions) /\ row_decay_status r = active /\
        (truthy_str (lq_agent_id q) = true ->
         row_agent_id r = or_str (lq_agent_id q) ""))
  /\ StronglySorted (fun a b => (row_created_at b <= row_created_at a)%Z)
                    (listed resp).
Proof.
  unfold list_decisions. cbv zeta. intros H.
  apply list_page_inv in H as (-> & l & o & Hl & Hoff & Hcap & Ho & Hrows & Htot).
  split; [reflexivity|]. rewrite Hrows.
  split; [rewrite length_take; lia|]. split; [|split; [now rewrite <- Hrows|split]].
  - intros Hno. rewrite length_take.
    assert (l <= 50)%Z; [|lia].
    unfold page_limit in Hl.
    assert (E : or_str (lq_limit q) "50" = "50").
    { destruct (lq_limit q) as [s|]; [|reflexivity]. cbn in Hno |- *.
      apply negb_false_iff in Hno. now rewrite Hno. }
    rewrite E in Hl. cbn in Hl. injection Hl as <-. lia.
  - intros r Hr. apply In_take, In_drop, In_sort_by, filter_In in Hr as [Hin Hc].
    apply andb_true_iff in Hc as [Hact Hag]. apply is_active_eq in Hact.
    split; [assumption|]. split; [assumption|].
    intros Ht. unfold filter_opt in Hag. rewrite Ht in Hag.
    now apply String.eqb_eq.
  - apply StronglySorted_take, StronglySorted_drop.
    eapply StronglySorted_weaken; [|apply sort_by_sorted].
    + intros a b Hab. unfold desc in Hab. apply Qle_bool_iff in Hab.
      now rewrite <- Zle_Qle in Hab.
    + intros a b. apply desc_total.
    + intros a b c. apply desc_trans.
Qed.

Lemma by_priority_total a b :
  by_priority_then_newest a b = true \/ by_priority_then_newest b a = true.
Proof.
  unfold by_priority_then_newest.
  rewrite !orb_true_iff, !andb_true_iff, !Z.ltb_lt, !Z.eqb_eq, !Z.leb_le. lia.
Qed.

Lemma by_priority_trans a b c :
  by_priority_then_newest a b = true -> by_priority_then_newest b c = true ->
  by_priority_then_newest a c = true.
Proof.
  unfold by_priority_then_newest.
  rewrite !orb_true_iff, !andb_true_iff, !Z.ltb_lt, !Z.eqb_eq, !Z.leb_le. lia.
Qed.

(** The list of tasks: never more than 100 rows; only active tasks that
    pass the filters the request names (agent, status, project); highest
    priority first and, among tasks of one priority, newest first. *)
Theorem list_tasks_is_capped_active_and_by_priority q db resp db' :
  list_tasks q db = (Ok (send 200 resp), db') ->
  db' = db
  /\ (length (listed resp) <= 100)%nat
  /\ listed_total resp = length (listed resp)
  /\ (forall r, In r (listed resp) ->
        In r (db_rows db tasks) /\ row_decay_status r = active /\
        (truthy_str (lq_agent_id q) = true ->
         row_agent_id r = or_str (lq_agent_id q) "") /\
        (truthy_str (lq_status q) = true ->
         p_status (row_payload r) = or_str (lq_status q) "") /\
        (truthy_str (lq_project_id q) = true ->
         p_project_id (row_payload r) = Some (or_str (lq_project_id q) "")))
  /\ StronglySorted
       (fun a b =>
          (p_priority (row_payload b) < p_priority (row_payload a))%Z
          \/ (p_priority (row_payload b) = p_priority (row_payload a)
              /\ (row_created_at b <= row_created_at a)%Z))
       (listed resp).
Proof.
  unfold list_tasks. cbv zeta. intros H.
  apply list_page_inv in H as (-> & l & o & Hl & Hoff & Hcap & Ho & Hrows & Htot).
  split; [reflexivity|]. rewrite Hrows.
  split; [rewrite length_take; lia|]. split; [now rewrite <- Hrows|split].
  - intros r Hr. apply In_take, In_drop, In_sort_by, filter_In in Hr as [Hin Hc].
    apply andb_true_iff in Hc as [Hc Hproj]. apply andb_true_iff in Hc as [Hc Hst].
    apply andb_true_iff in Hc as [Hact Hag]. apply is_active_eq in Hact.
    split; [assumption|]. split; [assumption|]. split; [|split].
    + intros Ht. unfold filter_opt in Hag. rewrite Ht in Hag.
      now apply String.eqb_eq.
    + intros Ht. unfold filter_opt in Hst. rewrite Ht in Hst.
      now apply String.eqb_eq.
    + intros Ht. rewrite Ht in Hproj.
      destruct (p_project_id (row_payload r)) as [a|]; [|discriminate].
      cbn in Hproj. apply String.eqb_eq in Hproj. now subst.
  - apply StronglySorted_take, StronglySorted_drop.
    eapply StronglySorted_weaken; [|apply sort_by_sorted].
    + intros a b Hab. unfold by_priority_then_newest in Hab.
      rewrite orb_true_iff, andb_true_iff, Z.ltb_lt, Z.eqb_eq, Z.leb_le in Hab.
      exact Hab.
    + apply by_priority_total.
    + apply by_priority_trans.
Qed.

(** The messages of a session: never more than 500 rows, 100 when the
    request names no limit; oldest first; and, unlike the lists of items,
    whatever their decay status. *)
Theorem list_messages_is_capped_and_oldest_first sessionId q db resp db' :
  list_messages sessionId q db = (Ok (send 200 resp), db') ->
  db' = db
  /\ (length (listed resp) <= 500)%nat
  /\ (truthy_str (lq_limit q) = false -> (length (listed resp) <= 100)%nat)
  /\ listed_total resp = length (listed resp)
  /\ (forall r, In r (listed resp) ->
        In r (db_rows db session_messages)
        /\ p_session_id (row_payload r) = Some sessionId)
  /\ (truthy_str (lq_limit q) = false -> truthy_str (lq_offset q) = false ->
      forall r, In r (db_rows db session_messages) ->
        p_session_id (row_payload r) = Some sessionId ->
        (length (List.filter
                   (fun x => opt_id_eqb (p_session_id (row_payload x)) (Some sessionId))
                   (db_rows db session_messages)) <= 100)%nat ->
        In r (listed resp))
  /\ StronglySorted (fun a b => (row_created_at a <= row_created_at b)%Z)
                    (listed resp).
Proof.
  unfold list_messages. cbv zeta. intros H.
  apply list_page_inv in H as (-> & l & o & Hl & Hoff & Hcap & Ho & Hrows & Htot).
  split; [reflexivity|].
  assert (Hdflt : forall (p : option string) d,
             truthy_str p = false -> or_str p d = d).
  { intros [s|] d Hp; [|reflexivity]. cbn in Hp |- *.
    apply negb_false_iff in Hp. now rewrite Hp. }
  split; [rewrite Hrows, length_take; lia|].
  split; [|split; [assumption|split; [|split]]].
  - intros Hno. rewrite Hrows, length_take.
    unfold page_limit in Hl. rewrite (Hdflt _ _ Hno) in Hl. cbn in Hl.
    injection Hl as <-. lia.
  - intros r Hr. rewrite Hrows in Hr.
    apply In_take, In_drop, In_sort_by, filter_In in Hr as [Hin Hc].
    split; [assumption|].
    destruct (p_session_id (row_payload r)) as [a|]; [|discriminate].
    cbn in Hc. apply String.eqb_eq in Hc. now subst.
  - intros Hno Hnoff r Hin Hs Hlen.
    assert (H100 : parseInt "100" = Some 100%Z) by (vm_compute; reflexivity).
    assert (H0 : parseInt "0" = Some 0%Z) by (vm_compute; reflexivity).
    unfold page_limit in Hl. rewrite (Hdflt _ _ Hno), H100 in Hl.
    cbn [option_map] in Hl. injection Hl as <-.
    unfold page_offset in Hoff. rewrite (Hdflt _ _ Hnoff), H0 in Hoff.
    injection Hoff as <-.
    rewrite Hrows. change (Z.to_nat 0) with 0%nat.
    change (Z.to_nat (Z.min 100 500)) with 100%nat. rewrite drop_0.
    rewrite take_ge.
    + apply In_sort_by, filter_In. split; [assumption|]. rewrite Hs. cbn.
      apply String.eqb_refl.
    + now rewrite sort_by_length.
  - rewrite Hrows. apply StronglySorted_take, StronglySorted_drop.
    eapply StronglySorted_weaken; [|apply sort_by_sorted].
    + intros a b Hab. unfold asc in Hab. apply Qle_bool_iff in Hab.
      now rewrite <- Zle_Qle in Hab.
    + intros a b. unfold asc. rewrite !Qle_bool_iff.
      destruct (Qlt_le_dec (inject_Z (row_created_at a)) (inject_Z (row_created_at b)));
        auto using Qlt_le_weak.
    + intros a b c. unfold asc. rewrite !Qle_bool_iff. apply Qle_trans.
Qed.

(** *** Event types *)

Lemma in_strs_In s l : in_strs s l = true <-> In s l.
Proof.
  unfold in_strs. rewrite existsb_exists. split.
  - intros (x & Hx & E). apply String.eqb_eq in E. now subst.
  - intros H. exists s. split; [assumption|apply String.eqb_refl].
Qed.

(** The [hexmem_store] tool offers ten event types; the events table
    accepts six. An event of one of the other four -- error, change,
    interaction, system -- passes the handler's validation, is rejected by the
    table's CHECK constraint, and the request fails with nothing stored. *)
Theorem plugin_event_types_beyond_the_schema_are_rejected now (agentUuid : Id) params db et :
  truthy_str (sp_title params) = true -> agentUuid <> "" ->
  sp_event_type params = Some et ->
  In et PLUGIN_EVENT_TYPES -> ~ In et EVENT_TYPES ->
  In et ["error"; "change"; "interaction"; "system"]
  /\ post_event provider now (hexmem_store_event_body agentUuid params) db
     = (Throw (check_violation "row check"), db).
Proof.
  intros Ht Ha He Hin Hnot.
  assert (Hfour : In et ["error"; "change"; "interaction"; "system"]).
  { unfold PLUGIN_EVENT_TYPES in Hin. unfold EVENT_TYPES in Hnot.
    cbn [In] in Hin, Hnot |- *. intuition. }
  split; [exact Hfour|].
  assert (Het : or_str (Some et) "discovery" = et).
  { cbn [In] in Hfour. destruct Hfour as [<-|[<-|[<-|[<-|[]]]]]; reflexivity. }
  assert (Hbad : in_strs et EVENT_TYPES = false).
  { apply not_true_iff_false. intros H. now apply in_strs_In in H. }
  unfold post_event, hexmem_store_event_body.
  cbn [eq_agent_id eq_title eq_event_type eq_description eq_severity eq_occurred_at].
  rewrite He, Het, Ht.
  assert (Hagent : truthy_str (Some agentUuid) = true).
  { cbn [truthy_str]. apply negb_true_iff. now apply String.eqb_neq. }
  assert (Horstr : or_str (Some agentUuid) "" = agentUuid).
  { cbn [or_str]. apply String.eqb_neq in Ha. now rewrite Ha. }
  rewrite Hagent.
  assert (Htype : truthy_str (Some et) = true).
  { cbn [In] in Hfour. destruct Hfour as [<-|[<-|[<-|[<-|[]]]]]; reflexivity. }
  rewrite Htype. cbn [negb orb]. cbv iota.
  assert (Het' : or_str (Some et) "" = et).
  { cbn [In] in Hfour. destruct Hfour as [<-|[<-|[<-|[<-|[]]]]]; reflexivity. }
  unfold bind, insert_row. cbn [row_checks p_event_type p_severity].
  rewrite Het', Hbad. reflexivity.
Qed.

(** *** Decay status *)

Lemma count_by_status_counts t agent db :
  fold_left set_count (count_by_status t agent db) (mkCounts 0 0 0)
  = mkCounts
      (length (List.filter (fun r => String.eqb (row_agent_id r) agent
                                     && DecayStatus_eqb (row_decay_status r) active)
                           (db_rows db t)))
      (length (List.filter (fun r => String.eqb (row_agent_id r) agent
                                     && DecayStatus_eqb (row_decay_status r) cooling)
                           (db_rows db t)))
      (length (List.filter (fun r => String.eqb (row_agent_id r) agent
                                     && DecayStatus_eqb (row_decay_status r) archived)
                           (db_rows db t))).
Proof.
  unfold count_by_status. cbn [omap list_omap].
  set (a := length (List.filter (fun r => _ && DecayStatus_eqb _ active) _)).
  set (c := length (List.filter (fun r => _ && DecayStatus_eqb _ cooling) _)).
  set (z := length (List.filter (fun r => _ && DecayStatus_eqb _ archived) _)).
  destruct (Nat.eqb_spec a 0) as [->|_], (Nat.eqb_spec c 0) as [->|_],
    (Nat.eqb_spec z 0) as [->|_]; reflexivity.
Qed.

Lemma status_partition (agent : Id) (l : list Row) :
  (length (List.filter (fun r => String.eqb (row_agent_id r) agent
                                 && DecayStatus_eqb (row_decay_status r) active) l)
   + length (List.filter (fun r => String.eqb (row_agent_id r) agent
                                   && DecayStatus_eqb (row_decay_status r) cooling) l)
   + length (List.filter (fun r => String.eqb (row_agent_id r) agent
                                   && DecayStatus_eqb (row_decay_status r) archived) l)
   = length (List.filter (fun r => String.eqb (row_agent_id r) agent) l))%nat.
Proof.
  induction l as [|r l IH]; [reflexivity|]. cbn [List.filter].
  destruct (String.eqb (row_agent_id r) agent), (row_decay_status r);
    cbn [andb DecayStatus_eqb length]; lia.
Qed.

(** The decay overview of an agent reports, for each of the five tables,
    how many of the agent's items are active, cooling and archived: the three
    counts add up to the number of the agent's rows in the table. The
    policies listed are the agent's own, then the global ones. *)
Theorem decay_status_counts_every_item_once (agent_id : option string) db :
  truthy_str agent_id = true ->
  exists ov,
    decay_status agent_id db = (Ok (send 200 ov), db) /\
    map fst (ov_status ov)
      = ["facts"; "decisions"; "tasks"; "events"; "session_messages"] /\
    (forall t c, In (TABLE_NAME t, c) (ov_status ov) ->
       n_active c
         = length (List.filter
                     (fun r => String.eqb (row_agent_id r) (or_str agent_id "")
                               && DecayStatus_eqb (row_decay_status r) active)
                     (db_rows db t)) /\
       (n_active c + n_cooling c + n_archived c
        = length (List.filter
                    (fun r => String.eqb (row_agent_id r) (or_str agent_id ""))
                    (db_rows db t)))%nat) /\
    (forall p, In p (ov_policies ov) <->
       In p (db_decay_policies db) /\
       (policy_agent_id p = Some (or_str agent_id "") \/ policy_agent_id p = None)).
Proof.
  intros Ha. unfold decay_status. rewrite Ha. cbn [negb].
  unfold bind, gets, ret. eexists. split; [reflexivity|].
  cbn [ov_status ov_policies]. split; [reflexivity|]. split.
  - intros t c Hin. cbn [map In] in Hin.
    assert (Hc : c = fold_left set_count
                       (count_by_status t (or_str agent_id "") db) (mkCounts 0 0 0)).
    { destruct Hin as [H|[H|[H|[H|[H|[]]]]]]; injection H as Hn <-;
        destruct t; try discriminate Hn; reflexivity. }
    rewrite Hc, count_by_status_counts. cbn [n_active n_cooling n_archived].
    split; [reflexivity|apply status_partition].
  - intros p. unfold policies_of. rewrite in_app_iff, !filter_In.
    destruct (policy_agent_id p) as [a|] eqn:E; cbn [opt_id_eqb is_null_id negb orb].
    + rewrite orb_false_r, String.eqb_eq. split.
      * intros [[[H1 H2] _]|[_ H]]; [|discriminate]. split; [assumption|].
        left. now subst.
      * intros [H1 [H2|H2]]; [|discriminate]. left. injection H2 as ->. auto.
    + split.
      * intros [[_ H]|[[H1 _] _]]; [discriminate|]. auto.
      * intros [H1 _]. right. auto.
Qed.

End MoreItems.

(** *** The theorems of this part on the example stores *)

Lemma get_item_answers_and_records_the_access_witness :
  exists db',
    get_fact Demo.now (row_id Demo.f1) Demo.store = (Ok (send 200 Demo.f1), db') /\
    In (touch facts Demo.now (bump_access Demo.now Demo.f1)) (db_rows db' facts) /\
    row_access_count (touch facts Demo.now (bump_access Demo.now Demo.f1)) = 1%Z /\
    db_rows db' decisions = [Demo.d1].
Proof.
  destruct (get_item_answers_and_records_the_access facts "Fact not found" Demo.now
              (row_id Demo.f1) Demo.store Demo.f1)
    as (db' & H1 & _ & H3 & _ & H5 & _ & H7).
  - vm_compute. tauto.
  - reflexivity.
  - intros x Hx Hid. vm_compute in Hx.
    destruct Hx as [<-|[<-|[<-|[<-|[]]]]]; [reflexivity|discriminate..].
  - exists db'. split; [exact H1|]. split; [exact H3|]. split; [exact H5|].
    rewrite (H7 decisions); [reflexivity|discriminate].
Defined.

Lemma delete_item_removes_the_row_and_keeps_the_edges_witness :
  exists db',
    delete_fact (row_id Demo.f1) Demo.store = (Ok (send_empty 204), db') /\
    db_memory_edges db' = [Demo.edge1] /\
    get_fact Demo.now (row_id Demo.f1) db'
    = (Ok (send_error 404 "Fact not found"), db') /\
    forall x, In x (getRelatedItems (row_id Demo.d1) "decision" Demo.agent1 db') ->
      ~ (res_type x = "fact" /\ res_id x = row_id Demo.f1).
Proof.
  destruct (delete_item_removes_the_row_and_keeps_the_edges facts "Fact not found"
              (row_id Demo.f1) Demo.store Demo.f1)
    as (db' & H1 & _ & _ & H4 & H5 & H6).
  - vm_compute. tauto.
  - reflexivity.
  - exists db'. split; [exact H1|]. split; [exact H4|]. split; [apply H5|].
    intros x Hx. exact (H6 _ _ _ x Hx).
Defined.

Lemma delete_project_detaches_its_tasks_witness :
  exists db',
    delete_project Demo.now (project_id Examples.project1) Examples.work_store
    = (Ok (send_empty 204), db') /\
    Forall2 (fun r r' =>
               row_id r' = row_id r /\
               row_decay_status r' = row_decay_status r /\
               p_title (row_payload r') = p_title (row_payload r) /\
               p_project_id (row_payload r') <> Some (project_id Examples.project1) /\
               (p_project_id (row_payload r) <> Some (project_id Examples.project1) ->
                r' = r))
            [Examples.t1; Examples.t2; Examples.t3] (db_rows db' tasks) /\
    get_project (project_id Examples.project1) db'
    = (Ok (send_error 404 "Project not found"), db').
Proof.
  destruct (delete_project_detaches_its_tasks Demo.now
              (project_id Examples.project1) Examples.work_store Examples.project1)
    as (db' & H1 & _ & H3 & _ & H5).
  - vm_compute. tauto.
  - reflexivity.
  - exists db'. split; [exact H1|]. split; [exact H3|exact H5].
Defined.

Lemma list_decisions_is_capped_active_and_newest_first_witness :
  list_decisions Examples.no_query Demo.store
  = (Ok (send 200 (mkListing [Demo.d1] 1)), Demo.store)
  /\ (length [Demo.d1] <= 50)%nat.
Proof.
  assert (H : list_decisions Examples.no_query Demo.store
              = (Ok (send 200 (mkListing [Demo.d1] 1)), Demo.store))
    by (vm_compute; reflexivity).
  split; [exact H|].
  destruct (list_decisions_is_capped_active_and_newest_first _ _ _ _ H)
    as (_ & _ & H50 & _).
  apply H50. reflexivity.
Defined.

(** Of the tasks of the project the two are listed, by priority and then the
    newer first. *)
Lemma list_tasks_is_capped_active_and_by_priority_witness :
  let q := mkListQuery None None (Some (project_id Examples.project1)) None None in
  list_tasks q Examples.work_store
  = (Ok (send 200 (mkListing [Examples.t3; Examples.t1] 2)), Examples.work_store)
  /\ forall r, In r [Examples.t3; Examples.t1] ->
       p_project_id (row_payload r) = Some (project_id Examples.project1).
Proof.
  intros q.
  assert (H : list_tasks q Examples.work_store
              = (Ok (send 200 (mkListing [Examples.t3; Examples.t1] 2)),
                 Examples.work_store))
    by (vm_compute; reflexivity).
  split; [exact H|].
  destruct (list_tasks_is_capped_active_and_by_priority _ _ _ _ H)
    as (_ & _ & _ & Hin & _).
  intros r Hr. destruct (Hin r Hr) as (_ & _ & _ & _ & Hp).
  apply Hp. reflexivity.
Defined.

Lemma list_messages_is_capped_and_oldest_first_witness :
  list_messages Demo.session1 Examples.no_query Examples.work_store
  = (Ok (send 200 (mkListing [Examples.m1; Examples.m2] 2)), Examples.work_store)
  /\ StronglySorted (fun a b => (row_created_at a <= row_created_at b)%Z)
                    [Examples.m1; Examples.m2].
Proof.
  assert (H : list_messages Demo.session1 Examples.no_query Examples.work_store
              = (Ok (send 200 (mkListing [Examples.m1; Examples.m2] 2)),
                 Examples.work_store))
    by (vm_compute; reflexivity).
  split; [exact H|].
  destruct (list_messages_is_capped_and_oldest_first _ _ _ _ _ H)
    as (_ & _ & _ & _ & _ & _ & Hs).
  exact Hs.
Defined.

Lemma plugin_event_types_beyond_the_schema_are_rejected_witness :
  post_event (Some Demo.embed) Demo.now
             (hexmem_store_event_body Demo.agent1 Examples.store_params) Demo.store
  = (Throw (check_violation "row check"), Demo.store).
Proof.
  apply (plugin_event_types_beyond_the_schema_are_rejected (Some Demo.embed) Demo.now
           Demo.agent1 Examples.store_params Demo.store "error").
  - reflexivity.
  - discriminate.
  - reflexivity.
  - vm_compute. tauto.
  - vm_compute. intros H. repeat (destruct H as [H|H]; [discriminate H|]). exact H.
Defined.

Lemma decay_status_counts_every_item_once_witness :
  exists ov,
    decay_status (Some Demo.agent1) Demo.store = (Ok (send 200 ov), Demo.store) /\
    In ("facts", mkCounts 3 1 0) (ov_status ov).
Proof.
  destruct (decay_status_counts_every_item_once (Some Demo.agent1) Demo.store)
    as (ov & H1 & _).
  - reflexivity.
  - exists ov. split; [exact H1|].
    assert (E : Ok (send 200 ov) = fst (decay_status (Some Demo.agent1) Demo.store))
      by (now rewrite H1).
    vm_compute in E. injection E as ->. vm_compute. tauto.
Defined.

(** ** The graph around an item *)

Section MoreEdges.

Lemma edge_key_fields (e : Edge) src sid tgt tid rel :
  edge_key e = (src, sid, tgt, tid, rel) ->
  edge_source_type e = src /\ edge_source_id e = sid /\
  edge_target_type e = tgt /\ edge_target_id e = tid /\ edge_relation e = rel.
Proof. unfold edge_key. intros H. injection H. auto. Qed.

(** An edge that [POST /edges] answers with is, from then on, in the graph of
    both of its endpoints: among the outgoing edges of its source and among
    the incoming edges of its target, with the weight of the request. The
    graph's total is the number of edges it lists, and reading it changes
    nothing. *)
Theorem posted_edge_is_in_the_graph_of_both_endpoints now req db e db1 :
  post_edge now req db = (Ok (reply 201 (body_edge e)), db1) ->
  edge_source_type e = or_str (gq_source_type req) "" /\
  edge_source_id e = or_str (gq_source_id req) "" /\
  edge_target_type e = or_str (gq_target_type req) "" /\
  edge_target_id e = or_str (gq_target_id req) "" /\
  edge_weight e = match gq_weight req with Some w => w | None => 1%Q end /\
  exists from_source from_target,
    get_graph (edge_source_type e) (edge_source_id e) None db1
      = (Ok (send 200 from_source), db1) /\
    In e (gv_outgoing from_source) /\
    gv_total from_source
      = (length (gv_outgoing from_source) + length (gv_incoming from_source))%nat /\
    get_graph (edge_target_type e) (edge_target_id e) None db1
      = (Ok (send 200 from_target), db1) /\
    In e (gv_incoming from_target) /\
    (forall x, In x (gv_outgoing from_source) ->
       In x (db_memory_edges db1) /\
       edge_source_type x = edge_source_type e /\ edge_source_id x = edge_source_id e).
Proof.
  intros H. apply post_edge_created in H.
  apply upsert_edge_ok in H as (_ & Hk & Hw & _ & Hfind & _ & _).
  unfold request_key in Hk. apply edge_key_fields in Hk as (K1 & K2 & K3 & K4 & _).
  apply find_some in Hfind as [Hin _].
  repeat (split; [assumption|]).
  unfold get_graph, bind, gets, ret.
  eexists. eexists. split; [reflexivity|]. cbn [gv_outgoing gv_incoming gv_total].
  unfold edge_agent_filter. cbn [truthy_str].
  split.
  { apply filter_In. split; [assumption|]. now rewrite !String.eqb_refl. }
  split; [reflexivity|]. split; [reflexivity|]. split.
  { apply filter_In. split; [assumption|]. now rewrite !String.eqb_refl. }
  intros x Hx. apply filter_In in Hx as [Hx Hc]. split; [assumption|].
  rewrite andb_true_r, andb_true_iff, !String.eqb_eq in Hc. exact Hc.
Qed.

Lemma filter_all_true {A} (f : A -> bool) (l : list A) :
  (forall x, In x l -> f x = true) -> List.filter f l = l.
Proof.
  induction l as [|a l IH]; intros H; cbn [List.filter]; [reflexivity|].
  rewrite (H a (or_introl eq_refl)). f_equal. apply IH. intros x Hx. apply H. now right.
Qed.

(** Deleting an edge by id answers 204 and removes that edge and no other;
    the rows of the items it linked stay. From then on neither endpoint's
    graph lists it, and deleting the same id again answers 404. *)
Theorem delete_edge_removes_the_edge_from_the_graph id db e :
  In e (db_memory_edges db) -> edge_id e = id ->
  exists db',
    delete_edge id db = (Ok (send_empty 204), db') /\
    (forall x, In x (db_memory_edges db') <->
               In x (db_memory_edges db) /\ edge_id x <> id) /\
    db_rows db' = db_rows db /\
    (forall type node agent_id gv,
       get_graph type node agent_id db' = (Ok (send 200 gv), db') ->
       forall x, In x (gv_outgoing gv) \/ In x (gv_incoming gv) -> edge_id x <> id) /\
    delete_edge id db' = (Ok (send_error 404 "Edge not found"), db').
Proof.
  intros Hin Hid. unfold delete_edge at 1. unfold bind, gets, modify_db, ret.
  destruct (List.filter (fun x => String.eqb (edge_id x) id) (db_memory_edges db))
    as [|y ys] eqn:Ef.
  { exfalso. assert (Hx : In e (List.filter (fun x => String.eqb (edge_id x) id)
                                            (db_memory_edges db))).
    { apply filter_In. split; [assumption|]. now apply String.eqb_eq. }
    rewrite Ef in Hx. destruct Hx. }
  eexists. split; [reflexivity|]. cbn [db_memory_edges set_memory_edges db_rows].
  assert (Hmem : forall x,
             In x (List.filter (fun e0 => negb (String.eqb (edge_id e0) id))
                               (db_memory_edges db))
             <-> In x (db_memory_edges db) /\ edge_id x <> id).
  { intros x. rewrite filter_In, negb_true_iff, String.eqb_neq. reflexivity. }
  split; [exact Hmem|]. split; [reflexivity|]. split.
  - intros type node agent gv Hg x Hx.
    unfold get_graph, bind, gets, ret in Hg. apply Ok_pair_inv in Hg as [Hg _].
    injection Hg as <-. cbn [gv_outgoing gv_incoming db_memory_edges set_memory_edges] in Hx.
    destruct Hx as [Hx|Hx]; apply filter_In in Hx as [Hx _]; now apply Hmem in Hx.
  - unfold delete_edge, bind, gets, modify_db, ret.
    cbn [db_memory_edges set_memory_edges].
    set (l := List.filter (fun e0 => negb (String.eqb (edge_id e0) id))
                          (db_memory_edges db)).
    assert (Hnone : List.filter (fun x => String.eqb (edge_id x) id) l = []).
    { apply filter_none. intros x Hx. apply Hmem in Hx as [_ Hx].
      now apply String.eqb_neq. }
    rewrite Hnone.
    assert (Hsame : List.filter (fun e0 => negb (String.eqb (edge_id e0) id)) l = l).
    { apply filter_all_true. intros x Hx. apply Hmem in Hx as [_ Hx].
      apply negb_true_iff. now apply String.eqb_neq. }
    rewrite Hsame. reflexivity.
Qed.

End MoreEdges.

Lemma posted_edge_is_in_the_graph_of_both_endpoints_witness :
  let out := post_edge Demo.now (Demo.edge_request (9 # 10)) Demo.store in
  let e := Demo.edge_of (Demo.answer out Demo.no_answer) in
  edge_source_type e = "task" /\ edge_target_id e = row_id Demo.f1 /\
  exists from_source,
    get_graph "task" (row_id Demo.f4) None (snd out)
      = (Ok (send 200 from_source), snd out) /\
    In e (gv_outgoing from_source).
Proof.
  intros out e.
  assert (H : out = (Ok (reply 201 (body_edge e)), snd out)) by (vm_compute; reflexivity).
  destruct (posted_edge_is_in_the_graph_of_both_endpoints _ _ _ _ _ H)
    as (K1 & _ & _ & K4 & _ & gs & gt & G1 & G2 & _).
  split; [exact K1|]. split; [exact K4|].
  exists gs. split; [exact G1|exact G2].
Defined.

Lemma delete_edge_removes_the_edge_from_the_graph_witness :
  exists db',
    delete_edge (edge_id Demo.edge1) Examples.store = (Ok (send_empty 204), db') /\
    db_rows db' = db_rows Examples.store /\
    delete_edge (edge_id Demo.edge1) db' = (Ok (send_error 404 "Edge not found"), db').
Proof.
  destruct (delete_edge_removes_the_edge_from_the_graph (edge_id Demo.edge1)
              Examples.store Demo.edge1)
    as (db' & H1 & _ & H3 & _ & H5).
  - vm_compute. tauto.
  - reflexivity.
  - exists db'. split; [exact H1|]. split; [exact H3|exact H5].
Defined.

(** ** Ingesting a message *)

Section MoreIngest.

Variable provider : option (string -> option Vec).
Variable extractStructuredItems : list (string * string) -> ExtractionResult.

Lemma insert_row_keeps_messages t now agent p emb occurred rows sessions :
  t <> session_messages ->
  preserves (fun d => db_rows d session_messages = rows /\ db_sessions d = sessions)
            (insert_row t now agent p emb occurred).
Proof.
  intros Ht db out db' [H1 H2]. unfold insert_row.
  repeat (match goal with
          | |- context [if ?b then _ else _] => destruct b
          end; [intros E; apply pair_equal_spec in E as [_ <-]; auto|]).
  intros E. apply pair_equal_spec in E as [_ <-].
  cbn [db_rows db_sessions set_uuids set_rows].
  destruct (Table_eqb session_messages t) eqn:Et; [|auto].
  apply Table_eqb_eq in Et. now subst t.
Qed.

Lemma insert_edge_keeps_messages now agent k rows sessions :
  preserves (fun d => db_rows d session_messages = rows /\ db_sessions d = sessions)
            (insert_edge_do_nothing now agent k).
Proof.
  intros db out db' [H1 H2]. unfold insert_edge_do_nothing.
  repeat (match goal with
          | |- context [if ?b then _ else _] => destruct b
          end; [intros E; apply pair_equal_spec in E as [_ <-]; auto|]).
  intros E. apply pair_equal_spec in E as [_ <-]. auto.
Qed.

Lemma storeExtractedItems_keeps_messages now agent sid extracted embeddingProvider
    rows sessions :
  preserves (fun d => db_rows d session_messages = rows /\ db_sessions d = sessions)
            (storeExtractedItems now agent sid extracted embeddingProvider).
Proof.
  unfold storeExtractedItems.
  repeat (apply preserves_bind; [|intros ?]);
    apply preserves_for_each; intros acc x;
    (apply preserves_bind; [apply insert_row_keeps_messages; discriminate|]);
    intros row;
    (apply preserves_bind; [apply insert_edge_keeps_messages|]);
    intros _; apply preserves_ret.
Qed.

(** A message with a valid role for an existing session is stored before
    anything is extracted from it, and stays stored whatever happens after:
    the answer is either 201 with that message, or an error thrown while an
    extracted item was stored -- and the message row is in the session in both
    cases. The session's message count goes up by one. *)
Theorem ingested_message_is_stored_whatever_extraction_does
    now sessionId req role s db out db' :
  mq_role req = Some role -> In role ROLES ->
  truthy_str (mq_content req) = true ->
  In s (db_sessions db) -> session_id s = sessionId ->
  (forall x, In x (db_sessions db) -> session_id x = sessionId -> x = s) ->
  agent_exists (session_agent_id s) db = true ->
  addMessage provider extractStructuredItems now sessionId req db = (out, db') ->
  exists m,
    db_rows db' session_messages = (db_rows db session_messages ++ [m])%list /\
    p_content (row_payload m) = or_str (mq_content req) "" /\
    p_role (row_payload m) = role /\
    p_session_id (row_payload m) = Some sessionId /\
    row_agent_id m = session_agent_id s /\
    row_embedding m = embed_with provider (or_str (mq_content req) "") /\
    ((exists e, out = Throw e) \/
     (exists nf nd nt ne, out = Ok (reply 201 (body_ingest m nf nd nt ne)))) /\
    get_session sessionId db'
    = (Ok (send 200
             (s, S (length (List.filter
                              (fun r => opt_id_eqb (p_session_id (row_payload r))
                                                   (Some sessionId))
                              (db_rows db session_messages))))), db').
Proof.
  intros Hrole Hin Hcontent Hs Hid Huniq Hagent H.
  assert (Hr : truthy_str (Some role) = true /\ or_str (Some role) "" = role).
  { unfold ROLES in Hin. cbn [In] in Hin.
    destruct Hin as [<-|[<-|[<-|[<-|[]]]]]; split; reflexivity. }
  destruct Hr as [Hr1 Hr2].
  destruct (filter_head_unique (fun x => String.eqb (session_id x) sessionId)
              (db_sessions db) s Hs) as [rest Hf].
  { now apply String.eqb_eq. }
  { intros x Hx Hx'. apply String.eqb_eq in Hx'. now apply Huniq. }
  unfold addMessage in H. rewrite Hrole, Hr1, Hcontent, Hr2 in H. cbn [negb orb] in H.
  unfold bind at 1, gets at 1 in H. rewrite Hf in H.
  unfold bind at 1 in H.
  set (payload := mkPayload (or_str (mq_content req) "") "" "" None (Some sessionId)
                            None 1 50 "not_started" "" "info" role) in H.
  assert (Hexists : session_exists sessionId db = true).
  { unfold session_exists. apply existsb_exists. exists s. split; [assumption|].
    now apply String.eqb_eq. }
  assert (Hchecks : row_checks session_messages payload = true).
  { cbn [row_checks payload p_role]. now apply in_strs_In. }
  assert (Hins : insert_row session_messages now (session_agent_id s) payload
                   (embed_with provider (or_str (mq_content req) "")) None db
                 = (Ok (mkRow (uuid_of_nat (db_uuids db)) (session_agent_id s) payload
                              (embed_with provider (or_str (mq_content req) ""))
                              now now now 0 None active),
                    set_uuids (S (db_uuids db))
                      (set_rows session_messages
                         (db_rows db session_messages
                          ++ [mkRow (uuid_of_nat (db_uuids db)) (session_agent_id s)
                                    payload
                                    (embed_with provider (or_str (mq_content req) ""))
                                    now now now 0 None active]) db))).
  { unfold insert_row. rewrite Hchecks, Hagent.
    cbn [negb payload p_session_id p_project_id opt_ref]. rewrite Hexists.
    reflexivity. }
  rewrite Hins in H.
  set (m := mkRow _ _ _ _ _ _ _ _ _ _) in H.
  set (db1 := set_uuids _ _) in H.
  unfold bind at 1, gets at 1 in H.
  unfold bind at 1 in H.
  destruct (storeExtractedItems now (session_agent_id s) sessionId _ provider db1)
    as [o db2] eqn:Estore.
  assert (Hkeep : db_rows db2 session_messages
                  = (db_rows db session_messages ++ [m])%list
                  /\ db_sessions db2 = db_sessions db).
  { eapply (storeExtractedItems_keeps_messages _ _ _ _ _ _ _ db1 o db2);
      [|exact Estore].
    split; [|reflexivity]. unfold db1. cbn [db_rows set_uuids set_rows].
    now rewrite Table_eqb_refl. }
  destruct Hkeep as [Hrows Hsess].
  assert (Hdb' : db' = db2) by (destruct o; now injection H as _ <-).
  subst db'. exists m.
  split; [exact Hrows|]. do 5 (split; [reflexivity|]). split.
  - destruct o as [stored|e].
    + right. unfold ret in H. injection H as <-. eauto.
    + left. injection H as <-. eauto.
  - unfold get_session, bind, gets, ret. rewrite Hsess, Hf, Hrows.
    rewrite List.filter_app, length_app. cbn [List.filter m row_payload payload
      p_session_id opt_id_eqb]. rewrite String.eqb_refl. cbn [length].
    rewrite Nat.add_1_r. reflexivity.
Qed.

End MoreIngest.

Lemma ingested_message_is_stored_whatever_extraction_does_witness :
  let out := addMessage (Some Demo.embed) Demo.extract Demo.now Demo.session1
                        Demo.message_request Demo.store in
  exists m,
    db_rows (snd out) session_messages = [m] /\
    p_role (row_payload m) = "user" /\
    get_session Demo.session1 (snd out)
    = (Ok (send 200 (mkSession Demo.session1 Demo.agent1 None, 1%nat)), snd out).
Proof.
  intros out.
  destruct (ingested_message_is_stored_whatever_extraction_does
              (Some Demo.embed) Demo.extract Demo.now Demo.session1
              Demo.message_request "user" (mkSession Demo.session1 Demo.agent1 None)
              Demo.store (fst out) (snd out))
    as (m & H1 & _ & H3 & _ & _ & _ & _ & H8).
  - reflexivity.
  - vm_compute. tauto.
  - reflexivity.
  - vm_compute. tauto.
  - reflexivity.
  - intros x Hx _. vm_compute in Hx. destruct Hx as [<-|[]]. reflexivity.
  - reflexivity.
  - apply surjective_pairing.
  - exists m. split; [exact H1|]. split; [exact H3|exact H8].
Defined.

(** ** Creating and reading an agent *)

Section MoreAgents.

Lemma create_agent_created now req db a db1 :
  create_agent now req db = (Ok (send 201 a), db1) ->
  exists slug,
    aq_slug req = Some slug /\ truthy_str (aq_slug req) = true /\
    or_str (aq_slug req) "" = slug /\
    truthy_str (aq_display_name req) = true /\ slug_ok slug = true /\
    existsb (fun x => String.eqb (agent_slug x) slug) (db_agents db) = false /\
    agent_slug a = slug /\ agent_id a = uuid_of_nat (db_uuids db) /\
    agent_display_name a = or_str (aq_display_name req) "" /\
    db1 = set_uuids (S (db_uuids db)) (set_agents (db_agents db ++ [a]) db).
Proof.
  unfold create_agent.
  destruct (truthy_str (aq_slug req)) eqn:Hs; [|discriminate].
  destruct (truthy_str (aq_display_name req)) eqn:Hd; [|discriminate].
  cbn [negb orb].
  destruct (slug_ok (or_str (aq_slug req) "")) eqn:Hok; [|discriminate]. cbn [negb].
  unfold try_catch, bind, insert_agent, ret, throw.
  destruct (existsb _ (db_agents db)) eqn:Hex; [discriminate|].
  intros H. apply Ok_pair_inv in H as [H <-]. injection H as <-.
  destruct (aq_slug req) as [slug|] eqn:Eslug; [|discriminate].
  exists (or_str (Some slug) ""). cbn [agent_slug agent_id agent_display_name].
  assert (Hslug : or_str (Some slug) "" = slug).
  { cbn [or_str truthy_str] in *. destruct (String.eqb slug ""); [discriminate|reflexivity]. }
  rewrite Hslug in *. repeat split; try reflexivity; assumption.
Qed.

Lemma filter_by_new_slug (l : list Agent) (a : Agent) :
  existsb (fun x => String.eqb (agent_slug x) (agent_slug a)) l = false ->
  List.filter (fun x => String.eqb (agent_slug x) (agent_slug a)) (l ++ [a]) = [a].
Proof.
  intros H. rewrite List.filter_app. cbn [List.filter]. rewrite String.eqb_refl.
  rewrite filter_none; [reflexivity|].
  intros x Hx. destruct (String.eqb (agent_slug x) (agent_slug a)) eqn:E; [|reflexivity].
  assert (Ht : existsb (fun y => String.eqb (agent_slug y) (agent_slug a)) l = true).
  { apply existsb_exists. eauto. }
  congruence.
Qed.

(** An agent that was created is found under its slug, with its statistics,
    as long as the slug does not have the shape of a UUID; and creating an
    agent with the same slug again is answered 409 and changes nothing. *)
Theorem created_agent_is_found_by_slug_and_its_slug_is_taken now req db a db1 :
  create_agent now req db = (Ok (send 201 a), db1) ->
  is_uuid_text (agent_slug a) = false ->
  aq_slug req = Some (agent_slug a) /\
  get_agent (agent_slug a) db1
    = (Ok (send 200 (a, getAgentStats (agent_id a) db1)), db1) /\
  forall now' req',
    aq_slug req' = aq_slug req -> truthy_str (aq_display_name req') = true ->
    create_agent now' req' db1
    = (Ok (send_error 409 ("Agent with slug '" ++ agent_slug a ++ "' already exists")),
       db1).
Proof.
  intros H Hshape.
  apply create_agent_created in H
    as (slug & Es & Ht & Hor & Hd & Hok & Hnew & <- & Hid & _ & ->).
  split; [exact Es|]. split.
  - unfold get_agent, bind, gets, ret. rewrite Hshape.
    cbn [db_agents set_uuids set_agents].
    rewrite filter_by_new_slug by assumption. reflexivity.
  - intros now' req' Es' Hd'. unfold create_agent. rewrite Es', Ht, Hd', Hor, Hok.
    cbn [negb orb]. unfold try_catch, bind, insert_agent.
    cbn [db_agents set_uuids set_agents].
    assert (Hex : existsb (fun x => String.eqb (agent_slug x) (agent_slug a))
                          (db_agents db ++ [a]) = true).
    { apply existsb_exists. exists a. split; [apply in_or_app; right; now left|].
      apply String.eqb_refl. }
    rewrite Hex. reflexivity.
Qed.

(** The slug pattern also accepts text that has the shape of a UUID, and
    the lookup then goes by id: an agent created with such a slug is not found
    under its slug, unless an agent happens to have that text as its id. *)
Theorem agent_with_a_uuid_shaped_slug_is_not_found_by_slug now req db a db1 :
  create_agent now req db = (Ok (send 201 a), db1) ->
  is_uuid_text (agent_slug a) = true ->
  (forall x, In x (db_agents db1) -> agent_id x <> agent_slug a) ->
  In a (db_agents db1) /\
  get_agent (agent_slug a) db1 = (Ok (send_error 404 "Agent not found"), db1).
Proof.
  intros H Hshape Hfree.
  pose proof H as H'.
  apply create_agent_created in H'
    as (slug & _ & _ & _ & _ & _ & _ & _ & _ & _ & Hdb).
  split.
  - rewrite Hdb. cbn [db_agents set_uuids set_agents]. apply in_or_app. right. now left.
  - unfold get_agent, bind, gets, ret. rewrite Hshape.
    rewrite filter_none; [reflexivity|].
    intros x Hx. apply String.eqb_neq. now apply Hfree.
Qed.

End MoreAgents.

Lemma created_agent_is_found_by_slug_and_its_slug_is_taken_witness :
  let req := mkAgentRequest (Some "agent-three") (Some "Agent Three") None in
  let out := create_agent Demo.now req Demo.store in
  exists a,
    out = (Ok (send 201 a), snd out) /\
    get_agent "agent-three" (snd out)
    = (Ok (send 200 (a, getAgentStats (agent_id a) (snd out))), snd out) /\
    create_agent (Demo.now + 1) req (snd out)
    = (Ok (send_error 409 "Agent with slug 'agent-three' already exists"), snd out).
Proof.
  intros req out.
  set (a := mkAgent (uuid_of_nat 0) "agent-three" "Agent Three" (JObj ∅) Demo.now).
  assert (H : out = (Ok (send 201 a), snd out)) by (vm_compute; reflexivity).
  destruct (created_agent_is_found_by_slug_and_its_slug_is_taken _ _ _ _ _ H)
    as (_ & H2 & H3); [reflexivity|].
  exists a. split; [exact H|]. split; [exact H2|].
  apply (H3 (Demo.now + 1)%Z req); reflexivity.
Defined.

Lemma agent_with_a_uuid_shaped_slug_is_not_found_by_slug_witness :
  let slug := "deadbeef-0000-4000-8000-00000000beef" in
  let req := mkAgentRequest (Some slug) (Some "Agent Beef") None in
  let out := create_agent Demo.now req Demo.store in
  slug_ok slug = true /\
  get_agent slug (snd out) = (Ok (send_error 404 "Agent not found"), snd out).
Proof.
  intros slug req out. split; [reflexivity|].
  set (a := mkAgent (uuid_of_nat 0) slug "Agent Beef" (JObj ∅) Demo.now).
  assert (H : out = (Ok (send 201 a), snd out)) by (vm_compute; reflexivity).
  destruct (agent_with_a_uuid_shaped_slug_is_not_found_by_slug _ _ _ _ _ H)
    as (_ & H2); [reflexivity| |exact H2].
  intros x Hx. vm_compute in Hx.
  destruct Hx as [<-|[<-|[<-|[]]]]; discriminate.
Defined.

(** ** API keys *)

Section MoreAuth.

Variable sha256_hex : string -> string.

Lemma insert_api_key_ok now hash prefix name agent perms rate exp s k s1 :
  insert_api_key now hash prefix name agent perms rate exp s = (KeyOk k, s1) ->
  existsb (fun x => String.eqb (key_hash x) hash) (ks_api_keys s) = false /\
  k = mkApiKey (uuid_of_nat (db_uuids (ks_db s))) hash prefix name agent perms rate
               exp None now None /\
  ks_api_keys s1 = (ks_api_keys s ++ [k])%list.
Proof.
  unfold insert_api_key.
  destruct (_ || _); [discriminate|].
  destruct (existsb _ (ks_api_keys s)) eqn:E; [discriminate|].
  destruct (negb _); [discriminate|].
  intros H. injection H as <- <-. cbn [ks_api_keys]. auto.
Qed.

Lemma verifyApiKey_first now raw s k rest :
  List.filter (fun x => String.eqb (key_hash x) (hashKey sha256_hex raw))
              (ks_api_keys s) = k :: rest ->
  verifyApiKey sha256_hex now raw s
  = if is_some (key_revoked_at k) then (None, s)
    else if match key_expires_at k with
            | Some e => (e <? now)%Z
            | None => false
            end
    then (None, s)
    else (Some (mkAuthContext (key_id k) (key_agent_id k) (key_permissions k)),
          mkKeyStore (ks_db s)
            (map (fun x => if String.eqb (key_id x) (key_id k)
                           then set_last_used_at now x else x)
                 (ks_api_keys s))).
Proof. unfold verifyApiKey. intros ->. reflexivity. Qed.

Lemma filter_new_hash (l : list ApiKey) (k : ApiKey) :
  existsb (fun x => String.eqb (key_hash x) (key_hash k)) l = false ->
  List.filter (fun x => String.eqb (key_hash x) (key_hash k)) (l ++ [k]) = [k].
Proof.
  intros H. rewrite List.filter_app. cbn [List.filter]. rewrite String.eqb_refl.
  rewrite filter_none; [reflexivity|].
  intros x Hx. destruct (String.eqb (key_hash x) (key_hash k)) eqn:E; [|reflexivity].
  assert (Ht : existsb (fun y => String.eqb (key_hash y) (key_hash k)) l = true).
  { apply existsb_exists. eauto. }
  congruence.
Qed.

(** The key that [POST /keys] returns authenticates from then on, until
    it expires, with the agent scope and the permissions of the request
    (read and write when none are asked for). Of the caller only admin or
    write permission is required: the caller's own scope and permissions
    do not bound those of the new key. *)
Theorem minted_key_authenticates_with_the_requested_rights
    auth now randomBytes req s created s1 :
  post_key sha256_hex auth now randomBytes req s = (KeyOk (send 201 created), s1) ->
  may_manage_keys auth = true /\
  kc_key created = rawKey (generateRawKey sha256_hex randomBytes) /\
  (forall now',
     match kq_expires_at req with Some e => (now' <= e)%Z | None => True end ->
     exists s2,
       verifyApiKey sha256_hex now' (kc_key created) s1
       = (Some (mkAuthContext (kc_id created) (or_null (kq_agent_id req))
                  (with_default (kq_permissions req) ["read"; "write"])), s2)
       /\ ks_db s2 = ks_db s1
       /\ map key_id (ks_api_keys s2) = map key_id (ks_api_keys s1)) /\
  (forall now' e, kq_expires_at req = Some e -> (e < now')%Z ->
     verifyApiKey sha256_hex now' (kc_key created) s1 = (None, s1)).
Proof.
  unfold post_key.
  destruct (truthy_str (kq_name req)); [|discriminate]. cbn [negb].
  destruct (may_manage_keys auth); [|discriminate]. cbn [negb].
  unfold createApiKey. cbn [ko_name ko_agentId ko_permissions ko_rateLimit ko_expiresAt].
  destruct (insert_api_key _ _ _ _ _ _ _ _ s) as [[k|e] s'] eqn:Ei; [|discriminate].
  intros H. injection H as <- <-.
  apply insert_api_key_ok in Ei as (Hnew & Hk & Hkeys).
  cbn [kc_key kc_id].
  assert (Hhash : key_hash k = hashKey sha256_hex
                                 (rawKey (generateRawKey sha256_hex randomBytes))).
  { rewrite Hk. reflexivity. }
  assert (Hf : List.filter
                 (fun x => String.eqb (key_hash x)
                             (hashKey sha256_hex
                                (rawKey (generateRawKey sha256_hex randomBytes))))
                 (ks_api_keys s') = [k]).
  { rewrite Hkeys, <- Hhash. apply filter_new_hash. rewrite Hhash.
    exact Hnew. }
  pose proof (verifyApiKey_first) as Hv.
  split; [reflexivity|]. split; [reflexivity|]. split.
  - intros now' Hlive. pose proof (Hv now' _ _ _ _ Hf) as E.
    assert (Hrev : key_revoked_at k = None) by (rewrite Hk; reflexivity).
    assert (Hexp : key_expires_at k = kq_expires_at req) by (rewrite Hk; reflexivity).
    assert (Hagent : key_agent_id k = or_null (kq_agent_id req))
      by (rewrite Hk; reflexivity).
    assert (Hperm : key_permissions k
                    = with_default (kq_permissions req) ["read"; "write"])
      by (rewrite Hk; reflexivity).
    assert (Hnot : match kq_expires_at req with
                   | Some e => (e <? now')%Z
                   | None => false
                   end = false).
    { destruct (kq_expires_at req); [apply Z.ltb_ge; exact Hlive|reflexivity]. }
    rewrite Hrev, Hexp, Hagent, Hperm in E. cbn [is_some] in E. rewrite Hnot in E.
    eexists. split; [exact E|].
    cbn [ks_db ks_api_keys]. split; [reflexivity|].
    rewrite map_map. apply map_ext. intros x.
    now destruct (String.eqb (key_id x) (key_id k)).
  - intros now' e He Hlt. pose proof (Hv now' _ _ _ _ Hf) as E.
    assert (Hrev : key_revoked_at k = None) by (rewrite Hk; reflexivity).
    assert (Hexp : key_expires_at k = Some e) by (rewrite Hk; exact He).
    rewrite Hrev, Hexp in E. cbn [is_some] in E.
    apply Z.ltb_lt in Hlt. rewrite Hlt in E. exact E.
Qed.

Lemma filter_map_same {A} (f : A -> bool) (g : A -> A) (l : list A) :
  (forall x, f (g x) = f x) ->
  List.filter f (map g l) = map g (List.filter f l).
Proof.
  intros H. induction l as [|a l IH]; cbn [map List.filter]; [reflexivity|].
  rewrite H. destruct (f a); cbn [map]; now rewrite IH.
Qed.

(** Revoking a key that is in use answers 200, and from then on no request
    is authenticated by it, at any time; the key's row stays in the table.
    Revoking it again answers 404. *)
Theorem revoked_key_never_authenticates_again auth now id s k raw :
  may_manage_keys auth = true ->
  In k (ks_api_keys s) -> key_id k = id -> key_revoked_at k = None ->
  hashKey sha256_hex raw = key_hash k ->
  (forall x, In x (ks_api_keys s) -> key_hash x = key_hash k -> x = k) ->
  exists s',
    revoke_key auth now id s = (send 200 "Key revoked successfully", s') /\
    map key_id (ks_api_keys s') = map key_id (ks_api_keys s) /\
    In (set_revoked_at now k) (ks_api_keys s') /\
    (forall now', verifyApiKey sha256_hex now' raw s' = (None, s')) /\
    revoke_key auth now id s'
    = (send_error 404 "Key not found or already revoked", s').
Proof.
  intros Hauth Hin Hid Hrev Hhash Huniq.
  set (hit := fun x : ApiKey =>
                String.eqb (key_id x) id && negb (is_some (key_revoked_at x))).
  set (upd := fun x : ApiKey => if hit x then set_revoked_at now x else x).
  assert (Hhit : hit k = true).
  { unfold hit. rewrite Hrev. cbn [is_some negb]. rewrite andb_true_r.
    now apply String.eqb_eq. }
  assert (Hupd_hit : forall x, hit (upd x) = false).
  { intros x. unfold upd. destruct (hit x) eqn:E; [|exact E].
    unfold hit. cbn [set_revoked_at key_id key_revoked_at is_some negb].
    apply andb_false_r. }
  exists (mkKeyStore (ks_db s) (map upd (ks_api_keys s))).
  split.
  { unfold revoke_key. rewrite Hauth. cbn [negb]. fold hit. fold upd.
    destruct (List.filter hit (ks_api_keys s)) as [|y ys] eqn:Ef.
    - exfalso. assert (Hx : In k (List.filter hit (ks_api_keys s)))
        by (apply filter_In; auto).
      rewrite Ef in Hx. destruct Hx.
    - reflexivity. }
  cbn [ks_api_keys ks_db]. split.
  { rewrite map_map. apply map_ext. intros x. unfold upd. now destruct (hit x). }
  split.
  { apply in_map_iff. exists k. split; [|assumption]. unfold upd. now rewrite Hhit. }
  split.
  - intros now'.
    destruct (filter_head_unique
                (fun x => String.eqb (key_hash x) (hashKey sha256_hex raw))
                (ks_api_keys s) k Hin) as [rest Hf].
    { rewrite Hhash. apply String.eqb_refl. }
    { intros x Hx Hx'. apply String.eqb_eq in Hx'. apply Huniq; congruence. }
    rewrite (verifyApiKey_first now' raw _ (upd k) (map upd rest)).
    + unfold upd at 1. rewrite Hhit. reflexivity.
    + cbn [ks_api_keys]. rewrite filter_map_same, Hf; [reflexivity|].
      intros x. unfold upd. now destruct (hit x).
  - unfold revoke_key. rewrite Hauth. cbn [negb ks_api_keys ks_db]. fold hit. fold upd.
    rewrite (filter_none hit (map upd (ks_api_keys s))).
    + cbn [length Nat.eqb]. do 2 f_equal. rewrite map_map.
      apply map_ext. intros x.
      change (String.eqb (key_id (upd x)) id
              && negb (is_some (key_revoked_at (upd x)))) with (hit (upd x)).
      now rewrite Hupd_hit.
    + intros x Hx. apply in_map_iff in Hx as (y & <- & _). apply Hupd_hit.
Qed.

Lemma verifyApiKey_some now raw s ctx s' :
  verifyApiKey sha256_hex now raw s = (Some ctx, s') ->
  exists k,
    In k (ks_api_keys s) /\ key_hash k = sha256_hex raw /\
    key_revoked_at k = None /\
    match key_expires_at k with Some e => (now <= e)%Z | None => True end /\
    ctx = mkAuthContext (key_id k) (key_agent_id k) (key_permissions k).
Proof.
  unfold verifyApiKey, hashKey.
  destruct (List.filter _ (ks_api_keys s)) as [|k rest] eqn:Ef; [discriminate|].
  assert (Hk : In k (k :: rest)) by now left.
  rewrite <- Ef in Hk. apply filter_In in Hk as [Hin Hh]. apply String.eqb_eq in Hh.
  destruct (key_revoked_at k) eqn:Er; [discriminate|]. cbn [is_some].
  destruct (key_expires_at k) as [e|] eqn:Ee.
  - destruct (e <? now)%Z eqn:El; [discriminate|]. apply Z.ltb_ge in El.
    intros H. injection H as <- _. exists k. rewrite Ee. auto.
  - intros H. injection H as <- _. exists k. rewrite Ee. auto.
Qed.

(** Outside development a request is let through only with a header
    [Bearer <token>] whose token hashes to a stored key that is neither
    revoked nor expired, and the context it gets is that key's. In
    development the configured key is let through as well, with every
    permission and global scope, whatever the table holds. *)
Theorem only_a_live_key_authenticates_outside_development config now authorization s :
  (forall ctx s',
     nodeEnv config <> "development" ->
     authMiddleware sha256_hex config now authorization s = (inr ctx, s') ->
     exists header k,
       authorization = Some header /\ String.prefix "Bearer " header = true /\
       In k (ks_api_keys s) /\
       key_hash k = sha256_hex (substring 7 (String.length header - 7) header) /\
       key_revoked_at k = None /\
       match key_expires_at k with Some e => (now <= e)%Z | None => True end /\
       ctx = mkAuthContext (key_id k) (key_agent_id k) (key_permissions k)) /\
  (forall key,
     nodeEnv config = "development" -> devKey config = Some key -> key <> "" ->
     authorization = Some ("Bearer " ++ key) ->
     authMiddleware sha256_hex config now authorization s
     = (inr (mkAuthContext "dev" None ["read"; "write"; "admin"]), s)).
Proof.
  split.
  - intros ctx s' Henv. unfold authMiddleware.
    destruct (truthy_str authorization) eqn:Ht; [|discriminate]. cbn [negb orb].
    destruct authorization as [header|]; [|discriminate].
    assert (Hor : or_str (Some header) "" = header).
    { cbn [or_str truthy_str] in *. destruct (String.eqb header ""); [discriminate|reflexivity]. }
    rewrite Hor.
    destruct (String.prefix "Bearer " header) eqn:Hp; [|discriminate]. cbn [negb].
    apply String.eqb_neq in Henv. rewrite Henv. cbn [andb].
    destruct (verifyApiKey _ _ _ s) as [[c|] s2] eqn:Ev; [|discriminate].
    intros H. injection H as <- <-.
    apply verifyApiKey_some in Ev as (k & H1 & H2 & H3 & H4 & H5).
    exists header, k. auto 10.
  - intros key Henv Hkey Hne ->. unfold authMiddleware.
    assert (Hlen : forall t, substring 0 (String.length t) t = t).
    { induction t as [|c t IH]; cbn [substring String.length]; [reflexivity|].
      now rewrite IH. }
    assert (Htok : substring 7 (String.length ("Bearer " ++ key) - 7) ("Bearer " ++ key)
                   = key).
    { change (substring 0 (String.length key - 0) key = key).
      rewrite Nat.sub_0_r. apply Hlen. }
    assert (Hpre : String.prefix "Bearer " ("Bearer " ++ key) = true).
    { apply String.prefix_correct.
      change (String.length "Bearer ") with 7%nat. clear. now destruct key. }
    assert (Hor : or_str (Some ("Bearer " ++ key)) "" = "Bearer " ++ key) by reflexivity.
    assert (Ht : truthy_str (Some ("Bearer " ++ key)) = true) by reflexivity.
    rewrite Ht, Hor, Hpre, Htok, Henv, Hkey. cbn [negb orb].
    assert (Hk1 : truthy_str (Some key) = true).
    { cbn [truthy_str]. apply negb_true_iff. now apply String.eqb_neq. }
    assert (Hk2 : or_str (Some key) "" = key).
    { cbn [or_str]. apply String.eqb_neq in Hne. now rewrite Hne. }
    rewrite Hk1, Hk2, !String.eqb_refl. reflexivity.
Qed.

End MoreAuth.

(** A caller scoped to one agent, with read and write, obtains a global
    admin key. *)
Lemma minted_key_authenticates_with_the_requested_rights_witness :
  let out := post_key Examples.digest Examples.caller Demo.now Examples.random_bytes
                      Examples.key_request Examples.key_store in
  exists created s2,
    out = (KeyOk (send 201 created), snd out) /\
    kc_key created = "hxm_abababababababababababababababab" /\
    verifyApiKey Examples.digest (Demo.now + 1) (kc_key created) (snd out)
    = (Some (mkAuthContext (kc_id created) None ["admin"]), s2).
Proof.
  intros out.
  set (created := mkKeyCreated (uuid_of_nat 0) "hxm_abababababababababababababababab"
                    "hxm_abab" "ops"
                    "Save this key now — it will not be shown again.").
  assert (H : out = (KeyOk (send 201 created), snd out)) by (vm_compute; reflexivity).
  destruct (minted_key_authenticates_with_the_requested_rights _ _ _ _ _ _ _ _ H)
    as (_ & Hkey & Hlive & _).
  destruct (Hlive (Demo.now + 1)%Z) as (s2 & Hv & _).
  { vm_compute. discriminate. }
  exists created, s2. split; [exact H|]. split; [reflexivity|exact Hv].
Defined.

Lemma revoked_key_never_authenticates_again_witness :
  exists s',
    revoke_key Examples.caller Demo.now (key_id Examples.live_key) Examples.key_store
    = (send 200 "Key revoked successfully", s') /\
    verifyApiKey Examples.digest (Demo.now + 1) "hxm_0123456789abcdef" s' = (None, s').
Proof.
  destruct (revoked_key_never_authenticates_again Examples.digest Examples.caller
              Demo.now (key_id Examples.live_key) Examples.key_store
              Examples.live_key "hxm_0123456789abcdef")
    as (s' & H1 & _ & _ & H4 & _).
  - reflexivity.
  - vm_compute. tauto.
  - reflexivity.
  - reflexivity.
  - reflexivity.
  - intros x Hx _. vm_compute in Hx. destruct Hx as [<-|[]]. reflexivity.
  - exists s'. split; [exact H1|apply H4].
Defined.

Lemma only_a_live_key_authenticates_outside_development_witness :
  let out := authMiddleware Examples.digest Examples.production Demo.now
                            (Some "Bearer hxm_0123456789abcdef") Examples.key_store in
  fst out = inr Examples.caller /\
  exists k, In k (ks_api_keys Examples.key_store) /\ key_revoked_at k = None /\
            Examples.caller
            = mkAuthContext (key_id k) (key_agent_id k) (key_permissions k).
Proof.
  intros out. split; [reflexivity|].
  destruct (only_a_live_key_authenticates_outside_development Examples.digest
              Examples.production Demo.now (Some "Bearer hxm_0123456789abcdef")
              Examples.key_store) as [Hsound _].
  destruct (Hsound Examples.caller (snd out)) as (header & k & _ & _ & Hin & _ & Hrev & _ & Hctx).
  - discriminate.
  - reflexivity.
  - exists k. split; [exact Hin|]. split; [exact Hrev|exact Hctx].
Defined.
